(** * devtoday back end: request handlers over a relational store

    A shallow embedding of the three routers of the back end
    (authentication, posts, groups) and of the part of the Prisma schema
    they touch.  A handler is a function from the store and the validated
    request to the response and the store after the call.  The data-store
    client is embedded with the error codes the handlers branch on:
    P2002 (unique constraint), P2003 (foreign key) and P2025 (record
    required by the operation not found). *)

From Stdlib Require Import String Ascii List ZArith Bool Arith Lia.
Import ListNotations.
Open Scope string_scope.
Open Scope list_scope.

(** ** Base types *)

(** Row identifiers are [uuid()] values in the schema.  They are opaque to
    every handler (only compared for equality), so the n-th identifier
    handed out by the store is represented by the number n. *)
Definition Id := nat.

(** [DateTime] columns, as a tick count. *)
Definition Time := nat.

(** http-status-codes, the seven members the routers use. *)
Inductive StatusCodes : Type :=
| OK
| CREATED
| BAD_REQUEST
| FORBIDDEN
| NOT_FOUND
| CONFLICT
| INTERNAL_SERVER_ERROR.

Definition status_number (c : StatusCodes) : Z :=
  match c with
  | OK => 200
  | CREATED => 201
  | BAD_REQUEST => 400
  | FORBIDDEN => 403
  | NOT_FOUND => 404
  | CONFLICT => 409
  | INTERNAL_SERVER_ERROR => 500
  end%Z.

(** The [code] of a PrismaClientKnownRequestError. *)
Inductive PrismaCode : Type := P2002 | P2003 | P2025.

(** What a [try] block can catch: a known request error with its code, or
    anything else (a TypeError, a bcrypt argument error, a lost
    connection). *)
Inductive Thrown : Type :=
| Known (code : PrismaCode)
| Other.

(** An awaited call either throws or yields a value. *)
Definition Try (A : Type) : Type := (Thrown + A)%type.

Definition throw {A} (e : Thrown) : Try A := inl e.
Definition ret {A} (a : A) : Try A := inr a.

Definition bind {A B} (m : Try A) (k : A -> Try B) : Try B :=
  match m with
  | inl e => inl e
  | inr a => k a
  end.

Notation "x <- m ;; k" := (bind m (fun x => k))
  (at level 61, m at next level, right associativity).

(** ** JavaScript primitives the handlers rely on *)

(** [String.prototype.toLowerCase] is a built-in of the runtime.  The
    handlers are read over any implementation of it, so what is proved of
    them holds of the one the runtime provides, which folds every cased
    letter. *)
Class JsString : Type := {
  toLowerCase : string -> string
}.

(** What the built-in does on an ASCII string: the 26 capitals move down
    by 32, every other code unit is kept.  The handlers are run on the
    examples with this fold. *)
Definition lower_ascii (c : ascii) : ascii :=
  let n := nat_of_ascii c in
  if ((65 <=? n) && (n <=? 90))%nat then ascii_of_nat (n + 32) else c.

Fixpoint ascii_toLowerCase (s : string) : string :=
  match s with
  | EmptyString => EmptyString
  | String c r => String (lower_ascii c) (ascii_toLowerCase r)
  end.

(** [a || ""] on an optional string: [undefined], [null] and the empty
    string are the falsy values. *)
Definition or_empty (a : option string) : string :=
  match a with
  | None => ""
  | Some s => if (s =? "")%string then "" else s
  end.

(** Truthiness of an array value: every array, the empty one included, is
    an object and hence truthy. *)
Definition truthy_array {A} (l : list A) : bool := true.

(** Truthiness of a row object returned by the client. *)
Definition truthy_object {A} (x : A) : bool := true.

(** Truthiness of a value that is either [null] or a row object. *)
Definition truthy_nullable {A} (x : option A) : bool :=
  match x with
  | None => false
  | Some a => truthy_object a
  end.

(** ** The schema *)

Inductive PostType : Type := MEETUP | PODCAST | STANDARD.

Module User.
Record t : Type := mk {
  id : Id;
  createdAt : Time;
  email : string;
  password : option string;
  username : string;
  image : option string
}.
End User.

Module Profile.
Record t : Type := mk {
  onBoardingCompleted : bool;
  userId : Id;
  name : option string;
  journey : option string;
  ambitions : list string;
  tech : list string;
  bio : option string;
  githubLink : option string;
  githubHandle : option string;
  linkedinLink : option string;
  linkedinHandle : option string;
  xProfileLink : option string;
  xProfileHandle : option string;
  instagramLink : option string;
  instagramHandle : option string
}.
End Profile.

Module Post.
Record t : Type := mk {
  id : Id;
  authorId : Id;
  title : string;
  createType : PostType;
  groupId : option Id;
  coverImage : option string;
  audioFile : option string;
  audioTitle : option string;
  meetupLocation : option string;
  meetupDate : option Time;
  tinyContent : option string;
  createdAt : Time;
  views : Z
}.
End Post.

Module Like.
Record t : Type := mk { userId : Id; postId : Id }.
End Like.

Module Tag.
Record t : Type := mk { id : Id; name : string }.
End Tag.

Module Comment.
Record t : Type := mk {
  id : Id;
  content : string;
  createdAt : Time;
  authorId : Id;
  postId : Id
}.
End Comment.

Module Group.
Record t : Type := mk {
  id : Id;
  name : string;
  profileImage : string;
  coverImage : option string;
  bio : option string;
  createdAt : Time;
  creatorId : Id
}.
End Group.

Module GroupUser.
Record t : Type := mk { userId : Id; groupId : Id; isAdmin : bool }.
End GroupUser.

(** The tables, each in insertion order.  [postTags] is the implicit
    many-to-many table behind [Post.interestTechTags] (post id, tag id).
    [next_uuid] is the next identifier [uuid()] hands out and [clock] the
    value of [now()]. *)
Record Store : Type := mkStore {
  users : list User.t;
  profiles : list Profile.t;
  posts : list Post.t;
  tags : list Tag.t;
  postTags : list (Id * Id);
  likes : list Like.t;
  comments : list Comment.t;
  groups : list Group.t;
  groupUsers : list GroupUser.t;
  next_uuid : nat;
  clock : Time
}.

Definition empty_store : Store :=
  mkStore [] [] [] [] [] [] [] [] [] 0 0.

Definition set_users (s : Store) (us : list User.t) (ps : list Profile.t) (n : nat) : Store :=
  mkStore us ps (posts s) (tags s) (postTags s) (likes s) (comments s)
          (groups s) (groupUsers s) n (clock s).

Definition set_tags (s : Store) (ts : list Tag.t) (n : nat) : Store :=
  mkStore (users s) (profiles s) (posts s) ts (postTags s) (likes s)
          (comments s) (groups s) (groupUsers s) n (clock s).

Definition set_posts (s : Store) (ps : list Post.t) : Store :=
  mkStore (users s) (profiles s) ps (tags s) (postTags s) (likes s)
          (comments s) (groups s) (groupUsers s) (next_uuid s) (clock s).

Definition set_likes (s : Store) (ls : list Like.t) : Store :=
  mkStore (users s) (profiles s) (posts s) (tags s) (postTags s) ls
          (comments s) (groups s) (groupUsers s) (next_uuid s) (clock s).

Definition set_groupUsers (s : Store) (gus : list GroupUser.t) : Store :=
  mkStore (users s) (profiles s) (posts s) (tags s) (postTags s) (likes s)
          (comments s) (groups s) gus (next_uuid s) (clock s).

Definition set_groups (s : Store) (gs : list Group.t) : Store :=
  mkStore (users s) (profiles s) (posts s) (tags s) (postTags s) (likes s)
          (comments s) gs (groupUsers s) (next_uuid s) (clock s).

(** ** Response bodies *)

(** The [user] sub-object selected by the members listing. *)
Record MemberUser : Type := mkMemberUser {
  mu_id : Id;
  mu_image : option string;
  mu_profile : option Profile.t
}.

Inductive Json : Type :=
| JMessage (message : string)
| JError (error : string)
| JNull
| JUser (u : User.t)
| JUserProfile (u : User.t) (p : option Profile.t)
| JPost (p : Post.t)
| JPostTags (p : Post.t) (interestTechTags : list string)
| JGroup (g : Group.t)
| JGroupUser (user : GroupUser.t)
| JMembers (ms : list (GroupUser.t * option MemberUser)).

Record Response : Type := mkResponse {
  status : StatusCodes;
  body : Json
}.

Definition message (c : StatusCodes) (m : string) : Response :=
  mkResponse c (JMessage m).

(** ** Equality tests used by the queries *)

Definition same_like (userId postId : Id) (l : Like.t) : bool :=
  (Like.userId l =? userId)%nat && (Like.postId l =? postId)%nat.

Definition same_membership (userId groupId : Id) (gu : GroupUser.t) : bool :=
  (GroupUser.userId gu =? userId)%nat && (GroupUser.groupId gu =? groupId)%nat.

Definition same_group_key (name : string) (creatorId : Id) (g : Group.t) : bool :=
  (Group.name g =? name)%string && (Group.creatorId g =? creatorId)%nat.

Definition user_exists (s : Store) (id : Id) : bool :=
  existsb (fun u => (User.id u =? id)%nat) (users s).

Definition post_exists (s : Store) (id : Id) : bool :=
  existsb (fun p => (Post.id p =? id)%nat) (posts s).

Definition group_exists (s : Store) (id : Id) : bool :=
  existsb (fun g => (Group.id g =? id)%nat) (groups s).

Definition tag_exists (s : Store) (id : Id) : bool :=
  existsb (fun t => (Tag.id t =? id)%nat) (tags s).

(** ** routes/auth.ts *)

(** The two bcrypt entry points the router calls: [hashSync] with the salt
    generated when the module is loaded, and the comparison of a plain text
    with a stored string. *)
Record Bcrypt : Type := mkBcrypt {
  hashSync : string -> string;
  compare : string -> string -> bool
}.

(** [bcrypt.compare(data, hash)] as the router calls it: the promise is
    rejected when an argument is [null] or [undefined]; on two strings it
    resolves to the result of the comparison. *)
Definition bcrypt_compare (B : Bcrypt) (data : string) (hash : option string)
  : Try bool :=
  match hash with
  | None => throw Other
  | Some h => ret (compare B data h)
  end.

(** [prisma.user.findUnique({ where: { email } })]. *)
Definition user_findUnique (s : Store) (email : string) : option User.t :=
  find (fun u => (User.email u =? email)%string) (users s).

Definition profile_of (s : Store) (userId : Id) : option Profile.t :=
  find (fun p => (Profile.userId p =? userId)%nat) (profiles s).

(** The profile row of the nested [profile: { create: ... }]. *)
Definition new_profile (userId : Id) : Profile.t :=
  Profile.mk false userId None None [] [] None None None None None None None
             None None.

(** [prisma.user.create] with the nested profile; [email] is [@unique]. *)
Definition user_create (s : Store) (username email : string)
  (password : option string) : Try (User.t * Store) :=
  if existsb (fun u => (User.email u =? email)%string) (users s)
  then throw (Known P2002)
  else
    let u := User.mk (next_uuid s) (clock s) email password username None in
    ret (u, set_users s (users s ++ [u])
                      (profiles s ++ [new_profile (User.id u)])
                      (S (next_uuid s))).

(** POST /register *)
Definition register {J : JsString} (B : Bcrypt) (s : Store) (username email password : string)
  : Response * Store :=
  let hashedPassword := hashSync B password in
  match user_create s username (toLowerCase email) (Some hashedPassword) with
  | inr (_, s') => (message CREATED "User created successfully", s')
  | inl (Known P2002) => (message CONFLICT "Error user already exists", s)
  | inl _ => (message INTERNAL_SERVER_ERROR "Internal server error", s)
  end.

(** POST /register/social *)
Definition registerSocial {J : JsString} (s : Store) (name email : string) : Response * Store :=
  let userEmail := toLowerCase email in
  match user_create s name userEmail None with
  | inr (_, s') => (message CREATED "User created successfully", s')
  | inl (Known P2002) => (message CONFLICT "Error: User already exists", s)
  | inl _ => (message INTERNAL_SERVER_ERROR "Internal server error", s)
  end.

(** POST /login, the revision of the file that has the social
    registration: the stored password goes through [|| ""] before it is
    compared. *)
Definition login (B : Bcrypt) (s : Store) (email password : string) : Response :=
  match user_findUnique s email with
  | None => message BAD_REQUEST "No user found"
  | Some userFound =>
      let storedPassword := User.password userFound in
      match bcrypt_compare B password (Some (or_empty storedPassword)) with
      | inr isAuthenticated =>
          if negb isAuthenticated
          then message BAD_REQUEST "Incorrect email or password"
          else mkResponse OK (JUser userFound)
      | inl _ => message INTERNAL_SERVER_ERROR "Internal server error"
      end
  end.

(** POST /login, the earlier revision: the stored password is handed to
    [bcrypt.compare] as it is. *)
Definition login_rev1 (B : Bcrypt) (s : Store) (email password : string)
  : Response :=
  match user_findUnique s email with
  | None => message BAD_REQUEST "No user found"
  | Some userFound =>
      match bcrypt_compare B password (User.password userFound) with
      | inr isAuthenticated =>
          if negb isAuthenticated
          then message BAD_REQUEST "Incorrect email or password"
          else mkResponse OK (JUser userFound)
      | inl _ => message INTERNAL_SERVER_ERROR "Internal server error"
      end
  end.

(** Whether the query of the session lookup reaches the data store. *)
Inductive Connection : Type := Connected | Lost.

(** [prisma.user.findUnique({ where: { email }, include: { profile: true } })]:
    resolves to [null] when no row matches, and is rejected only when the
    query itself fails. *)
Definition user_findUnique_profile (c : Connection) (s : Store) (email : string)
  : Try (option (User.t * option Profile.t)) :=
  match c with
  | Lost => throw Other
  | Connected =>
      ret (option_map (fun u => (u, profile_of s (User.id u)))
                      (user_findUnique s email))
  end.

(** POST /user *)
Definition getUserByEmail (c : Connection) (s : Store) (email : string)
  : Response :=
  match user_findUnique_profile c s email with
  | inr userFound =>
      mkResponse OK
        match userFound with
        | None => JNull
        | Some (u, p) => JUserProfile u p
        end
  | inl _ => message OK "User not found"
  end.

(** ** The post router *)

(** [prisma.tag.findUnique({ where: { name } })]. *)
Definition tag_findUnique (s : Store) (name : string) : option Tag.t :=
  find (fun t => (Tag.name t =? name)%string) (tags s).

(** [prisma.tag.create({ data: { name } })]; [name] is [@unique]. *)
Definition tag_create (s : Store) (name : string) : Try (Tag.t * Store) :=
  if existsb (fun t => (Tag.name t =? name)%string) (tags s)
  then throw (Known P2002)
  else
    let t := Tag.mk (next_uuid s) name in
    ret (t, set_tags s (tags s ++ [t]) (S (next_uuid s))).

(** The body of POST /, after validation. *)
Record PostBody : Type := mkPostBody {
  pb_authorId : Id;
  pb_title : string;
  pb_createType : option PostType;
  pb_groupId : option Id;
  pb_coverImage : option string;
  pb_audioFile : option string;
  pb_audioTitle : option string;
  pb_meetupLocation : option string;
  pb_meetupDate : option Time;
  pb_tinyContent : option string;
  pb_interestTechTags : list string
}.

(** [interestTechTags.map(async (tag) => ...)] calls the callbacks one after
    the other, and each runs only as far as its first [await]: every
    lookup is issued, against the store as the request found it, before
    any callback is resumed. *)
Definition issue_lookups (s : Store) (interestTechTags : list string)
  : list (string * option Tag.t) :=
  map (fun tag => (tag, tag_findUnique s tag)) interestTechTags.

(** The callbacks resumed with the answers to their lookups, in order: one
    that found a row resolves to its id, one that found none issues the
    create and settles with its outcome.  A rejected create does not stop
    the others. *)
Fixpoint resume_callbacks (s : Store) (pending : list (string * option Tag.t))
  : Store * list (Try Id) :=
  match pending with
  | [] => (s, [])
  | (tag, Some existingTag) :: rest =>
      let (s', settled) := resume_callbacks s rest in
      (s', ret (Tag.id existingTag) :: settled)
  | (tag, None) :: rest =>
      match tag_create s tag with
      | inr (createdTag, s1) =>
          let (s', settled) := resume_callbacks s1 rest in
          (s', ret (Tag.id createdTag) :: settled)
      | inl e =>
          let (s', settled) := resume_callbacks s rest in
          (s', throw e :: settled)
      end
  end.

(** [Promise.all]: rejected as soon as one member is, fulfilled with the
    array of values otherwise. *)
Fixpoint promise_all {A} (settled : list (Try A)) : Try (list A) :=
  match settled with
  | [] => ret []
  | inl e :: _ => throw e
  | inr a :: rest => vs <- promise_all rest ;; ret (a :: vs)
  end.

(** Rows added to the relation table by [connect]; a pair already present
    is not added again. *)
Fixpoint connect_tags (rel : list (Id * Id)) (postId : Id) (tagIds : list Id)
  : list (Id * Id) :=
  match tagIds with
  | [] => rel
  | t :: rest =>
      let rel' :=
        if existsb (fun r => (fst r =? postId)%nat && (snd r =? t)%nat) rel
        then rel else rel ++ [(postId, t)] in
      connect_tags rel' postId rest
  end.

(** The names selected by [include: { interestTechTags: { select: { name } } }],
    listed in table order; the include names no order, so the order of the
    names in an answer is the data store's. *)
Definition tag_names_of (s : Store) (postId : Id) : list string :=
  map Tag.name
      (filter (fun t =>
                 existsb (fun r => (fst r =? postId)%nat && (snd r =? Tag.id t)%nat)
                         (postTags s))
              (tags s)).

Definition default_createType (t : option PostType) : PostType :=
  match t with
  | Some t => t
  | None => STANDARD
  end.

(** [prisma.post.create] with the [connect] of the tag ids. *)
Definition post_create (s : Store) (b : PostBody) (tagIds : list Id)
  : Try (Post.t * Store) :=
  if negb (user_exists s (pb_authorId b)) then throw (Known P2003)
  else if match pb_groupId b with
          | Some g => negb (group_exists s g)
          | None => false
          end then throw (Known P2003)
  else if negb (forallb (tag_exists s) tagIds) then throw (Known P2025)
  else
    let p := Post.mk (next_uuid s) (pb_authorId b) (pb_title b)
                     (default_createType (pb_createType b)) (pb_groupId b)
                     (pb_coverImage b) (pb_audioFile b) (pb_audioTitle b)
                     (pb_meetupLocation b) (pb_meetupDate b)
                     (pb_tinyContent b) (clock s) 0%Z in
    ret (p, mkStore (users s) (profiles s) (posts s ++ [p]) (tags s)
                    (connect_tags (postTags s) (Post.id p) tagIds)
                    (likes s) (comments s) (groups s) (groupUsers s)
                    (S (next_uuid s)) (clock s)).

(** POST / (create a post) *)
Definition createPost (s : Store) (b : PostBody) : Response * Store :=
  let (s1, settled) :=
    resume_callbacks s (issue_lookups s (pb_interestTechTags b)) in
  match promise_all settled with
  | inl _ => (message INTERNAL_SERVER_ERROR "Internal server error", s1)
  | inr tagIds =>
      match post_create s1 b tagIds with
      | inr (createPost, s2) =>
          (mkResponse OK (JPostTags createPost (tag_names_of s2 (Post.id createPost))), s2)
      | inl _ => (message INTERNAL_SERVER_ERROR "Internal server error", s1)
      end
  end.

(** A field of an update's [data]: [undefined] leaves the column alone. *)
Definition assign {A} (new : option A) (old : A) : A :=
  match new with
  | Some v => v
  | None => old
  end.

(** [prisma.post.update({ where: { id }, data: { title, tinyContent } })]. *)
Definition post_update (s : Store) (id : Id) (title tinyContent : option string)
  : Try (Post.t * Store) :=
  match find (fun p => (Post.id p =? id)%nat) (posts s) with
  | None => throw (Known P2025)
  | Some p =>
      let p' := Post.mk (Post.id p) (Post.authorId p) (assign title (Post.title p))
                        (Post.createType p) (Post.groupId p) (Post.coverImage p)
                        (Post.audioFile p) (Post.audioTitle p)
                        (Post.meetupLocation p) (Post.meetupDate p)
                        (assign (option_map Some tinyContent) (Post.tinyContent p))
                        (Post.createdAt p) (Post.views p) in
      ret (p', set_posts s (map (fun q => if (Post.id q =? id)%nat then p' else q)
                                (posts s)))
  end.

(** PATCH /:id (edit a post) *)
Definition updatePost (s : Store) (id : Id) (title tinyContent : option string)
  : Response * Store :=
  match post_update s id title tinyContent with
  | inr (posts, s') => (mkResponse OK (JPost posts), s')
  | inl (Known P2025) => (message NOT_FOUND "Post to update does not exist", s)
  | inl _ => (message INTERNAL_SERVER_ERROR "Internal server error", s)
  end.

(** [prisma.post.update({ where: { id }, data: { likes: { create: { userId } } } })]:
    the post is looked up first, then the Like row is inserted under its
    primary key (userId, postId) and its foreign key to User. *)
Definition post_update_likes_create (s : Store) (id userId : Id) : Try Store :=
  if negb (post_exists s id) then throw (Known P2025)
  else if existsb (same_like userId id) (likes s) then throw (Known P2002)
  else if negb (user_exists s userId) then throw (Known P2003)
  else ret (set_likes s (likes s ++ [Like.mk userId id])).

(** POST /:id/like *)
Definition likePost (s : Store) (likedPostId likerId : Id) : Response * Store :=
  match post_update_likes_create s likedPostId likerId with
  | inr s' => (message OK "You now like this post", s')
  | inl (Known P2002) => (message CONFLICT "You can't like a post twice", s)
  | inl (Known P2003) => (message NOT_FOUND "User with this ID not found", s)
  | inl (Known P2025) => (message NOT_FOUND "Post with this ID not found", s)
  | inl Other => (message INTERNAL_SERVER_ERROR "Internal server error", s)
  end.

(** [prisma.like.delete({ where: { userId_postId: { userId, postId } } })]. *)
Definition like_delete (s : Store) (userId postId : Id) : Try Store :=
  if existsb (same_like userId postId) (likes s)
  then ret (set_likes s (filter (fun l => negb (same_like userId postId l)) (likes s)))
  else throw (Known P2025).

(** POST /:id/unlike *)
Definition unlikePost (s : Store) (likedPostId likerId : Id) : Response * Store :=
  match like_delete s likerId likedPostId with
  | inr s' => (message OK "Unliked this post", s')
  | inl (Known P2025) => (message NOT_FOUND "Record to delete does not exist", s)
  | inl _ => (message INTERNAL_SERVER_ERROR "Internal server error", s)
  end.

(** ** The group router *)

(** [prisma.group.findUnique({ where: { id } })]. *)
Definition group_findUnique (s : Store) (id : Id) : option Group.t :=
  find (fun g => (Group.id g =? id)%nat) (groups s).

(** [group?.creatorId !== requester]: with no group the left side is
    [undefined], which differs from every id. *)
Definition not_creator (group : option Group.t) (requester : Id) : bool :=
  match group with
  | None => true
  | Some g => negb (Group.creatorId g =? requester)%nat
  end.

(** An element of [members] in the body of POST /create. *)
Record MemberInput : Type := mkMemberInput {
  mi_userId : Id;
  mi_isAdmin : option bool
}.

Record GroupBody : Type := mkGroupBody {
  gb_name : string;
  gb_bio : string;
  gb_profileImage : option string;
  gb_coverImage : option string;
  gb_creatorId : Id;
  gb_members : list MemberInput
}.

(** The rows of the nested [groupUser: { create: [...] }] put into the
    table in the order of the array, under the primary key
    (userId, groupId); [None] when a row repeats a key.  [isAdmin]
    defaults to false. *)
Fixpoint groupUser_insert (gus : list GroupUser.t) (groupId : Id)
  (rows : list MemberInput) : option (list GroupUser.t) :=
  match rows with
  | [] => Some gus
  | r :: rest =>
      if existsb (same_membership (mi_userId r) groupId) gus then None
      else
        let isAdmin := match mi_isAdmin r with Some b => b | None => false end in
        groupUser_insert (gus ++ [GroupUser.mk (mi_userId r) groupId isAdmin])
                         groupId rest
  end.

(** The nested rows reach the data store in one statement: a repeated
    primary key is raised as its row is inserted, the foreign key to User
    is checked when the statement ends, so that a repeated key is reported
    whatever the users. *)
Definition groupUser_create_nested (s : Store) (groupId : Id)
  (rows : list MemberInput) : Try Store :=
  match groupUser_insert (groupUsers s) groupId rows with
  | None => throw (Known P2002)
  | Some gus =>
      if forallb (fun r => user_exists s (mi_userId r)) rows
      then ret (set_groupUsers s gus)
      else throw (Known P2003)
  end.

(** [prisma.group.create] with its nested rows, all or nothing;
    (name, creatorId) is [@@unique]. *)
Definition group_create (s : Store) (name : string) (bio : option string)
  (profileImage : string) (coverImage : option string) (creatorId : Id)
  (groupUser : list MemberInput) : Try (Group.t * Store) :=
  if existsb (same_group_key name creatorId) (groups s) then throw (Known P2002)
  else if negb (user_exists s creatorId) then throw (Known P2003)
  else
    let g := Group.mk (next_uuid s) name profileImage coverImage bio (clock s)
                      creatorId in
    let s1 := mkStore (users s) (profiles s) (posts s) (tags s) (postTags s)
                      (likes s) (comments s) (groups s ++ [g]) (groupUsers s)
                      (S (next_uuid s)) (clock s) in
    s2 <- groupUser_create_nested s1 (Group.id g) groupUser ;;
    ret (g, s2).

(** POST /create *)
Definition createGroup {J : JsString} (s : Store) (b : GroupBody) : Response * Store :=
  match group_create s (toLowerCase (gb_name b)) (Some (toLowerCase (gb_bio b)))
                     (or_empty (gb_profileImage b)) (gb_coverImage b)
                     (gb_creatorId b)
                     (mkMemberInput (gb_creatorId b) (Some true) :: gb_members b) with
  | inr (group, s') => (mkResponse OK (JGroup group), s')
  | inl (Known P2002) => (message CONFLICT "Group already exists", s)
  | inl _ => (message INTERNAL_SERVER_ERROR "Internal server error", s)
  end.

(** [prisma.groupUser.findMany({ where: { groupId }, include, skip, take })];
    the client rejects a negative [skip].  The call names no [orderBy]:
    which rows a page holds is the data store's choice, and the rows are
    taken here in table order; nothing below depends on that order, nor on
    how large a [skip] the client accepts. *)
Definition groupUser_findMany (s : Store) (groupId : Id) (skip : Z) (take : nat)
  : Try (list (GroupUser.t * option MemberUser)) :=
  if (skip <? 0)%Z then throw Other
  else
    let rows := filter (fun gu => (GroupUser.groupId gu =? groupId)%nat)
                       (groupUsers s) in
    ret (map (fun gu =>
                (gu,
                 option_map (fun u => mkMemberUser (User.id u) (User.image u)
                                                   (profile_of s (User.id u)))
                            (find (fun u => (User.id u =? GroupUser.userId gu)%nat)
                                  (users s))))
             (firstn take (skipn (Z.to_nat skip) rows))).

(** GET /:id/admins; [page] is the parsed query parameter, absent when the
    request carries none. *)
Definition listAdmins (s : Store) (groupId : Id) (page : option Z) : Response :=
  let pageSize := 10%nat in
  let page := match page with Some p => p | None => 1%Z end in
  let skip := ((page - 1) * Z.of_nat pageSize)%Z in
  match groupUser_findMany s groupId skip pageSize with
  | inr members =>
      if truthy_array members
      then mkResponse OK (JMembers members)
      else message NOT_FOUND "No members yet"
  | inl _ => mkResponse INTERNAL_SERVER_ERROR (JError "Internal Server Error")
  end.

(** [prisma.groupUser.update({ where: { userId_groupId }, data: { isAdmin } })]:
    rejected with P2025 when the row is missing, never resolved to [null]. *)
Definition groupUser_update (s : Store) (userId groupId : Id) (isAdmin : bool)
  : Try (GroupUser.t * Store) :=
  match find (same_membership userId groupId) (groupUsers s) with
  | None => throw (Known P2025)
  | Some gu =>
      let gu' := GroupUser.mk (GroupUser.userId gu) (GroupUser.groupId gu) isAdmin in
      ret (gu', set_groupUsers s
                  (map (fun r => if same_membership userId groupId r then gu' else r)
                       (groupUsers s)))
  end.

(** PATCH /:id/add-admin *)
Definition addAdmin (s : Store) (groupId memberId creatorId : Id)
  : Response * Store :=
  let group := group_findUnique s groupId in
  if not_creator group creatorId
  then (message FORBIDDEN "You are not allowed to add admins", s)
  else
    match groupUser_update s memberId groupId true with
    | inr (groupUser, s') =>
        if negb (truthy_object groupUser)
        then (message NOT_FOUND "User wasn't found", s')
        else (mkResponse OK (JGroupUser groupUser), s')
    | inl _ => (message INTERNAL_SERVER_ERROR "Internal server error", s)
    end.

(** PATCH /:id/remove-admin *)
Definition removeAdmin (s : Store) (groupId memberId creatorId : Id)
  : Response * Store :=
  let group := group_findUnique s groupId in
  if not_creator group creatorId
  then (message FORBIDDEN "You are not allowed to remove admins", s)
  else
    match groupUser_update s memberId groupId false with
    | inr (groupUser, s') =>
        if negb (truthy_object groupUser)
        then (message NOT_FOUND "User wasn't found", s')
        else (mkResponse OK (JGroupUser groupUser), s')
    | inl _ => (message INTERNAL_SERVER_ERROR "Internal server error", s)
    end.

(** The body of PATCH /:id, after validation; [eb_userId] is the requester. *)
Record EditGroupBody : Type := mkEditGroupBody {
  eb_name : option string;
  eb_bio : option string;
  eb_profileImage : option string;
  eb_coverImage : option string;
  eb_userId : Id
}.

(** [prisma.group.update({ where: { id }, data: { name, bio, profileImage,
    coverImage } })]; the new (name, creatorId) has to stay unique among
    the other groups. *)
Definition group_update (s : Store) (id : Id) (b : EditGroupBody)
  : Try (Group.t * Store) :=
  match group_findUnique s id with
  | None => throw (Known P2025)
  | Some g =>
      let g' := Group.mk (Group.id g) (assign (eb_name b) (Group.name g))
                         (assign (eb_profileImage b) (Group.profileImage g))
                         (assign (option_map Some (eb_coverImage b)) (Group.coverImage g))
                         (assign (option_map Some (eb_bio b)) (Group.bio g))
                         (Group.createdAt g) (Group.creatorId g) in
      if existsb (fun h => negb (Group.id h =? id)%nat
                           && same_group_key (Group.name g') (Group.creatorId g') h)
                 (groups s)
      then throw (Known P2002)
      else ret (g', set_groups s
                      (map (fun h => if (Group.id h =? id)%nat then g' else h)
                           (groups s)))
  end.

(** PATCH /:id (edit a group).  The handler answers only inside
    [if (groupUpdate)]; [None] stands for the request left unanswered. *)
Definition editGroup (s : Store) (groupId : Id) (b : EditGroupBody)
  : option Response * Store :=
  let group := group_findUnique s groupId in
  if not_creator group (eb_userId b)
  then (Some (message FORBIDDEN "You are not allowed to edit the group"), s)
  else
    match group_update s groupId b with
    | inr (groupUpdate, s') =>
        if truthy_object groupUpdate
        then (Some (mkResponse OK (JGroup groupUpdate)), s')
        else (None, s')
    | inl _ => (Some (mkResponse INTERNAL_SERVER_ERROR (JError "Internal Server Error")), s)
    end.

(** [prisma.groupUser.delete({ where: { userId_groupId } })]. *)
Definition groupUser_delete (s : Store) (userId groupId : Id) : Try Store :=
  if existsb (same_membership userId groupId) (groupUsers s)
  then ret (set_groupUsers s
              (filter (fun gu => negb (same_membership userId groupId gu))
                      (groupUsers s)))
  else throw (Known P2025).

(** DELETE /:id/remove *)
Definition removeMember (s : Store) (groupId memberId adminId : Id)
  : Response * Store :=
  let group := group_findUnique s groupId in
  if not_creator group adminId
  then (message FORBIDDEN "You are not allowed to remove members", s)
  else
    match groupUser_delete s memberId groupId with
    | inr s' => (message OK "User removed", s')
    | inl (Known P2025) => (message NOT_FOUND "User not in the group", s)
    | inl _ => (message INTERNAL_SERVER_ERROR "Internal server error", s)
    end.

(** [prisma.group.delete({ where: { id } })] with the cascades of the
    schema: the memberships of the group, its posts, and the likes,
    comments and tag links of those posts. *)
Definition group_delete (s : Store) (id : Id) : Try (Group.t * Store) :=
  match group_findUnique s id with
  | None => throw (Known P2025)
  | Some g =>
      let in_group (p : Post.t) :=
        match Post.groupId p with
        | Some g' => (g' =? id)%nat
        | None => false
        end in
      let gone (postId : Id) :=
        existsb (fun p => (Post.id p =? postId)%nat && in_group p) (posts s) in
      ret (g, mkStore (users s) (profiles s)
                      (filter (fun p => negb (in_group p)) (posts s))
                      (tags s)
                      (filter (fun r => negb (gone (fst r))) (postTags s))
                      (filter (fun l => negb (gone (Like.postId l))) (likes s))
                      (filter (fun c => negb (gone (Comment.postId c))) (comments s))
                      (filter (fun h => negb (Group.id h =? id)%nat) (groups s))
                      (filter (fun gu => negb (GroupUser.groupId gu =? id)%nat)
                              (groupUsers s))
                      (next_uuid s) (clock s))
  end.

(** DELETE /:id (delete a group) *)
Definition deleteGroup (s : Store) (groupId creatorId : Id) : Response * Store :=
  match group_findUnique s groupId with
  | None => (message NOT_FOUND "Group does not exist", s)
  | Some group =>
      if (Group.creatorId group =? creatorId)%nat
      then
        match group_delete s groupId with
        | inr (groupDeleted, s') => (mkResponse OK (JGroup group), s')
        | inl _ => (message INTERNAL_SERVER_ERROR "Internal server error", s)
        end
      else (message FORBIDDEN "Not Allowed", s)
  end.

(** ** The remaining routes that write *)

(** [prisma.post.delete({ where: { id } })] with the cascades of the
    schema: the likes, comments and tag links of the post. *)
Definition post_delete (s : Store) (id : Id) : Try Store :=
  if post_exists s id
  then ret (mkStore (users s) (profiles s)
                    (filter (fun p => negb (Post.id p =? id)%nat) (posts s))
                    (tags s)
                    (filter (fun r => negb (fst r =? id)%nat) (postTags s))
                    (filter (fun l => negb (Like.postId l =? id)%nat) (likes s))
                    (filter (fun c => negb (Comment.postId c =? id)%nat) (comments s))
                    (groups s) (groupUsers s) (next_uuid s) (clock s))
  else throw (Known P2025).

(** DELETE /:id (delete a post) *)
Definition deletePost (s : Store) (id : Id) : Response * Store :=
  match post_delete s id with
  | inr s' => (message OK "Post deleted", s')
  | inl (Known P2025) => (message NOT_FOUND "Record to delete does not exist", s)
  | inl _ => (message INTERNAL_SERVER_ERROR "Internal server error", s)
  end.

(** [prisma.groupUser.create({ data: { userId, groupId } })]. *)
Definition groupUser_create (s : Store) (userId groupId : Id)
  : Try (GroupUser.t * Store) :=
  if existsb (same_membership userId groupId) (groupUsers s)
  then throw (Known P2002)
  else if negb (user_exists s userId) || negb (group_exists s groupId)
  then throw (Known P2003)
  else
    let gu := GroupUser.mk userId groupId false in
    ret (gu, set_groupUsers s (groupUsers s ++ [gu])).

(** POST /:id/join *)
Definition joinGroup (s : Store) (groupId userId : Id) : Response * Store :=
  match groupUser_create s userId groupId with
  | inr (newMember, s') => (message OK "You joined group", s')
  | inl (Known P2002) => (message CONFLICT "User already in group", s)
  | inl _ => (message INTERNAL_SERVER_ERROR "Internal server error", s)
  end.

(** DELETE /:id/leave *)
Definition leaveGroup (s : Store) (groupId userId : Id) : Response * Store :=
  match groupUser_delete s userId groupId with
  | inr s' => (message OK "You left the group", s')
  | inl (Known P2025) => (message NOT_FOUND "Not in the group", s)
  | inl _ => (message INTERNAL_SERVER_ERROR "Internal server error", s)
  end.

(** ** Histories *)

(** The requests that can change the store, one constructor per writing
    route of the three routers. *)
Inductive Request : Type :=
| Register (username email password : string)
| RegisterSocial (name email : string)
| CreatePost (b : PostBody)
| UpdatePost (id : Id) (title tinyContent : option string)
| LikePost (postId likerId : Id)
| UnlikePost (postId likerId : Id)
| DeletePost (id : Id)
| CreateGroup (b : GroupBody)
| AddAdmin (groupId memberId creatorId : Id)
| RemoveAdmin (groupId memberId creatorId : Id)
| EditGroup (groupId : Id) (b : EditGroupBody)
| JoinGroup (groupId userId : Id)
| LeaveGroup (groupId userId : Id)
| RemoveMember (groupId memberId adminId : Id)
| DeleteGroup (groupId creatorId : Id).

Definition store_after {J : JsString} (B : Bcrypt) (s : Store) (r : Request) : Store :=
  match r with
  | Register username email password => snd (register B s username email password)
  | RegisterSocial name email => snd (registerSocial s name email)
  | CreatePost b => snd (createPost s b)
  | UpdatePost id title tinyContent => snd (updatePost s id title tinyContent)
  | LikePost postId likerId => snd (likePost s postId likerId)
  | UnlikePost postId likerId => snd (unlikePost s postId likerId)
  | DeletePost id => snd (deletePost s id)
  | CreateGroup b => snd (createGroup s b)
  | AddAdmin groupId memberId creatorId => snd (addAdmin s groupId memberId creatorId)
  | RemoveAdmin groupId memberId creatorId =>
      snd (removeAdmin s groupId memberId creatorId)
  | EditGroup groupId b => snd (editGroup s groupId b)
  | JoinGroup groupId userId => snd (joinGroup s groupId userId)
  | LeaveGroup groupId userId => snd (leaveGroup s groupId userId)
  | RemoveMember groupId memberId adminId =>
      snd (removeMember s groupId memberId adminId)
  | DeleteGroup groupId creatorId => snd (deleteGroup s groupId creatorId)
  end.

(** The stores a history of requests leads to from the empty one. *)
Inductive reachable {J : JsString} (B : Bcrypt) : Store -> Prop :=
| reachable_empty : reachable B empty_store
| reachable_step (s : Store) (r : Request) :
    reachable B s -> reachable B (store_after B s r).

(** ** Invariants of the schema *)

(** [Tag.name] is [@unique]. *)
Definition tag_names_unique (s : Store) : Prop :=
  NoDup (map Tag.name (tags s)).

(** A requested tag name for which the lookup finds no row. *)
Definition no_row (s : Store) (name : string) : bool :=
  match tag_findUnique s name with
  | None => true
  | Some _ => false
  end.

(** The two foreign keys of Like: every row points at a stored post and at
    a stored user. *)
Definition likes_referenced (s : Store) : bool :=
  forallb (fun l => post_exists s (Like.postId l) && user_exists s (Like.userId l))
          (likes s).

(** The tables the two invariants above are read from. *)
Definition same_core (s s' : Store) : Prop :=
  users s' = users s /\ posts s' = posts s /\ likes s' = likes s
  /\ tags s' = tags s.

(** All columns of a post but [title] and [tinyContent]. *)
Definition same_but_title_content (p q : Post.t) : Prop :=
  Post.id p = Post.id q /\
  Post.authorId p = Post.authorId q /\
  Post.createType p = Post.createType q /\
  Post.groupId p = Post.groupId q /\
  Post.coverImage p = Post.coverImage q /\
  Post.audioFile p = Post.audioFile q /\
  Post.audioTitle p = Post.audioTitle q /\
  Post.meetupLocation p = Post.meetupLocation q /\
  Post.meetupDate p = Post.meetupDate q /\
  Post.createdAt p = Post.createdAt q /\
  Post.views p = Post.views q.

(** Every table but [posts], and the two counters. *)
Definition same_but_posts (s s' : Store) : Prop :=
  users s' = users s /\
  profiles s' = profiles s /\
  tags s' = tags s /\
  postTags s' = postTags s /\
  likes s' = likes s /\
  comments s' = comments s /\
  groups s' = groups s /\
  groupUsers s' = groupUsers s /\
  next_uuid s' = next_uuid s /\
  clock s' = clock s.

(** ** Sample data *)

(** The fold the examples are run with; the examples use ASCII strings
    only, on which it is the built-in. *)
#[export] Instance ascii_strings : JsString := {|
  toLowerCase := ascii_toLowerCase
|}.

(** A stand-in for bcrypt on which the handlers can be run: the hash of a
    plain text is the text behind a fixed prefix, and a comparison succeeds
    on exactly that string. *)
Definition prefix_bcrypt : Bcrypt :=
  mkBcrypt (fun p => String.append "$2b$10$" p)
           (fun d h => (h =? String.append "$2b$10$" d)%string).

(** The store after one registration. *)
Definition store_one_user : Store :=
  snd (register prefix_bcrypt empty_store "ann" "A@b.com" "secret").

(** ... and a second one. *)
Definition store_two_users : Store :=
  snd (register prefix_bcrypt store_one_user "bob" "bob@b.com" "hunter2").

(** ... and a group created by the first user, with the second as a member. *)
Definition store_group : Store :=
  snd (createGroup store_two_users
         (mkGroupBody "Rocq" "Proofs" None None 0 [mkMemberInput 1 None])).

(** ... and a post of the first user in that group. *)
Definition store_post : Store :=
  snd (createPost store_group
         (mkPostBody 0 "hello" None (Some 2) None None None None None None
                     ["rust"; "coq"])).

(** ... liked by the second user. *)
Definition store_liked : Store :=
  snd (likePost store_post 5 1).

(** ** The reading routes *)

(** Bodies of the reading routes that are arrays or carry included
    relations. *)
Inductive ReadJson : Type :=
| RMessage (message : string)
| RError (error : string)
| RPosts (posts : list (Post.t * list string))
| RGroups (groups : list Group.t)
| RGroup (group : Group.t) (creator : option User.t) (groupUser : list GroupUser.t).

Record ReadResponse : Type := mkRead {
  read_status : StatusCodes;
  read_body : ReadJson
}.

(** [prisma.post.findMany({ where, include: { interestTechTags: { select:
    { name } } } })], the [where] given as a test on the row. *)
Definition post_findMany (s : Store) (where_ : Post.t -> bool)
  : list (Post.t * list string) :=
  map (fun p => (p, tag_names_of s (Post.id p))) (filter where_ (posts s)).

(** GET / (all posts) *)
Definition listPosts (s : Store) : ReadResponse :=
  mkRead OK (RPosts (post_findMany s (fun _ => true))).

Definition PostType_eqb (a b : PostType) : bool :=
  match a, b with
  | MEETUP, MEETUP | PODCAST, PODCAST | STANDARD, STANDARD => true
  | _, _ => false
  end.

(** The members of the enum as the client reads them from a string. *)
Definition PostType_of_string (t : string) : option PostType :=
  if (t =? "MEETUP")%string then Some MEETUP
  else if (t =? "PODCAST")%string then Some PODCAST
  else if (t =? "STANDARD")%string then Some STANDARD
  else None.

(** [prisma.post.findMany({ where: { createType: type }, ... })] on the
    path parameter, which [as PostType] does not check: the client rejects
    a string that is no member of the enum with a validation error, which
    is not a known request error. *)
Definition post_findMany_type (s : Store) (type : string)
  : Try (list (Post.t * list string)) :=
  match PostType_of_string type with
  | None => throw Other
  | Some t => ret (post_findMany s (fun p => PostType_eqb (Post.createType p) t))
  end.

(** GET /type/:type *)
Definition listPostsByType (s : Store) (type : string) : ReadResponse :=
  match post_findMany_type s type with
  | inr posts => mkRead OK (RPosts posts)
  | inl (Known _) => mkRead INTERNAL_SERVER_ERROR (RMessage "Database error")
  | inl Other => mkRead INTERNAL_SERVER_ERROR (RMessage "Internal server error")
  end.

(** [prisma.post.findUnique({ where: { id } })]. *)
Definition post_findUnique (s : Store) (id : Id) : option Post.t :=
  find (fun p => (Post.id p =? id)%nat) (posts s).

(** GET /:id (one post) *)
Definition getPost (s : Store) (id : Id) : Response :=
  match post_findUnique s id with
  | None => message NOT_FOUND "No post with that ID found"
  | Some post => mkResponse OK (JPostTags post (tag_names_of s (Post.id post)))
  end.

(** GET / (all groups) *)
Definition listGroups (s : Store) : ReadResponse :=
  mkRead OK (RGroups (groups s)).

(** GET /:id (one group), with [include: { creator: true, groupUser: true }];
    the membership rows are listed in table order, the include naming
    none. *)
Definition getGroup (s : Store) (id : Id) : ReadResponse :=
  match group_findUnique s id with
  | Some group =>
      mkRead OK
        (RGroup group
           (find (fun u => (User.id u =? Group.creatorId group)%nat) (users s))
           (filter (fun gu => (GroupUser.groupId gu =? Group.id group)%nat)
                   (groupUsers s)))
  | None => mkRead NOT_FOUND (RMessage "Group not found")
  end.

(** ** Further invariants *)

(** [User.email] is [@unique]. *)
Definition emails_unique (s : Store) : Prop :=
  NoDup (map User.email (users s)).

(** Every stored email is its own lower-case form. *)
Definition emails_folded {J : JsString} (s : Store) : Prop :=
  forall u, In u (users s) -> toLowerCase (User.email u) = User.email u.

(** Every identifier in use was handed out before [next_uuid]. *)
Definition ids_fresh (s : Store) : Prop :=
  (forall u, In u (users s) -> User.id u < next_uuid s)
  /\ (forall p, In p (profiles s) -> Profile.userId p < next_uuid s)
  /\ (forall p, In p (posts s) -> Post.id p < next_uuid s)
  /\ (forall t, In t (tags s) -> Tag.id t < next_uuid s)
  /\ (forall g, In g (groups s) -> Group.id g < next_uuid s).

(** The primary key (userId, groupId) of GroupUser. *)
Definition member_keys_unique (s : Store) : Prop :=
  NoDup (map (fun gu => (GroupUser.userId gu, GroupUser.groupId gu)) (groupUsers s)).

(** The primary key (userId, postId) of Like. *)
Definition like_keys_unique (s : Store) : Prop := NoDup (likes s).

(** The answer to a request of a history; [None] stands for a request
    left unanswered. *)
Definition answer {J : JsString} (B : Bcrypt) (s : Store) (r : Request) : option Response :=
  match r with
  | Register username email password =>
      Some (fst (register B s username email password))
  | RegisterSocial name email => Some (fst (registerSocial s name email))
  | CreatePost b => Some (fst (createPost s b))
  | UpdatePost id title tinyContent => Some (fst (updatePost s id title tinyContent))
  | LikePost postId likerId => Some (fst (likePost s postId likerId))
  | UnlikePost postId likerId => Some (fst (unlikePost s postId likerId))
  | DeletePost id => Some (fst (deletePost s id))
  | CreateGroup b => Some (fst (createGroup s b))
  | AddAdmin groupId memberId creatorId =>
      Some (fst (addAdmin s groupId memberId creatorId))
  | RemoveAdmin groupId memberId creatorId =>
      Some (fst (removeAdmin s groupId memberId creatorId))
  | EditGroup groupId b => fst (editGroup s groupId b)
  | JoinGroup groupId userId => Some (fst (joinGroup s groupId userId))
  | LeaveGroup groupId userId => Some (fst (leaveGroup s groupId userId))
  | RemoveMember groupId memberId adminId =>
      Some (fst (removeMember s groupId memberId adminId))
  | DeleteGroup groupId creatorId => Some (fst (deleteGroup s groupId creatorId))
  end.

(** The statuses of success. *)
Definition succeeded (a : option Response) : bool :=
  match option_map status a with
  | Some OK | Some CREATED => true
  | _ => false
  end.

(** ** Further sample data *)

(** The sample store is the end of a history. *)
Definition sample_history : list Request :=
  [Register "ann" "A@b.com" "secret";
   Register "bob" "bob@b.com" "hunter2";
   CreateGroup (mkGroupBody "Rocq" "Proofs" None None 0 [mkMemberInput 1 None]);
   CreatePost (mkPostBody 0 "hello" None (Some 2) None None None None None None
                          ["rust"; "coq"]);
   LikePost 5 1].

Definition run {J : JsString} (B : Bcrypt) (s : Store) (rs : list Request) : Store :=
  fold_left (store_after B) rs s.

(** * Properties *)

(** ** Generic facts on lists and strings *)

Lemma find_none_existsb {A} (f : A -> bool) (l : list A) :
  find f l = None <-> existsb f l = false.
Proof.
  induction l as [|a l IH]; simpl.
  - split; reflexivity.
  - destruct (f a); simpl.
    + split; discriminate.
    + exact IH.
Qed.

Lemma find_some_existsb {A} (f : A -> bool) (l : list A) (x : A) :
  find f l = Some x -> existsb f l = true.
Proof.
  intros H. destruct (existsb f l) eqn:E; [reflexivity|].
  apply find_none_existsb in E. congruence.
Qed.

Lemma find_app_fresh {A} (f : A -> bool) (l : list A) (x : A) :
  existsb f l = false -> f x = true -> find f (l ++ [x]) = Some x.
Proof.
  induction l as [|a l IH]; simpl; intros Hl Hx.
  - now rewrite Hx.
  - apply orb_false_iff in Hl as [Ha Hl]. rewrite Ha. now apply IH.
Qed.

Lemma existsb_snoc {A} (f : A -> bool) (l : list A) (x : A) :
  existsb f (l ++ [x]) = existsb f l || f x.
Proof. rewrite existsb_app. simpl. now rewrite orb_false_r. Qed.

Lemma or_empty_Some (h : string) : or_empty (Some h) = h.
Proof.
  unfold or_empty. destruct (h =? "")%string eqn:E; [|reflexivity].
  apply String.eqb_eq in E. now subst.
Qed.


(** ** Authentication *)

Lemma user_findUnique_none (s : Store) (email : string) :
  (forall u, In u (users s) -> User.email u <> email) ->
  user_findUnique s email = None.
Proof.
  intros H. unfold user_findUnique.
  destruct (find _ (users s)) as [u|] eqn:E; [|reflexivity].
  apply find_some in E as [Hin He].
  apply String.eqb_eq in He. now apply H in Hin.
Qed.

Lemma user_findUnique_some (s : Store) (email : string) (u : User.t) :
  user_findUnique s email = Some u -> In u (users s) /\ User.email u = email.
Proof.
  unfold user_findUnique. intros E.
  apply find_some in E as [Hin He]. now apply String.eqb_eq in He.
Qed.

(** The later revision of the login route agrees with the earlier one on
    every account that has a stored password; on an account without one
    the earlier revision ends in its catch block. *)
Lemma login_rev1_agrees (B : Bcrypt) (s : Store) (email password : string) :
  (forall u, user_findUnique s email = Some u -> User.password u <> None) ->
  login_rev1 B s email password = login B s email password.
Proof.
  intros H. unfold login_rev1, login.
  destruct (user_findUnique s email) as [u|]; [|reflexivity].
  specialize (H u eq_refl).
  destruct (User.password u) as [h|]; [|congruence].
  now rewrite or_empty_Some.
Qed.

Lemma login_rev1_no_password (B : Bcrypt) (s : Store) (email password : string)
  (u : User.t) :
  user_findUnique s email = Some u -> User.password u = None ->
  login_rev1 B s email password
  = message INTERNAL_SERVER_ERROR "Internal server error".
Proof. intros E Hp. unfold login_rev1. now rewrite E, Hp. Qed.

(** C3.  Login: when no user row carries the submitted email the answer
    is BadRequest "No user found".  When a row is found, a missing stored
    hash counts as a mismatch, a mismatch is answered BadRequest
    "Incorrect email or password", a match is answered OK with the stored
    row, and the handler never ends in its catch block.  The one fact of
    bcrypt used: a string that is not a hash (the empty one) matches no
    password. *)
Theorem login_outcomes (B : Bcrypt) (s : Store) (email password : string) :
  (forall p, compare B p "" = false) ->
  ((forall u, In u (users s) -> User.email u <> email) ->
   login B s email password = message BAD_REQUEST "No user found")
  /\
  (forall u, user_findUnique s email = Some u ->
     (User.password u = None ->
      login B s email password
      = message BAD_REQUEST "Incorrect email or password")
     /\
     (forall h, User.password u = Some h -> compare B password h = false ->
      login B s email password
      = message BAD_REQUEST "Incorrect email or password")
     /\
     (forall h, User.password u = Some h -> compare B password h = true ->
      login B s email password = mkResponse OK (JUser u)))
  /\
  status (login B s email password) <> INTERNAL_SERVER_ERROR.
Proof.
  intros Hbad. split; [|split].
  - intros Hnone. unfold login. now rewrite (user_findUnique_none s email Hnone).
  - intros u Hu. unfold login. rewrite Hu. cbn [bcrypt_compare ret].
    split; [|split].
    + intros ->. cbn [or_empty]. now rewrite Hbad.
    + intros h -> Hc. now rewrite or_empty_Some, Hc.
    + intros h -> Hc. now rewrite or_empty_Some, Hc.
  - unfold login. destruct (user_findUnique s email) as [u|]; [|discriminate].
    cbn [bcrypt_compare ret].
    destruct (compare B password _); discriminate.
Qed.

Lemma login_outcomes_witness :
  (forall p, compare prefix_bcrypt p "" = false)
  /\ login prefix_bcrypt store_two_users "nobody@b.com" "secret"
     = message BAD_REQUEST "No user found"
  /\ login prefix_bcrypt store_two_users "a@b.com" "wrong"
     = message BAD_REQUEST "Incorrect email or password"
  /\ status (login prefix_bcrypt store_two_users "a@b.com" "secret") = OK
  /\ status (login prefix_bcrypt store_two_users "a@b.com" "secret")
     <> INTERNAL_SERVER_ERROR.
Proof.
  assert (Hbad : forall p, compare prefix_bcrypt p "" = false)
    by (intros p; reflexivity).
  split; [exact Hbad|].
  split.
  { apply (login_outcomes prefix_bcrypt store_two_users "nobody@b.com" "secret" Hbad).
    intros u Hin. vm_compute in Hin.
    destruct Hin as [<- | [<- | []]]; discriminate. }
  split; [reflexivity|].
  split; [reflexivity|].
  apply (login_outcomes prefix_bcrypt store_two_users "a@b.com" "secret" Hbad).
Defined.

Lemma register_outcome {J : JsString} (B : Bcrypt) (s : Store) (username email password : string) :
  let u := User.mk (next_uuid s) (clock s) (toLowerCase email)
                   (Some (hashSync B password)) username None in
  (existsb (fun v => (User.email v =? toLowerCase email)%string) (users s) = true
   /\ register B s username email password
      = (message CONFLICT "Error user already exists", s))
  \/
  (existsb (fun v => (User.email v =? toLowerCase email)%string) (users s) = false
   /\ register B s username email password
      = (message CREATED "User created successfully",
         set_users s (users s ++ [u]) (profiles s ++ [new_profile (next_uuid s)])
                   (S (next_uuid s)))).
Proof.
  unfold register, user_create.
  destruct (existsb _ (users s)); [left | right]; split; reflexivity.
Qed.

(** The registered row is the one a lookup by the folded email returns. *)
Lemma register_created_lookup {J : JsString} (B : Bcrypt) (s s' : Store)
  (username email password : string) (r : Response) :
  register B s username email password = (r, s') ->
  status r = CREATED ->
  exists u,
    user_findUnique s' (toLowerCase email) = Some u
    /\ User.email u = toLowerCase email
    /\ User.password u = Some (hashSync B password)
    /\ User.username u = username.
Proof.
  intros Hreg Hst.
  destruct (register_outcome B s username email password) as [[_ E] | [Hfree E]];
    rewrite E in Hreg; injection Hreg as <- <-; [discriminate Hst|].
  eexists. split.
  - unfold user_findUnique. cbn [users set_users].
    apply find_app_fresh; [exact Hfree|].
    cbn [User.email]. apply String.eqb_refl.
  - repeat split.
Qed.

(** C7.  Registration stores the lower-cased email: after a registration
    answered Created, the stored row carries [toLowerCase email], and a
    login with the lower-cased email and the same password is answered OK
    with that row.  After any registration, registering again an email
    that folds to the same string is answered Conflict and changes
    nothing.  The one fact of bcrypt used: a password matches its own
    hash. *)
Theorem register_login_case_fold {J : JsString} (B : Bcrypt) (s : Store)
  (username email password : string) :
  (forall p, compare B p (hashSync B p) = true) ->
  (forall r s',
     register B s username email password = (r, s') ->
     status r = CREATED ->
     exists u,
       In u (users s')
       /\ User.email u = toLowerCase email
       /\ login B s' (toLowerCase email) password = mkResponse OK (JUser u))
  /\
  (forall username' email' password',
     toLowerCase email' = toLowerCase email ->
     let s' := snd (register B s username email password) in
     register B s' username' email' password'
     = (message CONFLICT "Error user already exists", s')).
Proof.
  intros Hmatch. split.
  - intros r s' Hreg Hst.
    destruct (register_created_lookup B s s' username email password r Hreg Hst)
      as (u & Hfind & Hmail & Hpw & _).
    exists u. split; [|split].
    + now apply user_findUnique_some in Hfind.
    + exact Hmail.
    + unfold login. rewrite Hfind, Hpw. cbn [bcrypt_compare ret].
      now rewrite or_empty_Some, Hmatch.
  - intros username' email' password' Hfold s'.
    assert (Htaken : existsb (fun v => (User.email v =? toLowerCase email)%string)
                             (users s') = true).
    { subst s'.
      destruct (register_outcome B s username email password) as [[Hex E] | [_ E]];
        rewrite E; cbn [snd]; [exact Hex|].
      cbn [users set_users]. rewrite existsb_snoc. cbn [User.email].
      rewrite String.eqb_refl. apply orb_true_r. }
    unfold register, user_create. rewrite Hfold, Htaken. reflexivity.
Qed.

Lemma register_login_case_fold_witness :
  (forall p, compare prefix_bcrypt p (hashSync prefix_bcrypt p) = true)
  /\ (exists u,
        In u (users store_one_user)
        /\ User.email u = "a@b.com"
        /\ login prefix_bcrypt store_one_user "a@b.com" "secret"
           = mkResponse OK (JUser u))
  /\ register prefix_bcrypt store_one_user "ann2" "a@B.COM" "other"
     = (message CONFLICT "Error user already exists", store_one_user).
Proof.
  assert (Hmatch : forall p, compare prefix_bcrypt p (hashSync prefix_bcrypt p) = true)
    by (intros p; cbn; apply String.eqb_refl).
  split; [exact Hmatch|].
  pose proof (register_login_case_fold prefix_bcrypt empty_store
                "ann" "A@b.com" "secret" Hmatch) as [Hlogin Hagain].
  split.
  - apply (Hlogin (message CREATED "User created successfully") store_one_user);
      reflexivity.
  - apply (Hagain "ann2" "a@B.COM" "other"). reflexivity.
Defined.

(** The session lookup answers OK whatever happens, and carries the
    message only when the query itself failed. *)
Lemma getUserByEmail_always_OK (c : Connection) (s : Store) (email : string) :
  status (getUserByEmail c s email) = OK.
Proof. destruct c; reflexivity. Qed.

Lemma getUserByEmail_lost (s : Store) (email : string) :
  getUserByEmail Lost s email = message OK "User not found".
Proof. reflexivity. Qed.

Lemma getUserByEmail_no_match (s : Store) (email : string) :
  user_findUnique s email = None ->
  getUserByEmail Connected s email = mkResponse OK JNull.
Proof.
  intros H. unfold getUserByEmail, user_findUnique_profile. now rewrite H.
Qed.

(** C9, at an email no row carries: the query resolves to [null], the
    catch block is not entered, and the answer is OK with the body [null],
    not with the message "User not found". *)
Theorem getUserByEmail_unknown_email_null :
  getUserByEmail Connected store_two_users "nobody@b.com" = mkResponse OK JNull
  /\ body (getUserByEmail Connected store_two_users "nobody@b.com")
     <> JMessage "User not found".
Proof. split; [reflexivity | discriminate]. Qed.

(** ** Posts: tags *)

Lemma name_absent_not_in (ts : list Tag.t) (name : string) :
  existsb (fun t => (Tag.name t =? name)%string) ts = false ->
  ~ In name (map Tag.name ts).
Proof.
  induction ts as [|t ts IH]; simpl; intros H.
  - tauto.
  - apply orb_false_iff in H as [Ht Hts].
    apply String.eqb_neq in Ht. intros [E | Hin]; [congruence | now apply IH].
Qed.

Lemma NoDup_snoc {A} (l : list A) (x : A) :
  NoDup l -> ~ In x l -> NoDup (l ++ [x]).
Proof.
  intros Hl Hx. induction Hl as [|a l Ha Hl IH]; simpl.
  - constructor; [tauto | constructor].
  - constructor.
    + rewrite in_app_iff. simpl. intros [H | [H | []]]; [tauto|].
      subst. apply Hx. now left.
    + apply IH. intros H. apply Hx. now right.
Qed.

Lemma tag_create_unique (s s' : Store) (name : string) (t : Tag.t) :
  tag_names_unique s -> tag_create s name = inr (t, s') -> tag_names_unique s'.
Proof.
  unfold tag_create, tag_names_unique. intros Hu.
  destruct (existsb _ (tags s)) eqn:E; [discriminate|].
  intros H. injection H as <- <-. cbn [tags set_tags].
  rewrite map_app. apply NoDup_snoc; [exact Hu|].
  now apply name_absent_not_in.
Qed.

Lemma resume_callbacks_unique (pending : list (string * option Tag.t)) (s : Store) :
  tag_names_unique s -> tag_names_unique (fst (resume_callbacks s pending)).
Proof.
  revert s. induction pending as [|[tag [existing|]] rest IH]; intros s Hu.
  - exact Hu.
  - specialize (IH s Hu). cbn [resume_callbacks].
    now destruct (resume_callbacks s rest).
  - cbn [resume_callbacks].
    destruct (tag_create s tag) as [e | [t s1]] eqn:E.
    + specialize (IH s Hu). now destruct (resume_callbacks s rest).
    + specialize (IH s1 (tag_create_unique s s1 tag t Hu E)).
      now destruct (resume_callbacks s1 rest).
Qed.

Lemma post_create_tags (s s' : Store) (b : PostBody) (tagIds : list Id) (p : Post.t) :
  post_create s b tagIds = inr (p, s') -> tags s' = tags s.
Proof.
  unfold post_create.
  destruct (negb (user_exists s (pb_authorId b))); [discriminate|].
  destruct (match pb_groupId b with Some g => _ | None => _ end); [discriminate|].
  destruct (negb (forallb _ tagIds)); [discriminate|].
  intros H. now injection H as <- <-.
Qed.

(** The uniqueness of tag names is kept by every post creation, whatever
    the request and whatever its outcome. *)
Lemma createPost_tag_names_unique (s : Store) (b : PostBody) :
  tag_names_unique s -> tag_names_unique (snd (createPost s b)).
Proof.
  intros Hu. unfold createPost.
  pose proof (resume_callbacks_unique (issue_lookups s (pb_interestTechTags b)) s Hu)
    as H1.
  destruct (resume_callbacks s _) as [s1 settled]. cbn [fst] in H1.
  destruct (promise_all settled) as [e | tagIds]; [exact H1|].
  destruct (post_create s1 b tagIds) as [e | [p s2]] eqn:E; [exact H1|].
  cbn [snd]. unfold tag_names_unique.
  now rewrite (post_create_tags s1 s2 b tagIds p E).
Qed.

(** When every requested name already has a row, no tag is created and
    the ids handed to the post are those of the rows found. *)
Lemma resume_callbacks_all_found (s0 s : Store) (names : list string) :
  (forall n, In n names -> tag_findUnique s0 n <> None) ->
  resume_callbacks s (issue_lookups s0 names)
  = (s, map (fun n => match tag_findUnique s0 n with
                      | Some t => ret (Tag.id t)
                      | None => throw Other
                      end) names).
Proof.
  induction names as [|n names IH]; intros H; [reflexivity|].
  cbn [issue_lookups map resume_callbacks].
  assert (Hn := H n (or_introl eq_refl)).
  destruct (tag_findUnique s0 n) as [t|]; [|congruence].
  unfold issue_lookups in IH. rewrite IH; [reflexivity|].
  intros m Hm. apply H. now right.
Qed.

(** The callbacks write to the tag table and draw identifiers; the tables
    the post creation checks afterwards are as the request found them. *)
Lemma resume_callbacks_frame (pending : list (string * option Tag.t)) (s : Store) :
  let s' := fst (resume_callbacks s pending) in
  users s' = users s /\ posts s' = posts s /\ postTags s' = postTags s
  /\ groups s' = groups s.
Proof.
  revert s. induction pending as [|[tag [existing|]] rest IH]; intros s;
    cbn [resume_callbacks].
  - repeat split.
  - specialize (IH s). now destruct (resume_callbacks s rest).
  - unfold tag_create.
    destruct (existsb _ (tags s)); cbn [throw ret].
    + specialize (IH s). now destruct (resume_callbacks s rest).
    + specialize (IH (set_tags s (tags s ++ [Tag.mk (next_uuid s) tag])
                               (S (next_uuid s)))).
      now destruct (resume_callbacks _ rest).
Qed.

Lemma promise_all_ret {A} (vs : list A) :
  promise_all (map (@ret A) vs) = inr vs.
Proof.
  induction vs as [|v vs IH]; [reflexivity|].
  change (map (@ret A) (v :: vs)) with (inr v :: map (@ret A) vs).
  cbn [promise_all]. now rewrite IH.
Qed.

Lemma promise_all_rejected_tail {A} (x : Try A) (rest : list (Try A)) :
  (exists e, promise_all rest = inl e) ->
  exists e, promise_all (x :: rest) = inl e.
Proof.
  intros [e He]. destruct x as [e' | a]; cbn [promise_all].
  - now exists e'.
  - rewrite He. now exists e.
Qed.

(** Once a name has a row, a callback that found none for it is rejected. *)
Lemma taken_name_rejected (pending : list (string * option Tag.t)) (s : Store)
  (n : string) :
  existsb (fun t => (Tag.name t =? n)%string) (tags s) = true ->
  In (n, None) pending ->
  exists e, promise_all (snd (resume_callbacks s pending)) = inl e.
Proof.
  revert s. induction pending as [|[tag [existing|]] rest IH]; intros s Hn Hin.
  - destruct Hin.
  - destruct Hin as [E | Hin]; [discriminate|].
    cbn [resume_callbacks]. specialize (IH s Hn Hin).
    destruct (resume_callbacks s rest) as [s' settled]. cbn [snd] in *.
    now apply promise_all_rejected_tail.
  - cbn [resume_callbacks]. unfold tag_create.
    destruct (existsb (fun t => (Tag.name t =? tag)%string) (tags s)) eqn:Etag;
      cbn [throw ret].
    + destruct (resume_callbacks s rest) as [s' settled]. cbn. now exists (Known P2002).
    + destruct Hin as [E | Hin]; [injection E as ->; congruence|].
      assert (Hn' : existsb (fun t => (Tag.name t =? n)%string)
                            (tags (set_tags s (tags s ++ [Tag.mk (next_uuid s) tag])
                                            (S (next_uuid s)))) = true).
      { cbn [tags set_tags]. rewrite existsb_snoc, Hn. reflexivity. }
      specialize (IH _ Hn' Hin).
      destruct (resume_callbacks _ rest) as [s' settled]. cbn [snd] in *.
      now apply promise_all_rejected_tail.
Qed.

Lemma new_name_twice_rejected (before after : list (string * option Tag.t))
  (s : Store) (n : string) :
  In (n, None) after ->
  exists e,
    promise_all (snd (resume_callbacks s (before ++ (n, None) :: after))) = inl e.
Proof.
  intros Hin. revert s.
  induction before as [|[tag [existing|]] before IH]; intros s;
    cbn [app resume_callbacks].
  - unfold tag_create.
    destruct (existsb (fun t => (Tag.name t =? n)%string) (tags s)) eqn:En;
      cbn [throw ret].
    + destruct (resume_callbacks s after). cbn. now exists (Known P2002).
    + assert (Hn : existsb (fun t => (Tag.name t =? n)%string)
                           (tags (set_tags s (tags s ++ [Tag.mk (next_uuid s) n])
                                           (S (next_uuid s)))) = true).
      { cbn [tags set_tags]. rewrite existsb_snoc. cbn [Tag.name].
        rewrite String.eqb_refl. apply orb_true_r. }
      pose proof (taken_name_rejected after _ n Hn Hin) as H.
      destruct (resume_callbacks _ after) as [s' settled]. cbn [snd] in *.
      now apply promise_all_rejected_tail.
  - specialize (IH s).
    destruct (resume_callbacks s _) as [s' settled]. cbn [snd] in *.
    now apply promise_all_rejected_tail.
  - destruct (tag_create s tag) as [e | [t s1]].
    + destruct (resume_callbacks s _) as [s' settled]. cbn. now exists e.
    + specialize (IH s1).
      destruct (resume_callbacks s1 _) as [s' settled]. cbn [snd] in *.
      now apply promise_all_rejected_tail.
Qed.

(** Whenever a name that has no row is listed twice, the creation is
    answered InternalServerError and no post is stored. *)
Lemma createPost_new_name_twice (s : Store) (b : PostBody) (n : string)
  (before after : list string) :
  pb_interestTechTags b = before ++ n :: after ->
  In n after ->
  tag_findUnique s n = None ->
  fst (createPost s b) = message INTERNAL_SERVER_ERROR "Internal server error"
  /\ posts (snd (createPost s b)) = posts s.
Proof.
  intros Hnames Hin Hnone. unfold createPost. rewrite Hnames.
  unfold issue_lookups. rewrite map_app. cbn [map]. rewrite Hnone.
  assert (Hin' : In (n, @None Tag.t)
                    (map (fun tag => (tag, tag_findUnique s tag)) after)).
  { apply in_map_iff. exists n. now rewrite Hnone. }
  pose proof (new_name_twice_rejected
                (map (fun tag => (tag, tag_findUnique s tag)) before) _ s n Hin')
    as [e He].
  pose proof (resume_callbacks_frame
                (map (fun tag => (tag, tag_findUnique s tag)) before
                 ++ (n, None) :: map (fun tag => (tag, tag_findUnique s tag)) after) s)
    as (_ & Hposts & _).
  destruct (resume_callbacks s _) as [s1 settled]. cbn [fst snd] in *.
  rewrite He. split; [reflexivity | exact Hposts].
Qed.

Lemma tag_findUnique_some (s : Store) (n : string) (t : Tag.t) :
  tag_findUnique s n = Some t -> In t (tags s) /\ Tag.mk (Tag.id t) n = t.
Proof.
  unfold tag_findUnique. intros H. apply find_some in H as [Hin Hn].
  apply String.eqb_eq in Hn. split; [exact Hin|].
  destruct t as [i m]. cbn in *. now subst.
Qed.

(** When the names that have no row are pairwise distinct, every callback
    is fulfilled, and with the id of a row that carries its name. *)
Lemma resume_callbacks_resolves (s0 : Store) (names : list string) (s : Store) :
  (forall n t, In n names -> tag_findUnique s0 n = Some t -> In t (tags s)) ->
  (forall n, In n names -> tag_findUnique s0 n = None ->
             existsb (fun t => (Tag.name t =? n)%string) (tags s) = false) ->
  NoDup (filter (no_row s0) names) ->
  exists ids,
    snd (resume_callbacks s (issue_lookups s0 names)) = map (@ret Id) ids
    /\ Forall2 (fun n id =>
                  In (Tag.mk id n)
                     (tags (fst (resume_callbacks s (issue_lookups s0 names)))))
               names ids
    /\ (forall t, In t (tags s) ->
                  In t (tags (fst (resume_callbacks s (issue_lookups s0 names))))).
Proof.
  unfold issue_lookups. revert s.
  induction names as [|n names IH]; intros s Hfound Hfree Hnd.
  - exists []. repeat split; [constructor | tauto].
  - cbn [map resume_callbacks]. cbn [filter] in Hnd. unfold no_row at 1 in Hnd.
    destruct (tag_findUnique s0 n) as [t|] eqn:E.
    + destruct (IH s) as (ids & Hs & Hf & Hg).
      { intros m u Hm. apply Hfound. now right. }
      { intros m Hm. apply Hfree. now right. }
      { exact Hnd. }
      destruct (resume_callbacks s _) as [s' settled]. cbn [fst snd] in *.
      exists (Tag.id t :: ids). split; [now rewrite Hs|]. split; [|exact Hg].
      constructor; [|exact Hf].
      apply Hg. pose proof (Hfound n t (or_introl eq_refl) E) as Hin.
      destruct (tag_findUnique_some s0 n t E) as [_ Ht]. now rewrite Ht.
    + unfold tag_create. rewrite (Hfree n (or_introl eq_refl) E). cbn [ret].
      inversion Hnd as [|? ? Hfresh Hnd']; subst.
      destruct (IH (set_tags s (tags s ++ [Tag.mk (next_uuid s) n]) (S (next_uuid s))))
        as (ids & Hs & Hf & Hg).
      { intros m u Hm Hu. cbn [tags set_tags]. apply in_or_app. left.
        apply (Hfound m u); [now right | exact Hu]. }
      { intros m Hm Hu. cbn [tags set_tags]. rewrite existsb_snoc.
        rewrite (Hfree m (or_intror Hm) Hu). cbn [Tag.name orb].
        apply String.eqb_neq. intros ->. apply Hfresh.
        apply filter_In. split; [exact Hm|]. unfold no_row. now rewrite Hu. }
      { exact Hnd'. }
      destruct (resume_callbacks _ _) as [s' settled]. cbn [fst snd Tag.id] in *.
      exists (next_uuid s :: ids). split; [now rewrite Hs|]. split.
      * constructor; [|exact Hf].
        apply Hg. cbn [tags set_tags]. apply in_or_app. right. now left.
      * intros u Hu. apply Hg. cbn [tags set_tags]. apply in_or_app. now left.
Qed.

Lemma connect_tags_keeps (tagIds : list Id) (rel : list (Id * Id)) (postId : Id)
  (r : Id * Id) :
  In r rel -> In r (connect_tags rel postId tagIds).
Proof.
  revert rel. induction tagIds as [|t tagIds IH]; intros rel Hin; [exact Hin|].
  cbn [connect_tags]. apply IH.
  match goal with |- context [existsb ?f rel] => destruct (existsb f rel) end;
    [exact Hin | apply in_or_app; now left].
Qed.

Lemma connect_tags_links (tagIds : list Id) (rel : list (Id * Id)) (postId id : Id) :
  In id tagIds -> In (postId, id) (connect_tags rel postId tagIds).
Proof.
  revert rel. induction tagIds as [|t tagIds IH]; intros rel Hin; [destruct Hin|].
  cbn [connect_tags]. destruct Hin as [-> | Hin]; [|now apply IH].
  apply connect_tags_keeps.
  match goal with |- context [existsb ?f rel] => destruct (existsb f rel) eqn:E end.
  - apply existsb_exists in E as ([a c] & Hr & Hk). cbn [fst snd] in Hk.
    apply andb_true_iff in Hk as [Ha Hc].
    apply Nat.eqb_eq in Ha, Hc. now subst.
  - apply in_or_app. right. now left.
Qed.

(** X27.  Resolve-or-create as meant, for requests in which the names that
    have no row are pairwise distinct, by a stored author and
    into a stored group if any: answered OK, each name resolved to a row
    that carries it, rows that existed kept, and the post linked to every
    resolved id. *)
Lemma createPost_distinct_new_names (s : Store) (b : PostBody) :
  NoDup (filter (no_row s) (pb_interestTechTags b)) ->
  user_exists s (pb_authorId b) = true ->
  match pb_groupId b with
  | Some g => group_exists s g = true
  | None => True
  end ->
  exists p s' ids,
    createPost s b = (mkResponse OK (JPostTags p (tag_names_of s' (Post.id p))), s')
    /\ In p (posts s')
    /\ Forall2 (fun n id => In (Tag.mk id n) (tags s')) (pb_interestTechTags b) ids
    /\ (forall id, In id ids -> In (Post.id p, id) (postTags s'))
    /\ (forall t, In t (tags s) -> In t (tags s')).
Proof.
  intros Hnd Hauthor Hgroup. unfold createPost.
  destruct (resume_callbacks_resolves s (pb_interestTechTags b) s)
    as (ids & Hs & Hf & Hg).
  { intros n t _ Hn. now apply tag_findUnique_some in Hn. }
  { intros n _ Hn. now apply find_none_existsb. }
  { exact Hnd. }
  pose proof (resume_callbacks_frame (issue_lookups s (pb_interestTechTags b)) s)
    as (Husers & _ & _ & Hgroups).
  destruct (resume_callbacks s _) as [s1 settled]. cbn [fst snd] in *.
  rewrite Hs, promise_all_ret. unfold post_create.
  replace (user_exists s1 (pb_authorId b)) with true
    by (unfold user_exists in *; now rewrite Husers).
  replace (match pb_groupId b with
           | Some g => negb (group_exists s1 g)
           | None => false
           end) with false.
  2:{ destruct (pb_groupId b) as [g|]; [|reflexivity].
      unfold group_exists in *. now rewrite Hgroups, Hgroup. }
  replace (forallb (tag_exists s1) ids) with true.
  2:{ symmetry. apply forallb_forall. intros id Hid.
      clear - Hf Hid. induction Hf as [|n i ns rest Hrow _ IH]; [destruct Hid|].
      destruct Hid as [-> | Hid]; [|now apply IH].
      unfold tag_exists. apply existsb_exists. eexists. split; [exact Hrow|].
      apply Nat.eqb_refl. }
  cbn [negb ret]. do 2 eexists. exists ids.
  split; [reflexivity|]. cbn [posts tags postTags Post.id].
  split; [apply in_or_app; right; now left|].
  split; [exact Hf|]. split; [|exact Hg].
  intros id Hid. now apply connect_tags_links.
Qed.

(** A name asked for twice whose row exists is resolved twice to that row,
    and the post is linked to it once. *)
Example createPost_existing_duplicate :
  let r := createPost store_post
             (mkPostBody 1 "again" None None None None None None None None
                         ["rust"; "rust"]) in
  status (fst r) = OK
  /\ tags (snd r) = tags store_post
  /\ postTags (snd r) = postTags store_post ++ [(6, 3)].
Proof. vm_compute. repeat split. Qed.

(** C2, at the tags ["rust"; "rust"] when no tag is named "rust": both
    lookups are answered before either callback goes on, both find no
    row, and both callbacks create.  The second create breaks the
    uniqueness of [Tag.name]; the handler answers InternalServerError and
    stores no post.  One "rust" row is left behind. *)
Theorem createPost_new_duplicate_tag :
  let b := mkPostBody 0 "hello" None None None None None None None None
                      ["rust"; "rust"] in
  tag_findUnique store_two_users "rust" = None
  /\ user_exists store_two_users (pb_authorId b) = true
  /\ fst (createPost store_two_users b)
     = message INTERNAL_SERVER_ERROR "Internal server error"
  /\ posts (snd (createPost store_two_users b)) = []
  /\ postTags (snd (createPost store_two_users b)) = []
  /\ tags (snd (createPost store_two_users b)) = [Tag.mk 2 "rust"].
Proof. vm_compute. repeat split. Qed.

(** ** Posts: update *)

(** C8.  Editing a stored post is answered OK with the edited row, which
    differs from the stored one in [title] and [tinyContent] at most (a
    field absent from the body keeps its value); the row replaces the
    stored one in place and nothing else in the store changes, the tag
    links included.  Editing an id no post has is answered NotFound and
    changes nothing. *)
Theorem updatePost_frame (s : Store) (id : Id) (title tinyContent : option string) :
  (forall p,
     find (fun q => (Post.id q =? id)%nat) (posts s) = Some p ->
     exists p' s',
       updatePost s id title tinyContent = (mkResponse OK (JPost p'), s')
       /\ same_but_title_content p' p
       /\ Post.title p' = assign title (Post.title p)
       /\ Post.tinyContent p'
          = match tinyContent with
            | Some c => Some c
            | None => Post.tinyContent p
            end
       /\ posts s' = map (fun q => if (Post.id q =? id)%nat then p' else q) (posts s)
       /\ same_but_posts s s')
  /\
  (post_exists s id = false ->
   updatePost s id title tinyContent
   = (message NOT_FOUND "Post to update does not exist", s)).
Proof.
  split.
  - intros p Hp. unfold updatePost, post_update. rewrite Hp. cbn [ret].
    do 2 eexists. split; [reflexivity|].
    split; [repeat split|]. split; [reflexivity|].
    split; [now destruct tinyContent|].
    split; [reflexivity | repeat split].
  - intros Hno. unfold updatePost, post_update.
    apply find_none_existsb in Hno. unfold Id in *. now rewrite Hno.
Qed.

Lemma updatePost_frame_witness :
  (post_exists store_liked 9 = false
   /\ updatePost store_liked 9 (Some "t") None
      = (message NOT_FOUND "Post to update does not exist", store_liked))
  /\
  (exists p p' s',
     find (fun q => (Post.id q =? 5)%nat) (posts store_liked) = Some p
     /\ updatePost store_liked 5 (Some "t") None = (mkResponse OK (JPost p'), s')
     /\ same_but_title_content p' p
     /\ Post.title p' = "t"
     /\ Post.tinyContent p' = Post.tinyContent p
     /\ same_but_posts store_liked s').
Proof.
  pose proof (updatePost_frame store_liked 9 (Some "t") None) as [_ Hmissing].
  pose proof (updatePost_frame store_liked 5 (Some "t") None) as [Hstored _].
  split.
  - split; [reflexivity | apply Hmissing; reflexivity].
  - destruct (find (fun q => (Post.id q =? 5)%nat) (posts store_liked))
      as [p|] eqn:Hp; [|discriminate Hp].
    destruct (Hstored p eq_refl) as (p' & s' & Hup & Hsame & Ht & Hc & _ & Hrest).
    exists p, p', s'. repeat split; try assumption; apply Hsame || apply Hrest.
Defined.

(** Rows with another id are left as they are. *)
Lemma updatePost_other_rows (s : Store) (id : Id) (title tinyContent : option string)
  (q : Post.t) :
  In q (posts s) -> Post.id q <> id ->
  In q (posts (snd (updatePost s id title tinyContent))).
Proof.
  intros Hin Hne. unfold updatePost, post_update.
  destruct (find _ (posts s)) as [p|]; [|exact Hin].
  cbn [snd posts set_posts ret]. apply in_map_iff. exists q. split; [|exact Hin].
  apply Nat.eqb_neq in Hne. now rewrite Hne.
Qed.

(** ** Posts: likes *)

Lemma likePost_keeps_references (s : Store) (postId likerId : Id) :
  likes_referenced s = true ->
  likes_referenced (snd (likePost s postId likerId)) = true.
Proof.
  intros Hwf. unfold likePost, post_update_likes_create.
  destruct (post_exists s postId) eqn:Hp; cbn [negb]; [|exact Hwf].
  destruct (existsb (same_like likerId postId) (likes s)); [exact Hwf|].
  destruct (user_exists s likerId) eqn:Hu; cbn [negb]; [|exact Hwf].
  cbn [snd ret]. unfold likes_referenced in *. cbn [likes set_likes].
  rewrite forallb_app. apply andb_true_iff. split; [exact Hwf|].
  cbn [forallb Like.postId Like.userId].
  change (post_exists (set_likes s _) postId) with (post_exists s postId).
  change (user_exists (set_likes s _) likerId) with (user_exists s likerId).
  now rewrite Hp, Hu.
Qed.

Lemma unlikePost_keeps_references (s : Store) (postId likerId : Id) :
  likes_referenced s = true ->
  likes_referenced (snd (unlikePost s postId likerId)) = true.
Proof.
  intros Hwf. unfold unlikePost, like_delete.
  destruct (existsb (same_like likerId postId) (likes s)); [|exact Hwf].
  cbn [snd ret]. unfold likes_referenced in *. cbn [likes set_likes].
  rewrite forallb_forall in *. intros l Hl.
  apply filter_In in Hl as [Hl _]. exact (Hwf l Hl).
Qed.

Lemma like_row_references (s : Store) (postId likerId : Id) :
  likes_referenced s = true ->
  existsb (same_like likerId postId) (likes s) = true ->
  post_exists s postId = true /\ user_exists s likerId = true.
Proof.
  unfold likes_referenced. intros Hwf Hex.
  apply existsb_exists in Hex as (l & Hl & Hsame).
  rewrite forallb_forall in Hwf. specialize (Hwf l Hl).
  unfold same_like in Hsame.
  apply andb_true_iff in Hsame as [Hu Hp].
  apply Nat.eqb_eq in Hu, Hp. subst.
  now apply andb_true_iff in Hwf.
Qed.

(** C6.  On a store whose Like rows satisfy their two foreign keys:
    liking a pair that already has a row is answered Conflict; liking a
    post that does not exist, or as a user that does not exist, is
    answered NotFound; unliking a pair that has no row is answered
    NotFound.  None of these calls changes the store. *)
Theorem like_unlike_outcomes (s : Store) (postId likerId : Id) :
  likes_referenced s = true ->
  (existsb (same_like likerId postId) (likes s) = true ->
   likePost s postId likerId = (message CONFLICT "You can't like a post twice", s))
  /\
  (post_exists s postId = false ->
   likePost s postId likerId = (message NOT_FOUND "Post with this ID not found", s))
  /\
  (user_exists s likerId = false ->
   status (fst (likePost s postId likerId)) = NOT_FOUND
   /\ snd (likePost s postId likerId) = s)
  /\
  (existsb (same_like likerId postId) (likes s) = false ->
   unlikePost s postId likerId
   = (message NOT_FOUND "Record to delete does not exist", s)).
Proof.
  intros Hwf. split; [|split; [|split]].
  - intros Hex.
    destruct (like_row_references s postId likerId Hwf Hex) as [Hp _].
    unfold likePost, post_update_likes_create. now rewrite Hp, Hex.
  - intros Hp. unfold likePost, post_update_likes_create. now rewrite Hp.
  - intros Hu. unfold likePost, post_update_likes_create.
    destruct (post_exists s postId) eqn:Hp; cbn [negb]; [|split; reflexivity].
    destruct (existsb (same_like likerId postId) (likes s)) eqn:Hex.
    + destruct (like_row_references s postId likerId Hwf Hex) as [_ Hu'].
      congruence.
    + rewrite Hu. split; reflexivity.
  - intros Hex. unfold unlikePost, like_delete. now rewrite Hex.
Qed.

Lemma like_unlike_outcomes_witness :
  likes_referenced store_liked = true
  /\ likePost store_liked 5 1
     = (message CONFLICT "You can't like a post twice", store_liked)
  /\ likePost store_liked 9 1
     = (message NOT_FOUND "Post with this ID not found", store_liked)
  /\ status (fst (likePost store_liked 5 7)) = NOT_FOUND
  /\ unlikePost store_liked 5 0
     = (message NOT_FOUND "Record to delete does not exist", store_liked).
Proof.
  assert (Hwf : likes_referenced store_liked = true) by reflexivity.
  split; [exact Hwf|].
  split; [apply (like_unlike_outcomes store_liked 5 1 Hwf); reflexivity|].
  split; [apply (like_unlike_outcomes store_liked 9 1 Hwf); reflexivity|].
  split; [apply (like_unlike_outcomes store_liked 5 7 Hwf); reflexivity|].
  apply (like_unlike_outcomes store_liked 5 0 Hwf); reflexivity.
Defined.

(** A first like is answered OK and the second Conflict. *)
Lemma likePost_twice (s : Store) (postId likerId : Id) :
  post_exists s postId = true ->
  user_exists s likerId = true ->
  existsb (same_like likerId postId) (likes s) = false ->
  status (fst (likePost s postId likerId)) = OK
  /\ status (fst (likePost (snd (likePost s postId likerId)) postId likerId))
     = CONFLICT.
Proof.
  intros Hp Hu Hex. unfold likePost at 1 3, post_update_likes_create.
  rewrite Hp, Hu, Hex. cbn [negb ret fst snd]. split; [reflexivity|].
  unfold likePost, post_update_likes_create.
  change (post_exists (set_likes s _) postId) with (post_exists s postId).
  rewrite Hp. cbn [negb likes set_likes]. rewrite existsb_snoc.
  unfold same_like at 2. cbn [Like.userId Like.postId].
  rewrite !Nat.eqb_refl, orb_true_r. reflexivity.
Qed.

(** ** Groups: the creator gate *)

Lemma not_creator_other (g : Group.t) (requester : Id) :
  Group.creatorId g <> requester -> not_creator (Some g) requester = true.
Proof. intros H. cbn. apply Nat.eqb_neq in H. now rewrite H. Qed.

(** X28.  With no group under the id, the four routes that test
    [group?.creatorId] are answered Forbidden, since [undefined] differs
    from every requester, while the deletion is answered NotFound. *)
Lemma creator_gate_no_group (s : Store) (groupId requester memberId : Id)
  (b : EditGroupBody) :
  group_findUnique s groupId = None ->
  eb_userId b = requester ->
  fst (editGroup s groupId b)
  = Some (message FORBIDDEN "You are not allowed to edit the group")
  /\ fst (addAdmin s groupId memberId requester)
     = message FORBIDDEN "You are not allowed to add admins"
  /\ fst (removeAdmin s groupId memberId requester)
     = message FORBIDDEN "You are not allowed to remove admins"
  /\ fst (removeMember s groupId memberId requester)
     = message FORBIDDEN "You are not allowed to remove members"
  /\ fst (deleteGroup s groupId requester)
     = message NOT_FOUND "Group does not exist".
Proof.
  intros Hg Hb. unfold editGroup, addAdmin, removeAdmin, removeMember, deleteGroup.
  rewrite Hg. cbn. repeat split.
Qed.

(** C1.  When the requester is not the creator of the group, each of the
    five creator-gated routes (edit, delete, add admin, remove admin,
    remove member) is answered Forbidden and hands back the store it was
    given. *)
Theorem creator_gate_forbidden (s : Store) (groupId requester memberId : Id)
  (g : Group.t) (b : EditGroupBody) :
  group_findUnique s groupId = Some g ->
  Group.creatorId g <> requester ->
  eb_userId b = requester ->
  (option_map status (fst (editGroup s groupId b)) = Some FORBIDDEN
   /\ snd (editGroup s groupId b) = s)
  /\ (status (fst (deleteGroup s groupId requester)) = FORBIDDEN
      /\ snd (deleteGroup s groupId requester) = s)
  /\ (status (fst (addAdmin s groupId memberId requester)) = FORBIDDEN
      /\ snd (addAdmin s groupId memberId requester) = s)
  /\ (status (fst (removeAdmin s groupId memberId requester)) = FORBIDDEN
      /\ snd (removeAdmin s groupId memberId requester) = s)
  /\ (status (fst (removeMember s groupId memberId requester)) = FORBIDDEN
      /\ snd (removeMember s groupId memberId requester) = s).
Proof.
  intros Hg Hne Hb.
  pose proof (not_creator_other g requester Hne) as Hgate.
  unfold editGroup, deleteGroup, addAdmin, removeAdmin, removeMember.
  rewrite Hg, Hb, Hgate.
  apply Nat.eqb_neq in Hne. rewrite Hne.
  repeat split.
Qed.

Lemma creator_gate_forbidden_witness :
  (exists g, group_findUnique store_liked 2 = Some g /\ Group.creatorId g <> 1)
  /\ editGroup store_liked 2 (mkEditGroupBody (Some "mine") None None None 1)
     = (Some (message FORBIDDEN "You are not allowed to edit the group"), store_liked)
  /\ deleteGroup store_liked 2 1 = (message FORBIDDEN "Not Allowed", store_liked)
  /\ snd (addAdmin store_liked 2 1 1) = store_liked
  /\ snd (removeAdmin store_liked 2 0 1) = store_liked
  /\ snd (removeMember store_liked 2 0 1) = store_liked.
Proof.
  destruct (group_findUnique store_liked 2) as [g|] eqn:Hg; [|discriminate Hg].
  assert (Hne : Group.creatorId g <> 1).
  { vm_compute in Hg. injection Hg as <-. discriminate. }
  split; [exists g; split; [reflexivity | exact Hne]|].
  split; [reflexivity|]. split; [reflexivity|].
  split; [apply (creator_gate_forbidden store_liked 2 1 1 g
                   (mkEditGroupBody None None None None 1) Hg Hne eq_refl)|].
  split; apply (creator_gate_forbidden store_liked 2 1 0 g
                  (mkEditGroupBody None None None None 1) Hg Hne eq_refl).
Defined.

(** ** Groups: the members listing *)

Lemma listAdmins_no_NOT_FOUND (s : Store) (groupId : Id) (page : option Z) :
  status (listAdmins s groupId page) <> NOT_FOUND.
Proof.
  unfold listAdmins.
  destruct (groupUser_findMany s groupId _ 10) as [e | members]; cbn; discriminate.
Qed.

(** C4, at a listing with no row: a group without members, and a page
    past the last one.  [findMany] resolves to the empty array, which is
    truthy, so both are answered OK with an empty list and the NotFound
    branch is not taken. *)
Theorem listAdmins_empty_result :
  filter (fun gu => (GroupUser.groupId gu =? 7)%nat) (groupUsers store_liked) = []
  /\ listAdmins store_liked 7 None = mkResponse OK (JMembers [])
  /\ listAdmins store_liked 2 (Some 2%Z) = mkResponse OK (JMembers []).
Proof. repeat split. Qed.

(** ** Groups: admins *)

(** With the creator asking and the membership stored, the flag of that
    row is written and the row is sent back. *)
Lemma admin_update_stored_row (s : Store) (groupId memberId creatorId : Id)
  (g : Group.t) (gu : GroupUser.t) :
  group_findUnique s groupId = Some g ->
  Group.creatorId g = creatorId ->
  find (same_membership memberId groupId) (groupUsers s) = Some gu ->
  let set (flag : bool) :=
    set_groupUsers s
      (map (fun r => if same_membership memberId groupId r
                     then GroupUser.mk (GroupUser.userId gu) (GroupUser.groupId gu) flag
                     else r)
           (groupUsers s)) in
  addAdmin s groupId memberId creatorId
  = (mkResponse OK (JGroupUser (GroupUser.mk (GroupUser.userId gu)
                                             (GroupUser.groupId gu) true)),
     set true)
  /\ removeAdmin s groupId memberId creatorId
     = (mkResponse OK (JGroupUser (GroupUser.mk (GroupUser.userId gu)
                                                (GroupUser.groupId gu) false)),
        set false).
Proof.
  intros Hg Hc Hgu. unfold addAdmin, removeAdmin, groupUser_update.
  rewrite Hg, Hgu. cbn [not_creator]. apply Nat.eqb_eq in Hc. rewrite Hc.
  split; reflexivity.
Qed.

(** With the creator asking and no membership stored, the update is
    rejected with P2025, which the catch block of the two admin routes
    does not tell apart: InternalServerError. *)
Lemma admin_update_no_row (s : Store) (groupId memberId creatorId : Id) (g : Group.t) :
  group_findUnique s groupId = Some g ->
  Group.creatorId g = creatorId ->
  find (same_membership memberId groupId) (groupUsers s) = None ->
  addAdmin s groupId memberId creatorId
  = (message INTERNAL_SERVER_ERROR "Internal server error", s)
  /\ removeAdmin s groupId memberId creatorId
     = (message INTERNAL_SERVER_ERROR "Internal server error", s).
Proof.
  intros Hg Hc Hgu. unfold addAdmin, removeAdmin, groupUser_update.
  rewrite Hg, Hgu. cbn [not_creator]. apply Nat.eqb_eq in Hc. rewrite Hc.
  split; reflexivity.
Qed.

(** The sibling route that removes a member does tell P2025 apart. *)
Lemma removeMember_missing (s : Store) (groupId memberId adminId : Id) (g : Group.t) :
  group_findUnique s groupId = Some g ->
  Group.creatorId g = adminId ->
  existsb (same_membership memberId groupId) (groupUsers s) = false ->
  removeMember s groupId memberId adminId
  = (message NOT_FOUND "User not in the group", s).
Proof.
  intros Hg Hc Hgu. unfold removeMember, groupUser_delete.
  rewrite Hg, Hgu. cbn [not_creator]. apply Nat.eqb_eq in Hc. rewrite Hc.
  reflexivity.
Qed.

(** C5, with the creator (user 0) of group 2 naming user 7, who has no
    membership row: both admin routes answer InternalServerError, not
    NotFound. *)
Theorem setAdmin_missing_member :
  option_map Group.creatorId (group_findUnique store_liked 2) = Some 0
  /\ find (same_membership 7 2) (groupUsers store_liked) = None
  /\ addAdmin store_liked 2 7 0
     = (message INTERNAL_SERVER_ERROR "Internal server error", store_liked)
  /\ removeAdmin store_liked 2 7 0
     = (message INTERNAL_SERVER_ERROR "Internal server error", store_liked).
Proof. repeat split. Qed.

(** ** Groups: creation *)

Lemma groupUser_insert_rows (rows : list MemberInput) (gus gus' : list GroupUser.t)
  (groupId : Id) :
  groupUser_insert gus groupId rows = Some gus' ->
  (forall gu, In gu gus -> In gu gus')
  /\ (forall r, In r rows ->
        In (GroupUser.mk (mi_userId r) groupId
                         match mi_isAdmin r with Some b => b | None => false end)
           gus').
Proof.
  revert gus. induction rows as [|r rows IH]; intros gus H; cbn [groupUser_insert] in H.
  - injection H as <-. split; [tauto | intros r []].
  - destruct (existsb _ gus); [discriminate|].
    apply IH in H as (Hold & Hnew). split.
    + intros gu Hin. apply Hold, in_or_app. now left.
    + intros r' [<- | Hin]; [|now apply Hnew].
      apply Hold, in_or_app. right. now left.
Qed.

Lemma groupUser_create_nested_rows (rows : list MemberInput) (s s' : Store)
  (groupId : Id) :
  groupUser_create_nested s groupId rows = inr s' ->
  groups s' = groups s
  /\ (forall gu, In gu (groupUsers s) -> In gu (groupUsers s'))
  /\ (forall r, In r rows ->
        In (GroupUser.mk (mi_userId r) groupId
                         match mi_isAdmin r with Some b => b | None => false end)
           (groupUsers s')).
Proof.
  unfold groupUser_create_nested.
  destruct (groupUser_insert (groupUsers s) groupId rows) as [gus|] eqn:E;
    [|discriminate].
  destruct (forallb _ rows); [|discriminate].
  intros H. injection H as <-. cbn [groups groupUsers set_groupUsers].
  split; [reflexivity|]. now apply (groupUser_insert_rows rows (groupUsers s)).
Qed.

Lemma createGroup_OK_inv {J : JsString} (s s' : Store) (b : GroupBody) (r : Response) :
  createGroup s b = (r, s') ->
  status r = OK ->
  exists g,
    r = mkResponse OK (JGroup g)
    /\ group_create s (toLowerCase (gb_name b)) (Some (toLowerCase (gb_bio b)))
                    (or_empty (gb_profileImage b)) (gb_coverImage b)
                    (gb_creatorId b)
                    (mkMemberInput (gb_creatorId b) (Some true) :: gb_members b)
       = inr (g, s').
Proof.
  unfold createGroup. intros H Hst.
  destruct (group_create _ _ _ _ _ _ _) as [[[| |]|] | [g s2]];
    injection H as <- <-; try discriminate Hst.
  now exists g.
Qed.




(** ** Invariants along histories *)

Lemma same_core_refl (s : Store) : same_core s s.
Proof. repeat split. Qed.

Lemma same_core_invariants (s s' : Store) :
  same_core s s' ->
  (likes_referenced s = true -> likes_referenced s' = true)
  /\ (tag_names_unique s -> tag_names_unique s').
Proof.
  intros (Hu & Hp & Hl & Ht).
  unfold likes_referenced, tag_names_unique, post_exists, user_exists.
  rewrite Hu, Hp, Hl, Ht. tauto.
Qed.

Lemma likes_referenced_grow (s s' : Store) :
  likes s' = likes s ->
  (forall id, post_exists s id = true -> post_exists s' id = true) ->
  (forall id, user_exists s id = true -> user_exists s' id = true) ->
  likes_referenced s = true -> likes_referenced s' = true.
Proof.
  unfold likes_referenced. intros Hl Hp Hu Hwf. rewrite Hl.
  rewrite forallb_forall in *. intros l Hin. specialize (Hwf l Hin).
  apply andb_true_iff in Hwf as [H1 H2].
  apply andb_true_iff. split; [now apply Hp | now apply Hu].
Qed.

Lemma groupUser_create_nested_core (rows : list MemberInput) (s s' : Store)
  (groupId : Id) :
  groupUser_create_nested s groupId rows = inr s' -> same_core s s'.
Proof.
  unfold groupUser_create_nested.
  destruct (groupUser_insert (groupUsers s) groupId rows) as [gus|]; [|discriminate].
  destruct (forallb _ rows); [|discriminate].
  intros H. injection H as <-. repeat split.
Qed.

(** Case analysis on the tests of a handler, innermost scrutinee first. *)
Ltac split_handler :=
  repeat (cbn [ret throw bind negb truthy_object];
          match goal with
          | |- context [match ?x with _ => _ end] =>
              lazymatch x with
              | context [match _ with _ => _ end] => fail
              | _ => destruct x
              end
          end);
  cbn [fst snd]; try apply same_core_refl; try (repeat split).

Lemma createGroup_core {J : JsString} (s : Store) (b : GroupBody) :
  same_core s (snd (createGroup s b)).
Proof.
  unfold createGroup, group_create.
  destruct (existsb _ (groups s)); [apply same_core_refl|].
  destruct (negb (user_exists s (gb_creatorId b))); [apply same_core_refl|].
  unfold bind.
  destruct (groupUser_create_nested _ _ _) as [[[| |]|] | s2] eqn:E;
    try apply same_core_refl.
  apply groupUser_create_nested_core in E. exact E.
Qed.

Lemma addAdmin_core (s : Store) (groupId memberId creatorId : Id) :
  same_core s (snd (addAdmin s groupId memberId creatorId)).
Proof. unfold addAdmin, groupUser_update. split_handler. Qed.

Lemma removeAdmin_core (s : Store) (groupId memberId creatorId : Id) :
  same_core s (snd (removeAdmin s groupId memberId creatorId)).
Proof. unfold removeAdmin, groupUser_update. split_handler. Qed.

Lemma editGroup_core (s : Store) (groupId : Id) (b : EditGroupBody) :
  same_core s (snd (editGroup s groupId b)).
Proof. unfold editGroup, group_update. split_handler. Qed.

Lemma joinGroup_core (s : Store) (groupId userId : Id) :
  same_core s (snd (joinGroup s groupId userId)).
Proof. unfold joinGroup, groupUser_create. split_handler. Qed.

Lemma leaveGroup_core (s : Store) (groupId userId : Id) :
  same_core s (snd (leaveGroup s groupId userId)).
Proof. unfold leaveGroup, groupUser_delete. split_handler. Qed.

Lemma removeMember_core (s : Store) (groupId memberId adminId : Id) :
  same_core s (snd (removeMember s groupId memberId adminId)).
Proof. unfold removeMember, groupUser_delete. split_handler. Qed.

Lemma user_create_invariants (s s' : Store) (username email : string)
  (password : option string) (u : User.t) :
  user_create s username email password = inr (u, s') ->
  (likes_referenced s = true -> likes_referenced s' = true)
  /\ (tag_names_unique s -> tag_names_unique s').
Proof.
  unfold user_create. destruct (existsb _ (users s)); [discriminate|].
  intros H. injection H as <- <-. split; [|tauto].
  apply likes_referenced_grow; [reflexivity | tauto |].
  intros id Hid. unfold user_exists in *. cbn [users set_users].
  rewrite existsb_app, Hid. reflexivity.
Qed.

Lemma register_invariants {J : JsString} (B : Bcrypt) (s : Store) (username email password : string) :
  (likes_referenced s = true ->
   likes_referenced (snd (register B s username email password)) = true)
  /\ (tag_names_unique s ->
      tag_names_unique (snd (register B s username email password))).
Proof.
  unfold register.
  destruct (user_create s username (toLowerCase email) _) as [[[| |]|] | [u s']] eqn:E;
    try tauto.
  exact (user_create_invariants s s' _ _ _ u E).
Qed.

Lemma registerSocial_invariants {J : JsString} (s : Store) (name email : string) :
  (likes_referenced s = true ->
   likes_referenced (snd (registerSocial s name email)) = true)
  /\ (tag_names_unique s -> tag_names_unique (snd (registerSocial s name email))).
Proof.
  unfold registerSocial.
  destruct (user_create s name (toLowerCase email) None) as [[[| |]|] | [u s']] eqn:E;
    try tauto.
  exact (user_create_invariants s s' _ _ _ u E).
Qed.

Lemma existsb_replace_same_id (l : list Post.t) (id x : Id) (p' : Post.t) :
  Post.id p' = id ->
  existsb (fun p => (Post.id p =? x)%nat)
          (map (fun q => if (Post.id q =? id)%nat then p' else q) l)
  = existsb (fun p => (Post.id p =? x)%nat) l.
Proof.
  intros Hid. induction l as [|q l IH]; [reflexivity|].
  cbn [map existsb]. rewrite IH. f_equal.
  destruct (Post.id q =? id)%nat eqn:E; [|reflexivity].
  apply Nat.eqb_eq in E. now rewrite Hid, E.
Qed.

Lemma updatePost_invariants (s : Store) (id : Id) (title tinyContent : option string) :
  (likes_referenced s = true ->
   likes_referenced (snd (updatePost s id title tinyContent)) = true)
  /\ (tag_names_unique s ->
      tag_names_unique (snd (updatePost s id title tinyContent))).
Proof.
  unfold updatePost, post_update.
  destruct (find _ (posts s)) as [p|] eqn:E; [|tauto].
  cbn [ret snd]. split; [|tauto].
  apply likes_referenced_grow; [reflexivity | | tauto].
  intros x Hx. unfold post_exists in *. cbn [posts set_posts].
  rewrite existsb_replace_same_id; [exact Hx|].
  apply find_some in E as [_ E]. now apply Nat.eqb_eq in E.
Qed.

Lemma resume_callbacks_likes (pending : list (string * option Tag.t)) (s : Store) :
  likes (fst (resume_callbacks s pending)) = likes s.
Proof.
  revert s. induction pending as [|[tag [existing|]] rest IH]; intros s;
    cbn [resume_callbacks].
  - reflexivity.
  - specialize (IH s). now destruct (resume_callbacks s rest).
  - unfold tag_create. destruct (existsb _ (tags s)); cbn [throw ret].
    + specialize (IH s). now destruct (resume_callbacks s rest).
    + specialize (IH (set_tags s (tags s ++ [Tag.mk (next_uuid s) tag])
                               (S (next_uuid s)))).
      now destruct (resume_callbacks _ rest).
Qed.

Lemma createPost_likes_referenced (s : Store) (b : PostBody) :
  likes_referenced s = true -> likes_referenced (snd (createPost s b)) = true.
Proof.
  unfold createPost.
  pose proof (resume_callbacks_frame (issue_lookups s (pb_interestTechTags b)) s)
    as (Hu & Hp & _).
  pose proof (resume_callbacks_likes (issue_lookups s (pb_interestTechTags b)) s)
    as Hl.
  destruct (resume_callbacks s _) as [s1 settled]. cbn [fst] in *.
  assert (H1 : likes_referenced s = true -> likes_referenced s1 = true).
  { unfold likes_referenced, post_exists, user_exists. now rewrite Hu, Hp, Hl. }
  destruct (promise_all settled) as [e | tagIds]; [exact H1|].
  unfold post_create.
  destruct (negb (user_exists s1 (pb_authorId b))); [exact H1|].
  destruct (match pb_groupId b with Some g => _ | None => _ end); [exact H1|].
  destruct (negb (forallb _ tagIds)); [exact H1|].
  cbn [ret snd]. intros Hwf. specialize (H1 Hwf). revert H1.
  apply likes_referenced_grow; [reflexivity | | tauto].
  intros x Hx. unfold post_exists in *. cbn [posts].
  rewrite existsb_app, Hx. reflexivity.
Qed.

Lemma deletePost_invariants (s : Store) (id : Id) :
  (likes_referenced s = true -> likes_referenced (snd (deletePost s id)) = true)
  /\ (tag_names_unique s -> tag_names_unique (snd (deletePost s id))).
Proof.
  unfold deletePost, post_delete.
  destruct (post_exists s id); [|tauto]. cbn [ret snd]. split; [|tauto].
  unfold likes_referenced, post_exists, user_exists. cbn [likes posts users].
  rewrite !forallb_forall. intros Hwf l Hl.
  apply filter_In in Hl as [Hl Hkeep]. specialize (Hwf l Hl).
  apply andb_true_iff in Hwf as [Hp Hu]. rewrite Hu, andb_true_r.
  apply existsb_exists in Hp as (p & Hp & Hid).
  apply existsb_exists. exists p. split; [|exact Hid].
  apply filter_In. split; [exact Hp|].
  apply Nat.eqb_eq in Hid. unfold Id in *. now rewrite Hid.
Qed.

Lemma deleteGroup_invariants (s : Store) (groupId creatorId : Id) :
  (likes_referenced s = true ->
   likes_referenced (snd (deleteGroup s groupId creatorId)) = true)
  /\ (tag_names_unique s -> tag_names_unique (snd (deleteGroup s groupId creatorId))).
Proof.
  unfold deleteGroup, group_delete.
  destruct (group_findUnique s groupId) as [g|]; [|tauto].
  destruct (Group.creatorId g =? creatorId)%nat; [|tauto].
  cbn [ret snd]. split; [|tauto].
  unfold likes_referenced, post_exists, user_exists. cbn [likes posts users].
  rewrite !forallb_forall. intros Hwf l Hl.
  apply filter_In in Hl as [Hl Hkeep]. specialize (Hwf l Hl).
  apply andb_true_iff in Hwf as [Hp Hu]. rewrite Hu, andb_true_r.
  apply existsb_exists in Hp as (p & Hp & Hid).
  apply existsb_exists. exists p. split; [|exact Hid].
  apply filter_In. split; [exact Hp|].
  apply negb_true_iff in Hkeep.
  destruct (match Post.groupId p with Some g' => _ | None => _ end) eqn:Hin;
    [|reflexivity].
  exfalso. apply not_true_iff_false in Hkeep. apply Hkeep.
  apply existsb_exists. exists p. split; [exact Hp|].
  now rewrite Hid, Hin.
Qed.

(** Every store a history of requests leads to satisfies the foreign keys
    of Like and the uniqueness of tag names. *)
Theorem reachable_invariants {J : JsString} (B : Bcrypt) (s : Store) :
  reachable B s -> likes_referenced s = true /\ tag_names_unique s.
Proof.
  induction 1 as [|s r _ [Hlikes Htags]].
  - split; [reflexivity | constructor].
  - destruct r; cbn [store_after].
    + split; now apply register_invariants.
    + split; now apply registerSocial_invariants.
    + split; [now apply createPost_likes_referenced
             | now apply createPost_tag_names_unique].
    + split; now apply updatePost_invariants.
    + split; [now apply likePost_keeps_references|].
      unfold likePost, post_update_likes_create. split_handler; exact Htags.
    + split; [now apply unlikePost_keeps_references|].
      unfold unlikePost, like_delete. split_handler; exact Htags.
    + split; now apply deletePost_invariants.
    + split; now apply (same_core_invariants s _ (createGroup_core s b)).
    + split; now apply (same_core_invariants s _ (addAdmin_core s _ _ _)).
    + split; now apply (same_core_invariants s _ (removeAdmin_core s _ _ _)).
    + split; now apply (same_core_invariants s _ (editGroup_core s _ _)).
    + split; now apply (same_core_invariants s _ (joinGroup_core s _ _)).
    + split; now apply (same_core_invariants s _ (leaveGroup_core s _ _)).
    + split; now apply (same_core_invariants s _ (removeMember_core s _ _ _)).
    + split; now apply deleteGroup_invariants.
Qed.

(** * Further properties *)

(** ** Histories *)

Lemma reachable_run {J : JsString} (B : Bcrypt) (rs : list Request) (s : Store) :
  reachable B s -> reachable B (run B s rs).
Proof.
  revert s. induction rs as [|r rs IH]; intros s Hs; [exact Hs|].
  apply IH. now constructor.
Qed.

Lemma sample_history_end : run prefix_bcrypt empty_store sample_history = store_liked.
Proof. reflexivity. Qed.

Lemma store_liked_reachable : reachable prefix_bcrypt store_liked.
Proof.
  rewrite <- sample_history_end. apply reachable_run. constructor.
Qed.

(** ** Authentication, continued *)

Lemma lower_ascii_idempotent (c : ascii) : lower_ascii (lower_ascii c) = lower_ascii c.
Proof. destruct c as [[] [] [] [] [] [] [] []]; reflexivity. Qed.

Lemma ascii_toLowerCase_idempotent (s : string) :
  ascii_toLowerCase (ascii_toLowerCase s) = ascii_toLowerCase s.
Proof.
  induction s as [|c s IH]; [reflexivity|].
  cbn [ascii_toLowerCase]. now rewrite lower_ascii_idempotent, IH.
Qed.

Lemma registerSocial_outcome {J : JsString} (s : Store) (name email : string) :
  let u := User.mk (next_uuid s) (clock s) (toLowerCase email) None name None in
  (existsb (fun v => (User.email v =? toLowerCase email)%string) (users s) = true
   /\ registerSocial s name email
      = (message CONFLICT "Error: User already exists", s))
  \/
  (existsb (fun v => (User.email v =? toLowerCase email)%string) (users s) = false
   /\ registerSocial s name email
      = (message CREATED "User created successfully",
         set_users s (users s ++ [u]) (profiles s ++ [new_profile (next_uuid s)])
                   (S (next_uuid s)))).
Proof.
  unfold registerSocial, user_create.
  destruct (existsb _ (users s)); [left | right]; split; reflexivity.
Qed.

(** X1.  An account created by the social registration has no stored
    password: whatever password is submitted, the login route answers
    BadRequest "Incorrect email or password", while the earlier revision
    of that route ends in its catch block. *)
Theorem social_account_login {J : JsString} (B : Bcrypt) (s s' : Store) (name email password : string)
  (r : Response) :
  (forall p, compare B p "" = false) ->
  registerSocial s name email = (r, s') ->
  status r = CREATED ->
  login B s' (toLowerCase email) password
  = message BAD_REQUEST "Incorrect email or password"
  /\ login_rev1 B s' (toLowerCase email) password
     = message INTERNAL_SERVER_ERROR "Internal server error".
Proof.
  intros Hbad Hreg Hst.
  destruct (registerSocial_outcome s name email) as [[_ E] | [Hfree E]];
    rewrite E in Hreg; injection Hreg as <- <-; [discriminate Hst|].
  assert (Hfind : user_findUnique
                    (set_users s
                       (users s ++ [User.mk (next_uuid s) (clock s) (toLowerCase email)
                                            None name None])
                       (profiles s ++ [new_profile (next_uuid s)]) (S (next_uuid s)))
                    (toLowerCase email)
                  = Some (User.mk (next_uuid s) (clock s) (toLowerCase email)
                                  None name None)).
  { unfold user_findUnique. cbn [users set_users].
    apply find_app_fresh; [exact Hfree|]. cbn [User.email]. apply String.eqb_refl. }
  unfold login, login_rev1. rewrite Hfind.
  cbn [User.password or_empty bcrypt_compare ret throw]. now rewrite Hbad.
Qed.

Lemma social_account_login_witness :
  (forall p, compare prefix_bcrypt p "" = false)
  /\ status (fst (registerSocial store_liked "Cy" "Cy@Hub.io")) = CREATED
  /\ login prefix_bcrypt (snd (registerSocial store_liked "Cy" "Cy@Hub.io"))
           "cy@hub.io" ""
     = message BAD_REQUEST "Incorrect email or password"
  /\ login_rev1 prefix_bcrypt (snd (registerSocial store_liked "Cy" "Cy@Hub.io"))
                "cy@hub.io" ""
     = message INTERNAL_SERVER_ERROR "Internal server error".
Proof.
  assert (Hbad : forall p, compare prefix_bcrypt p "" = false)
    by (intros p; reflexivity).
  split; [exact Hbad|]. split; [reflexivity|].
  exact (social_account_login prefix_bcrypt store_liked
           (snd (registerSocial store_liked "Cy" "Cy@Hub.io")) "Cy" "Cy@Hub.io" ""
           (fst (registerSocial store_liked "Cy" "Cy@Hub.io")) Hbad eq_refl eq_refl).
Defined.

(** X2.  The login route looks the email up as it is submitted, while
    registration stores it lower-cased: on a store whose emails are all
    lower-case, registering an email that has a capital and then logging
    in with that same spelling is answered BadRequest "No user found",
    whatever the password. *)
Theorem login_exact_spelling {J : JsString} (B : Bcrypt) (s : Store)
  (username email password password' : string) :
  emails_folded s ->
  toLowerCase email <> email ->
  login B (snd (register B s username email password)) email password'
  = message BAD_REQUEST "No user found".
Proof.
  intros Hfold Hcap. unfold login.
  rewrite user_findUnique_none; [reflexivity|].
  intros u Hin He.
  destruct (register_outcome B s username email password) as [[_ E] | [_ E]];
    rewrite E in Hin; cbn [snd users set_users] in Hin.
  - apply Hfold in Hin. congruence.
  - apply in_app_or in Hin as [Hin | [<- | []]].
    + apply Hfold in Hin. congruence.
    + cbn [User.email] in He. congruence.
Qed.

Lemma login_exact_spelling_witness :
  emails_folded empty_store
  /\ toLowerCase "A@b.com" <> "A@b.com"
  /\ login prefix_bcrypt store_one_user "A@b.com" "secret"
     = message BAD_REQUEST "No user found".
Proof.
  assert (Hfold : emails_folded empty_store) by (intros u []).
  assert (Hcap : toLowerCase "A@b.com" <> "A@b.com") by discriminate.
  split; [exact Hfold|]. split; [exact Hcap|].
  exact (login_exact_spelling prefix_bcrypt empty_store "ann" "A@b.com" "secret"
           "secret" Hfold Hcap).
Defined.

(** X3.  The two revisions of the login route give the same answer to
    every request, except on an account without a stored password, where
    the earlier one answers InternalServerError and the later one
    BadRequest "Incorrect email or password". *)
Theorem login_revisions (B : Bcrypt) (s : Store) (email password : string) :
  (forall p, compare B p "" = false) ->
  login_rev1 B s email password = login B s email password
  \/ (exists u,
        user_findUnique s email = Some u
        /\ User.password u = None
        /\ login_rev1 B s email password
           = message INTERNAL_SERVER_ERROR "Internal server error"
        /\ login B s email password
           = message BAD_REQUEST "Incorrect email or password").
Proof.
  intros Hbad. unfold login_rev1, login.
  destruct (user_findUnique s email) as [u|]; [|now left].
  destruct (User.password u) as [h|] eqn:Hp.
  - left. now rewrite or_empty_Some.
  - right. exists u. cbn [or_empty bcrypt_compare ret throw]. rewrite Hbad.
    repeat split. exact Hp.
Qed.

Lemma login_revisions_witness :
  (forall p, compare prefix_bcrypt p "" = false)
  /\ login_rev1 prefix_bcrypt store_liked "a@b.com" "secret"
     = login prefix_bcrypt store_liked "a@b.com" "secret"
  /\ login_rev1 prefix_bcrypt store_liked "a@b.com" "secret"
     = mkResponse OK (JUser (User.mk 0 0 "a@b.com" (Some "$2b$10$secret") "ann" None)).
Proof.
  assert (Hbad : forall p, compare prefix_bcrypt p "" = false)
    by (intros p; reflexivity).
  split; [exact Hbad|].
  destruct (login_revisions prefix_bcrypt store_liked "a@b.com" "secret" Hbad)
    as [E | (u & _ & _ & E & _)].
  - split; [exact E | reflexivity].
  - discriminate E.
Defined.

Lemma createPost_users (s : Store) (b : PostBody) :
  users (snd (createPost s b)) = users s.
Proof.
  unfold createPost.
  pose proof (resume_callbacks_frame (issue_lookups s (pb_interestTechTags b)) s)
    as (Hu & _).
  destruct (resume_callbacks s _) as [s1 settled]. cbn [fst] in Hu.
  destruct (promise_all settled) as [e | tagIds]; [exact Hu|].
  unfold post_create.
  destruct (negb (user_exists s1 (pb_authorId b))); [exact Hu|].
  destruct (match pb_groupId b with Some g => _ | None => _ end); [exact Hu|].
  destruct (negb (forallb _ tagIds)); exact Hu.
Qed.

(** A request either leaves the user table alone or appends one row, whose
    email is a lower-cased string and was not stored before. *)
Lemma store_after_users {J : JsString} (B : Bcrypt) (s : Store) (r : Request) :
  users (store_after B s r) = users s
  \/ exists u,
       users (store_after B s r) = users s ++ [u]
       /\ (exists email, User.email u = toLowerCase email)
       /\ existsb (fun v => (User.email v =? User.email u)%string) (users s) = false.
Proof.
  destruct r; cbn [store_after].
  - destruct (register_outcome B s username email password) as [[_ E] | [Hfree E]];
      rewrite E; cbn [snd users set_users]; [now left | right].
    eexists. split; [reflexivity|]. cbn [User.email].
    split; [now exists email | exact Hfree].
  - destruct (registerSocial_outcome s name email) as [[_ E] | [Hfree E]];
      rewrite E; cbn [snd users set_users]; [now left | right].
    eexists. split; [reflexivity|]. cbn [User.email].
    split; [now exists email | exact Hfree].
  - left. apply createPost_users.
  - left. unfold updatePost, post_update. split_handler.
  - left. unfold likePost, post_update_likes_create. split_handler.
  - left. unfold unlikePost, like_delete. split_handler.
  - left. unfold deletePost, post_delete. split_handler.
  - left. apply (createGroup_core s b).
  - left. apply (addAdmin_core s groupId memberId creatorId).
  - left. apply (removeAdmin_core s groupId memberId creatorId).
  - left. apply (editGroup_core s groupId b).
  - left. apply (joinGroup_core s groupId userId).
  - left. apply (leaveGroup_core s groupId userId).
  - left. apply (removeMember_core s groupId memberId adminId).
  - left. unfold deleteGroup, group_delete. split_handler.
Qed.

Lemma email_absent_not_in (us : list User.t) (email : string) :
  existsb (fun v => (User.email v =? email)%string) us = false ->
  ~ In email (map User.email us).
Proof.
  induction us as [|u us IH]; simpl; intros H.
  - tauto.
  - apply orb_false_iff in H as [Hu Hus].
    apply String.eqb_neq in Hu. intros [E | Hin]; [congruence | now apply IH].
Qed.

(** X4.  In every store a history of requests leads to, no two users
    share an email, every stored email is lower-case (lower-casing being
    idempotent, as the built-in is), and the lookup by email therefore
    returns the one row that carries it. *)
Theorem reachable_emails {J : JsString} (B : Bcrypt) (s : Store) :
  reachable B s ->
  emails_unique s
  /\ ((forall x, toLowerCase (toLowerCase x) = toLowerCase x) -> emails_folded s)
  /\ (forall u, In u (users s) -> user_findUnique s (User.email u) = Some u).
Proof.
  intros Hreach.
  assert (H : emails_unique s
              /\ forall u, In u (users s) -> exists email, User.email u = toLowerCase email).
  { induction Hreach as [|s r _ [Huniq Hfold]].
    - split; [constructor | intros u []].
    - unfold emails_unique in *.
      destruct (store_after_users B s r) as [E | (u & E & Hlow & Hfree)];
        rewrite E; [now split|].
      split.
      + rewrite map_app. apply NoDup_snoc; [exact Huniq|].
        now apply email_absent_not_in.
      + intros v Hv. apply in_app_or in Hv as [Hv | [<- | []]];
          [now apply Hfold | exact Hlow]. }
  destruct H as [Huniq Hfold]. split; [exact Huniq|]. split.
  { intros Hidem u Hu. destruct (Hfold u Hu) as [email ->]. apply Hidem. }
  unfold emails_unique, user_findUnique in *. clear Hreach Hfold.
  induction (users s) as [|v us IH]; intros u Hin; [destruct Hin|].
  cbn [map] in Huniq. inversion Huniq as [|? ? Hfresh Huniq']; subst.
  cbn [find]. destruct Hin as [-> | Hin].
  - now rewrite String.eqb_refl.
  - destruct (User.email v =? User.email u)%string eqn:E.
    + apply String.eqb_eq in E. exfalso. apply Hfresh. rewrite E.
      now apply in_map.
    + now apply IH.
Qed.

Lemma reachable_emails_witness :
  reachable prefix_bcrypt store_liked
  /\ emails_unique store_liked
  /\ emails_folded store_liked
  /\ user_findUnique store_liked "bob@b.com"
     = Some (User.mk 1 0 "bob@b.com" (Some "$2b$10$hunter2") "bob" None).
Proof.
  pose proof (reachable_emails prefix_bcrypt store_liked store_liked_reachable)
    as (Huniq & Hfold & Hfind).
  split; [exact store_liked_reachable|]. split; [exact Huniq|].
  split; [exact (Hfold ascii_toLowerCase_idempotent)|].
  apply (Hfind (User.mk 1 0 "bob@b.com" (Some "$2b$10$hunter2") "bob" None)).
  right. now left.
Defined.

(** ** Posts, continued *)

Lemma resume_callbacks_tags_grow (pending : list (string * option Tag.t))
  (s : Store) (t : Tag.t) :
  In t (tags s) -> In t (tags (fst (resume_callbacks s pending))).
Proof.
  revert s. induction pending as [|[tag [existing|]] rest IH]; intros s Hin;
    cbn [resume_callbacks].
  - exact Hin.
  - specialize (IH s Hin). now destruct (resume_callbacks s rest).
  - unfold tag_create. destruct (existsb _ (tags s)); cbn [throw ret].
    + specialize (IH s Hin). now destruct (resume_callbacks s rest).
    + specialize (IH (set_tags s (tags s ++ [Tag.mk (next_uuid s) tag])
                               (S (next_uuid s)))).
      destruct (resume_callbacks _ rest). apply IH.
      cbn [tags set_tags]. apply in_or_app. now left.
Qed.

Lemma row_for_name_grows (pending : list (string * option Tag.t)) (s : Store)
  (n : string) :
  existsb (fun t => (Tag.name t =? n)%string) (tags s) = true ->
  existsb (fun t => (Tag.name t =? n)%string)
          (tags (fst (resume_callbacks s pending))) = true.
Proof.
  intros H. apply existsb_exists in H as (t & Hin & Hn).
  apply existsb_exists. exists t. split; [|exact Hn].
  now apply resume_callbacks_tags_grow.
Qed.

Lemma resume_callbacks_rows (pending : list (string * option Tag.t)) (s : Store) :
  (forall n t, In (n, Some t) pending -> In t (tags s) /\ Tag.name t = n) ->
  forall n o, In (n, o) pending ->
    existsb (fun t => (Tag.name t =? n)%string)
            (tags (fst (resume_callbacks s pending))) = true.
Proof.
  revert s. induction pending as [|[tag [existing|]] rest IH]; intros s Hfound n o Hin.
  - destruct Hin.
  - cbn [resume_callbacks].
    pose proof (row_for_name_grows rest s n) as Hgrow.
    specialize (IH s (fun m t H => Hfound m t (or_intror H)) n o).
    destruct (resume_callbacks s rest) as [s' settled]. cbn [fst] in *.
    destruct Hin as [E | Hin]; [|now apply IH].
    injection E as <- <-. apply Hgrow.
    destruct (Hfound tag existing (or_introl eq_refl)) as [Ht Hn].
    apply existsb_exists. exists existing. split; [exact Ht|].
    now apply String.eqb_eq.
  - cbn [resume_callbacks]. unfold tag_create.
    destruct (existsb (fun t => (Tag.name t =? tag)%string) (tags s)) eqn:Etag;
      cbn [throw ret].
    + pose proof (row_for_name_grows rest s n) as Hgrow.
      specialize (IH s (fun m t H => Hfound m t (or_intror H)) n o).
      destruct (resume_callbacks s rest) as [s' settled]. cbn [fst] in *.
      destruct Hin as [E | Hin]; [|now apply IH].
      injection E as <- <-. now apply Hgrow.
    + set (s1 := set_tags s (tags s ++ [Tag.mk (next_uuid s) tag]) (S (next_uuid s))).
      pose proof (row_for_name_grows rest s1 n) as Hgrow.
      assert (Hfound1 : forall m t, In (m, Some t) rest ->
                                    In t (tags s1) /\ Tag.name t = m).
      { intros m t H. destruct (Hfound m t (or_intror H)) as [Ht Hm].
        split; [|exact Hm]. cbn [s1 tags set_tags]. apply in_or_app. now left. }
      specialize (IH s1 Hfound1 n o).
      destruct (resume_callbacks s1 rest) as [s' settled]. cbn [fst] in *.
      destruct Hin as [E | Hin]; [|now apply IH].
      injection E as <- <-. apply Hgrow.
      cbn [s1 tags set_tags]. rewrite existsb_snoc. cbn [Tag.name].
      rewrite String.eqb_refl. apply orb_true_r.
Qed.

(** X5.  Whatever the outcome of a post creation, afterwards every
    requested tag name has a row, and every tag row stored before is
    still there: tags are created even when the request then fails, and
    no creation removes or renames one. *)
Theorem createPost_leaves_tag_rows (s : Store) (b : PostBody) :
  (forall n, In n (pb_interestTechTags b) ->
     existsb (fun t => (Tag.name t =? n)%string) (tags (snd (createPost s b))) = true)
  /\ (forall t, In t (tags s) -> In t (tags (snd (createPost s b)))).
Proof.
  assert (Htags : tags (snd (createPost s b))
                  = tags (fst (resume_callbacks s
                                 (issue_lookups s (pb_interestTechTags b))))).
  { unfold createPost.
    destruct (resume_callbacks s _) as [s1 settled]. cbn [fst].
    destruct (promise_all settled) as [e | tagIds]; [reflexivity|].
    destruct (post_create s1 b tagIds) as [e | [p s2]] eqn:E; [reflexivity|].
    cbn [snd]. exact (post_create_tags s1 s2 b tagIds p E). }
  rewrite Htags. split.
  - intros n Hn.
    apply (resume_callbacks_rows (issue_lookups s (pb_interestTechTags b)) s)
      with (o := tag_findUnique s n).
    + intros m t Hm. unfold issue_lookups in Hm.
      apply in_map_iff in Hm as (m' & E & _). injection E as -> E.
      unfold tag_findUnique in E. apply find_some in E as [Hin Hname].
      split; [exact Hin | now apply String.eqb_eq].
    + unfold issue_lookups. apply in_map_iff. now exists n.
  - intros t Ht. now apply resume_callbacks_tags_grow.
Qed.

(** X6.  A post creation by an author that is not stored, or into a group
    that is not stored, is answered InternalServerError (the foreign-key
    error is not told apart, unlike in the like route) and no post and no
    tag link is stored. *)
Theorem createPost_unknown_reference (s : Store) (b : PostBody) :
  user_exists s (pb_authorId b) = false
  \/ (exists g, pb_groupId b = Some g /\ group_exists s g = false) ->
  fst (createPost s b) = message INTERNAL_SERVER_ERROR "Internal server error"
  /\ posts (snd (createPost s b)) = posts s
  /\ postTags (snd (createPost s b)) = postTags s.
Proof.
  intros Href. unfold createPost.
  pose proof (resume_callbacks_frame (issue_lookups s (pb_interestTechTags b)) s)
    as (Hu & Hp & Hpt & Hg).
  destruct (resume_callbacks s _) as [s1 settled]. cbn [fst] in *.
  destruct (promise_all settled) as [e | tagIds]; [repeat split; assumption|].
  assert (Hfail : exists e, post_create s1 b tagIds = inl e).
  { unfold post_create, user_exists, group_exists in *. rewrite Hu, Hg.
    destruct Href as [Ha | (g & Hgid & Hno)].
    - rewrite Ha. now eexists.
    - destruct (negb (existsb _ (users s))); [now eexists|].
      rewrite Hgid, Hno. now eexists. }
  destruct Hfail as [e ->]. repeat split; assumption.
Qed.

Lemma createPost_unknown_reference_witness :
  user_exists store_liked 9 = false
  /\ createPost store_liked
       (mkPostBody 9 "ghost" None None None None None None None None ["zig"])
     = (message INTERNAL_SERVER_ERROR "Internal server error",
        set_tags store_liked (tags store_liked ++ [Tag.mk 6 "zig"]) 7)
  /\ group_exists store_liked 8 = false
  /\ fst (createPost store_liked
            (mkPostBody 0 "lost" None (Some 8) None None None None None None []))
     = message INTERNAL_SERVER_ERROR "Internal server error".
Proof.
  split; [reflexivity|]. split; [reflexivity|]. split; [reflexivity|].
  apply (createPost_unknown_reference store_liked
           (mkPostBody 0 "lost" None (Some 8) None None None None None None [])).
  right. exists 8. split; reflexivity.
Defined.

(** ** Identifiers *)

Lemma groupUser_create_nested_frame (rows : list MemberInput) (s s' : Store)
  (groupId : Id) :
  groupUser_create_nested s groupId rows = inr s' ->
  s' = set_groupUsers s (groupUsers s').
Proof.
  unfold groupUser_create_nested.
  destruct (groupUser_insert (groupUsers s) groupId rows) as [gus|]; [|discriminate].
  destruct (forallb _ rows); [|discriminate].
  intros H. now injection H as <-.
Qed.

(** One handed-out identifier: the counter moves by one and every table
    holds its old rows and at most rows that carry the old counter. *)
Lemma ids_fresh_bump (s s' : Store) :
  ids_fresh s ->
  next_uuid s' = S (next_uuid s) ->
  (forall u, In u (users s') -> In u (users s) \/ User.id u = next_uuid s) ->
  (forall p, In p (profiles s') -> In p (profiles s) \/ Profile.userId p = next_uuid s) ->
  (forall p, In p (posts s') -> In p (posts s) \/ Post.id p = next_uuid s) ->
  (forall t, In t (tags s') -> In t (tags s) \/ Tag.id t = next_uuid s) ->
  (forall g, In g (groups s') -> In g (groups s) \/ Group.id g = next_uuid s) ->
  ids_fresh s'.
Proof.
  intros (Hu & Hpr & Hp & Ht & Hg) Hn Hu' Hpr' Hp' Ht' Hg'.
  unfold ids_fresh. rewrite Hn.
  repeat split; intros x Hx.
  - destruct (Hu' x Hx) as [H | ->]; [apply Hu in H|]; lia.
  - destruct (Hpr' x Hx) as [H | ->]; [apply Hpr in H|]; lia.
  - destruct (Hp' x Hx) as [H | ->]; [apply Hp in H|]; lia.
  - destruct (Ht' x Hx) as [H | ->]; [apply Ht in H|]; lia.
  - destruct (Hg' x Hx) as [H | ->]; [apply Hg in H|]; lia.
Qed.

(** No handed-out identifier: the counter stays and every table holds
    rows with identifiers it held before. *)
Lemma ids_fresh_keep (s s' : Store) :
  ids_fresh s ->
  next_uuid s' = next_uuid s ->
  (forall u, In u (users s') -> exists v, In v (users s) /\ User.id v = User.id u) ->
  (forall p, In p (profiles s') ->
             exists q, In q (profiles s) /\ Profile.userId q = Profile.userId p) ->
  (forall p, In p (posts s') -> exists q, In q (posts s) /\ Post.id q = Post.id p) ->
  (forall t, In t (tags s') -> exists v, In v (tags s) /\ Tag.id v = Tag.id t) ->
  (forall g, In g (groups s') -> exists h, In h (groups s) /\ Group.id h = Group.id g) ->
  ids_fresh s'.
Proof.
  intros (Hu & Hpr & Hp & Ht & Hg) Hn Hu' Hpr' Hp' Ht' Hg'.
  unfold ids_fresh. rewrite Hn.
  repeat split; intros x Hx.
  - destruct (Hu' x Hx) as (y & H & <-). now apply Hu.
  - destruct (Hpr' x Hx) as (y & H & <-). now apply Hpr.
  - destruct (Hp' x Hx) as (y & H & <-). now apply Hp.
  - destruct (Ht' x Hx) as (y & H & <-). now apply Ht.
  - destruct (Hg' x Hx) as (y & H & <-). now apply Hg.
Qed.

Ltac old_or_new :=
  let x := fresh "x" in
  let Hx := fresh "Hx" in
  intros x Hx;
  cbn [users profiles posts tags groups set_users set_tags set_posts set_likes
       set_groupUsers set_groups] in Hx;
  first [ apply in_app_or in Hx as [Hx | [<- | []]]; [now left | now right]
        | now left ].

Ltac same_rows :=
  let x := fresh "x" in
  let Hx := fresh "Hx" in
  intros x Hx;
  cbn [users profiles posts tags groups set_users set_tags set_posts set_likes
       set_groupUsers set_groups] in Hx;
  try (apply filter_In in Hx as [Hx _]);
  now exists x.

Lemma user_create_fresh (s s' : Store) (username email : string)
  (password : option string) (u : User.t) :
  user_create s username email password = inr (u, s') -> ids_fresh s -> ids_fresh s'.
Proof.
  unfold user_create. destruct (existsb _ (users s)); [discriminate|].
  intros H Hs. injection H as <- <-.
  apply (ids_fresh_bump s); [exact Hs | reflexivity | old_or_new ..].
Qed.

Lemma tag_create_fresh (s s' : Store) (name : string) (t : Tag.t) :
  tag_create s name = inr (t, s') -> ids_fresh s -> ids_fresh s'.
Proof.
  unfold tag_create. destruct (existsb _ (tags s)); [discriminate|].
  intros H Hs. injection H as <- <-.
  apply (ids_fresh_bump s); [exact Hs | reflexivity | old_or_new ..].
Qed.

Lemma resume_callbacks_fresh (pending : list (string * option Tag.t)) (s : Store) :
  ids_fresh s ->
  ids_fresh (fst (resume_callbacks s pending))
  /\ next_uuid s <= next_uuid (fst (resume_callbacks s pending)).
Proof.
  revert s. induction pending as [|[tag [existing|]] rest IH]; intros s Hs;
    cbn [resume_callbacks].
  - cbn [fst]. split; [exact Hs | lia].
  - specialize (IH s Hs). now destruct (resume_callbacks s rest).
  - destruct (tag_create s tag) as [e | [t s1]] eqn:E.
    + specialize (IH s Hs). now destruct (resume_callbacks s rest).
    + specialize (IH s1 (tag_create_fresh s s1 tag t E Hs)).
      assert (Hn : next_uuid s1 = S (next_uuid s)).
      { unfold tag_create in E. destruct (existsb _ (tags s)); [discriminate|].
        now injection E as <- <-. }
      destruct (resume_callbacks s1 rest). cbn [fst] in *.
      split; [tauto | lia].
Qed.

Lemma post_create_fresh (s s' : Store) (b : PostBody) (tagIds : list Id) (p : Post.t) :
  post_create s b tagIds = inr (p, s') -> ids_fresh s -> ids_fresh s'.
Proof.
  unfold post_create.
  destruct (negb (user_exists s (pb_authorId b))); [discriminate|].
  destruct (match pb_groupId b with Some g => _ | None => _ end); [discriminate|].
  destruct (negb (forallb _ tagIds)); [discriminate|].
  intros H Hs. injection H as <- <-.
  apply (ids_fresh_bump s); [exact Hs | reflexivity | old_or_new ..].
Qed.

Lemma createPost_fresh (s : Store) (b : PostBody) :
  ids_fresh s -> ids_fresh (snd (createPost s b)).
Proof.
  intros Hs. unfold createPost.
  pose proof (resume_callbacks_fresh (issue_lookups s (pb_interestTechTags b)) s Hs)
    as [H1 _].
  destruct (resume_callbacks s _) as [s1 settled]. cbn [fst] in H1.
  destruct (promise_all settled) as [e | tagIds]; [exact H1|].
  destruct (post_create s1 b tagIds) as [e | [p s2]] eqn:E; [exact H1|].
  exact (post_create_fresh s1 s2 b tagIds p E H1).
Qed.

Lemma createGroup_fresh {J : JsString} (s : Store) (b : GroupBody) :
  ids_fresh s -> ids_fresh (snd (createGroup s b)).
Proof.
  intros Hs. unfold createGroup, group_create.
  destruct (existsb _ (groups s)); [exact Hs|].
  destruct (negb (user_exists s (gb_creatorId b))); [exact Hs|].
  unfold bind.
  destruct (groupUser_create_nested _ _ _) as [[[| |]|] | s2] eqn:E; try exact Hs.
  apply groupUser_create_nested_frame in E. cbn [ret snd]. rewrite E.
  apply (ids_fresh_bump s); [exact Hs | reflexivity | old_or_new ..].
Qed.

Lemma updatePost_fresh (s : Store) (id : Id) (title tinyContent : option string) :
  ids_fresh s -> ids_fresh (snd (updatePost s id title tinyContent)).
Proof.
  intros Hs. unfold updatePost, post_update.
  destruct (find _ (posts s)) as [p|] eqn:E; [|exact Hs].
  cbn [ret snd]. apply find_some in E as [Hp _].
  apply (ids_fresh_keep s); [exact Hs | reflexivity | same_rows | same_rows | | same_rows ..].
  intros q Hq. cbn [posts set_posts] in Hq.
  apply in_map_iff in Hq as (q0 & <- & Hq0).
  destruct (Post.id q0 =? id)%nat; [now exists p | now exists q0].
Qed.

Lemma editGroup_fresh (s : Store) (groupId : Id) (b : EditGroupBody) :
  ids_fresh s -> ids_fresh (snd (editGroup s groupId b)).
Proof.
  intros Hs. unfold editGroup, group_update.
  destruct (not_creator _ _); [exact Hs|].
  destruct (group_findUnique s groupId) as [g|] eqn:E; [|exact Hs].
  destruct (existsb _ (groups s)); [exact Hs|].
  cbn [ret truthy_object snd]. apply find_some in E as [Hg _].
  apply (ids_fresh_keep s); [exact Hs | reflexivity | same_rows .. |].
  intros h Hh. cbn [groups set_groups] in Hh.
  apply in_map_iff in Hh as (h0 & <- & Hh0).
  destruct (Group.id h0 =? groupId)%nat; [now exists g | now exists h0].
Qed.

(** Case analysis on the tests of a handler, leaving the store of each
    outcome in the goal. *)
Ltac run_handler :=
  repeat (cbn [ret throw bind negb truthy_object];
          match goal with
          | |- context [match ?x with _ => _ end] =>
              lazymatch x with
              | context [match _ with _ => _ end] => fail
              | _ => destruct x
              end
          end);
  cbn [ret throw bind negb truthy_object fst snd].

Lemma store_after_fresh {J : JsString} (B : Bcrypt) (s : Store) (r : Request) :
  ids_fresh s -> ids_fresh (store_after B s r).
Proof.
  intros Hs. destruct r; cbn [store_after].
  - unfold register.
    destruct (user_create s username (toLowerCase email) _)
      as [[[| |]|] | [u s']] eqn:E; try exact Hs.
    exact (user_create_fresh s s' _ _ _ u E Hs).
  - unfold registerSocial.
    destruct (user_create s name (toLowerCase email) None)
      as [[[| |]|] | [u s']] eqn:E; try exact Hs.
    exact (user_create_fresh s s' _ _ _ u E Hs).
  - now apply createPost_fresh.
  - now apply updatePost_fresh.
  - unfold likePost, post_update_likes_create. run_handler; exact Hs.
  - unfold unlikePost, like_delete. run_handler; exact Hs.
  - unfold deletePost, post_delete. destruct (post_exists s id); [|exact Hs].
    cbn [ret snd]. apply (ids_fresh_keep s); [exact Hs | reflexivity | same_rows ..].
  - now apply createGroup_fresh.
  - unfold addAdmin, groupUser_update. run_handler; exact Hs.
  - unfold removeAdmin, groupUser_update. run_handler; exact Hs.
  - now apply editGroup_fresh.
  - unfold joinGroup, groupUser_create. run_handler; exact Hs.
  - unfold leaveGroup, groupUser_delete. run_handler; exact Hs.
  - unfold removeMember, groupUser_delete. run_handler; exact Hs.
  - unfold deleteGroup, group_delete.
    destruct (group_findUnique s groupId) as [g|]; [|exact Hs].
    destruct (Group.creatorId g =? creatorId)%nat; [|exact Hs].
    cbn [ret snd]. apply (ids_fresh_keep s); [exact Hs | reflexivity | same_rows ..].
Qed.

Lemma posts_below_absent (s : Store) (n : nat) :
  (forall p, In p (posts s) -> Post.id p < n) ->
  existsb (fun p => (Post.id p =? n)%nat) (posts s) = false.
Proof.
  intros H. apply not_true_iff_false. intros E.
  apply existsb_exists in E as (p & Hp & E). apply Nat.eqb_eq in E.
  apply H in Hp. lia.
Qed.

(** X8.  A post creation answered OK and a fetch of the created post by
    its id send the same body: the stored row with the names of its tags.
    The row carries the author and title of the request, the type of the
    request or STANDARD when it has none, and a view count of zero. *)
Theorem createPost_then_getPost (s : Store) (b : PostBody) :
  ids_fresh s ->
  status (fst (createPost s b)) = OK ->
  exists p names,
    fst (createPost s b) = mkResponse OK (JPostTags p names)
    /\ getPost (snd (createPost s b)) (Post.id p) = mkResponse OK (JPostTags p names)
    /\ Post.authorId p = pb_authorId b
    /\ Post.title p = pb_title b
    /\ Post.createType p = default_createType (pb_createType b)
    /\ Post.groupId p = pb_groupId b
    /\ Post.views p = 0%Z.
Proof.
  intros Hs. unfold createPost.
  pose proof (resume_callbacks_fresh (issue_lookups s (pb_interestTechTags b)) s Hs)
    as [(_ & _ & Hp1 & _) _].
  destruct (resume_callbacks s _) as [s1 settled]. cbn [fst] in Hp1.
  destruct (promise_all settled) as [e | tagIds]; [discriminate|].
  unfold post_create.
  destruct (negb (user_exists s1 (pb_authorId b))); [discriminate|].
  destruct (match pb_groupId b with Some g => _ | None => _ end); [discriminate|].
  destruct (negb (forallb _ tagIds)); [discriminate|].
  cbn [ret fst snd]. intros _. do 2 eexists. split; [reflexivity|].
  split; [|repeat split].
  unfold getPost, post_findUnique. cbn [posts Post.id].
  rewrite find_app_fresh; [reflexivity | now apply posts_below_absent |].
  apply Nat.eqb_refl.
Qed.

Lemma createPost_then_getPost_witness :
  ids_fresh store_group
  /\ status (fst (createPost store_group
                    (mkPostBody 0 "hello" None (Some 2) None None None None None None
                                ["rust"; "coq"]))) = OK
  /\ exists p,
       getPost store_post (Post.id p) = mkResponse OK (JPostTags p ["rust"; "coq"])
       /\ Post.title p = "hello"
       /\ Post.createType p = STANDARD.
Proof.
  assert (Hfresh : ids_fresh store_group).
  { repeat split; intros x Hx; vm_compute in Hx;
      repeat (destruct Hx as [<- | Hx]; [vm_compute; lia|]); destruct Hx. }
  split; [exact Hfresh|]. split; [reflexivity|].
  destruct (createPost_then_getPost store_group
              (mkPostBody 0 "hello" None (Some 2) None None None None None None
                          ["rust"; "coq"]) Hfresh eq_refl)
    as (p & names & Hresp & Hget & _ & Htitle & Htype & _).
  exists p. vm_compute in Hresp. injection Hresp as <- <-.
  split; [exact Hget|]. split; reflexivity.
Defined.

(** X9.  After a registration answered Created, the session lookup by the
    lower-cased email is answered OK with the new user and the profile
    created with it, which is empty and has its onboarding flag unset. *)
Theorem register_then_getUserByEmail {J : JsString} (B : Bcrypt) (s s' : Store)
  (username email password : string) (r : Response) :
  ids_fresh s ->
  register B s username email password = (r, s') ->
  status r = CREATED ->
  exists u,
    getUserByEmail Connected s' (toLowerCase email)
    = mkResponse OK (JUserProfile u (Some (new_profile (User.id u))))
    /\ User.email u = toLowerCase email
    /\ User.username u = username
    /\ User.password u = Some (hashSync B password)
    /\ Profile.onBoardingCompleted (new_profile (User.id u)) = false.
Proof.
  intros (_ & Hpr & _) Hreg Hst.
  destruct (register_outcome B s username email password) as [[_ E] | [Hfree E]];
    rewrite E in Hreg; injection Hreg as <- <-; [discriminate Hst|].
  exists (User.mk (next_uuid s) (clock s) (toLowerCase email)
                  (Some (hashSync B password)) username None).
  split; [|repeat split].
  unfold getUserByEmail, user_findUnique_profile, user_findUnique, profile_of.
  cbn [users profiles set_users].
  rewrite find_app_fresh; [| exact Hfree | cbn [User.email]; apply String.eqb_refl].
  cbn [option_map User.id].
  rewrite find_app_fresh; [reflexivity | | apply Nat.eqb_refl].
  apply not_true_iff_false. intros Ex.
  apply existsb_exists in Ex as (p & Hp & Ex). apply Nat.eqb_eq in Ex.
  apply Hpr in Hp. lia.
Qed.

Lemma register_then_getUserByEmail_witness :
  ids_fresh empty_store
  /\ status (fst (register prefix_bcrypt empty_store "ann" "A@b.com" "secret")) = CREATED
  /\ getUserByEmail Connected store_one_user "a@b.com"
     = mkResponse OK
         (JUserProfile (User.mk 0 0 "a@b.com" (Some "$2b$10$secret") "ann" None)
                       (Some (new_profile 0))).
Proof.
  assert (Hfresh : ids_fresh empty_store) by (repeat split; intros x []).
  split; [exact Hfresh|]. split; [reflexivity|].
  destruct (register_then_getUserByEmail prefix_bcrypt empty_store store_one_user
              "ann" "A@b.com" "secret"
              (fst (register prefix_bcrypt empty_store "ann" "A@b.com" "secret"))
              Hfresh eq_refl eq_refl) as (u & Hget & _).
  vm_compute in Hget. injection Hget as <-. reflexivity.
Defined.

(** ** Posts: deletion, likes, fetches *)

Lemma in_filter_other {A} (key : A -> Id) (id : Id) (l : list A) (x : A) :
  In x (filter (fun y => negb (key y =? id)%nat) l) <-> In x l /\ key x <> id.
Proof.
  rewrite filter_In. rewrite negb_true_iff, Nat.eqb_neq. reflexivity.
Qed.

Lemma find_filtered_out (s : list Post.t) (id : Id) :
  find (fun p => (Post.id p =? id)%nat)
       (filter (fun p => negb (Post.id p =? id)%nat) s) = None.
Proof.
  apply find_none_existsb. apply not_true_iff_false. intros E.
  apply existsb_exists in E as (p & Hp & E).
  apply filter_In in Hp as [_ Hp]. now rewrite E in Hp.
Qed.

(** X10.  Deleting a stored post is answered OK; afterwards a fetch of
    that id is answered NotFound, no like, comment or tag link of the post
    is left, and the rows of every other post, every user, tag, group and
    membership are as before.  Deleting an id no post has is answered
    NotFound and changes nothing. *)
Theorem deletePost_cascade (s : Store) (id : Id) :
  (post_exists s id = true ->
   fst (deletePost s id) = message OK "Post deleted"
   /\ getPost (snd (deletePost s id)) id
      = message NOT_FOUND "No post with that ID found"
   /\ (forall q, In q (posts (snd (deletePost s id)))
                 <-> In q (posts s) /\ Post.id q <> id)
   /\ (forall l, In l (likes (snd (deletePost s id)))
                 <-> In l (likes s) /\ Like.postId l <> id)
   /\ (forall c, In c (comments (snd (deletePost s id)))
                 <-> In c (comments s) /\ Comment.postId c <> id)
   /\ (forall r, In r (postTags (snd (deletePost s id)))
                 <-> In r (postTags s) /\ fst r <> id)
   /\ users (snd (deletePost s id)) = users s
   /\ tags (snd (deletePost s id)) = tags s
   /\ groups (snd (deletePost s id)) = groups s
   /\ groupUsers (snd (deletePost s id)) = groupUsers s)
  /\
  (post_exists s id = false ->
   deletePost s id = (message NOT_FOUND "Record to delete does not exist", s)).
Proof.
  unfold deletePost, post_delete. split; intros Hex; rewrite Hex; [|reflexivity].
  cbn [ret fst snd posts likes comments postTags users tags groups groupUsers].
  split; [reflexivity|]. split.
  - unfold getPost, post_findUnique. cbn [posts]. now rewrite find_filtered_out.
  - split; [intros q; apply (in_filter_other Post.id)|].
    split; [intros l; apply (in_filter_other Like.postId)|].
    split; [intros c; apply (in_filter_other Comment.postId)|].
    split; [intros r; apply (in_filter_other (@fst Id Id))|].
    repeat split.
Qed.

Lemma deletePost_cascade_witness :
  post_exists store_liked 5 = true
  /\ fst (deletePost store_liked 5) = message OK "Post deleted"
  /\ likes (snd (deletePost store_liked 5)) = []
  /\ postTags (snd (deletePost store_liked 5)) = []
  /\ getPost (snd (deletePost store_liked 5)) 5
     = message NOT_FOUND "No post with that ID found"
  /\ post_exists store_liked 9 = false
  /\ deletePost store_liked 9
     = (message NOT_FOUND "Record to delete does not exist", store_liked).
Proof.
  pose proof (deletePost_cascade store_liked 5) as [Hdel _].
  pose proof (deletePost_cascade store_liked 9) as [_ Hmiss].
  destruct (Hdel eq_refl) as (Hok & Hget & _).
  split; [reflexivity|]. split; [exact Hok|]. split; [reflexivity|].
  split; [reflexivity|]. split; [exact Hget|]. split; [reflexivity|].
  now apply Hmiss.
Defined.

Lemma filter_none_matching {A} (f : A -> bool) (l : list A) :
  existsb f l = false -> filter (fun x => negb (f x)) l = l.
Proof.
  induction l as [|a l IH]; [reflexivity|]. cbn [existsb filter].
  intros H. apply orb_false_iff in H as [Ha Hl]. rewrite Ha. cbn [negb].
  now rewrite IH.
Qed.

Lemma existsb_filter_out {A} (f : A -> bool) (l : list A) :
  existsb f (filter (fun x => negb (f x)) l) = false.
Proof.
  apply not_true_iff_false. intros E.
  apply existsb_exists in E as (x & Hx & E).
  apply filter_In in Hx as [_ Hx]. now rewrite E in Hx.
Qed.

Lemma likePost_OK_inv (s : Store) (postId likerId : Id) :
  status (fst (likePost s postId likerId)) = OK ->
  post_exists s postId = true
  /\ existsb (same_like likerId postId) (likes s) = false
  /\ user_exists s likerId = true
  /\ likePost s postId likerId
     = (message OK "You now like this post",
        set_likes s (likes s ++ [Like.mk likerId postId])).
Proof.
  unfold likePost, post_update_likes_create.
  destruct (post_exists s postId); cbn [negb]; [|discriminate].
  destruct (existsb (same_like likerId postId) (likes s)); [discriminate|].
  destruct (user_exists s likerId); cbn [negb]; [|discriminate].
  intros _. repeat split.
Qed.

(** X11.  A like answered OK followed by the unlike of the same pair
    leaves the store exactly as it was before the like. *)
Theorem like_then_unlike (s : Store) (postId likerId : Id) :
  status (fst (likePost s postId likerId)) = OK ->
  unlikePost (snd (likePost s postId likerId)) postId likerId
  = (message OK "Unliked this post", s).
Proof.
  intros Hok. destruct (likePost_OK_inv s postId likerId Hok) as (_ & Hfree & _ & E).
  rewrite E. cbn [snd]. unfold unlikePost, like_delete. cbn [likes set_likes].
  rewrite existsb_snoc.
  replace (same_like likerId postId (Like.mk likerId postId)) with true
    by (unfold same_like; cbn; now rewrite !Nat.eqb_refl).
  rewrite orb_true_r. cbn [ret]. rewrite filter_app, filter_none_matching by exact Hfree.
  cbn [filter].
  replace (same_like likerId postId (Like.mk likerId postId)) with true
    by (unfold same_like; cbn; now rewrite !Nat.eqb_refl).
  cbn [negb]. rewrite app_nil_r. now destruct s.
Qed.

Lemma like_then_unlike_witness :
  status (fst (likePost store_post 5 1)) = OK
  /\ unlikePost store_liked 5 1 = (message OK "Unliked this post", store_post).
Proof.
  split; [reflexivity|].
  exact (like_then_unlike store_post 5 1 eq_refl).
Defined.

(** X12.  Repeating a like that was answered OK is answered Conflict, and
    repeating an unlike that was answered OK is answered NotFound; neither
    repetition changes the store. *)
Theorem like_unlike_repeated (s : Store) (postId likerId : Id) :
  (status (fst (likePost s postId likerId)) = OK ->
   likePost (snd (likePost s postId likerId)) postId likerId
   = (message CONFLICT "You can't like a post twice",
      snd (likePost s postId likerId)))
  /\
  (status (fst (unlikePost s postId likerId)) = OK ->
   unlikePost (snd (unlikePost s postId likerId)) postId likerId
   = (message NOT_FOUND "Record to delete does not exist",
      snd (unlikePost s postId likerId))).
Proof.
  split; intros Hok.
  - destruct (likePost_OK_inv s postId likerId Hok) as (Hp & _ & _ & E).
    rewrite E. cbn [snd]. unfold likePost, post_update_likes_create.
    change (post_exists (set_likes s _) postId) with (post_exists s postId).
    rewrite Hp. cbn [negb likes set_likes]. rewrite existsb_snoc.
    replace (same_like likerId postId (Like.mk likerId postId)) with true
      by (unfold same_like; cbn; now rewrite !Nat.eqb_refl).
    now rewrite orb_true_r.
  - assert (E : unlikePost s postId likerId
                = (message OK "Unliked this post",
                   set_likes s (filter (fun l => negb (same_like likerId postId l))
                                       (likes s)))).
    { revert Hok. unfold unlikePost, like_delete.
      now destruct (existsb (same_like likerId postId) (likes s)). }
    rewrite E. cbn [snd]. unfold unlikePost, like_delete. cbn [likes set_likes].
    now rewrite (existsb_filter_out (same_like likerId postId) (likes s)).
Qed.

Lemma like_unlike_repeated_witness :
  status (fst (likePost store_post 5 1)) = OK
  /\ likePost store_liked 5 1
     = (message CONFLICT "You can't like a post twice", store_liked)
  /\ status (fst (unlikePost store_liked 5 1)) = OK
  /\ unlikePost store_post 5 1
     = (message NOT_FOUND "Record to delete does not exist", store_post).
Proof.
  pose proof (like_unlike_repeated store_post 5 1) as [Hlike _].
  pose proof (like_unlike_repeated store_liked 5 1) as [_ Hunlike].
  split; [reflexivity|]. split; [exact (Hlike eq_refl)|].
  split; [reflexivity|]. exact (Hunlike eq_refl).
Defined.

Lemma find_replaced (l : list Post.t) (id : Id) (p p' : Post.t) :
  find (fun q => (Post.id q =? id)%nat) l = Some p ->
  Post.id p' = id ->
  find (fun q => (Post.id q =? id)%nat)
       (map (fun q => if (Post.id q =? id)%nat then p' else q) l) = Some p'.
Proof.
  intros Hfind Hid. induction l as [|q l IH]; [discriminate|].
  cbn [find map] in *. destruct (Post.id q =? id)%nat eqn:E.
  - now rewrite Hid, Nat.eqb_refl.
  - rewrite E. now apply IH.
Qed.

(** X13.  After an edit answered OK, a fetch of that id sends the row the
    edit sent back, with the tag names the post had before the edit. *)
Theorem updatePost_then_getPost (s : Store) (id : Id)
  (title tinyContent : option string) (p' : Post.t) :
  fst (updatePost s id title tinyContent) = mkResponse OK (JPost p') ->
  getPost (snd (updatePost s id title tinyContent)) id
  = mkResponse OK (JPostTags p' (tag_names_of s id)).
Proof.
  unfold updatePost, post_update.
  destruct (find (fun p => (Post.id p =? id)%nat) (posts s)) as [p|] eqn:E;
    [|discriminate].
  cbn [ret fst snd]. intros H. injection H as <-.
  assert (Hid : Post.id p = id).
  { apply find_some in E as [_ E]. now apply Nat.eqb_eq. }
  unfold getPost, post_findUnique. cbn [posts set_posts].
  erewrite find_replaced; [| exact E | exact Hid]. cbn [Post.id].
  now rewrite Hid.
Qed.

Lemma updatePost_then_getPost_witness :
  fst (updatePost store_liked 5 (Some "hi") (Some "short"))
  = mkResponse OK (JPost (Post.mk 5 0 "hi" STANDARD (Some 2) None None None None None
                                  (Some "short") 0 0))
  /\ getPost (snd (updatePost store_liked 5 (Some "hi") (Some "short"))) 5
     = mkResponse OK
         (JPostTags (Post.mk 5 0 "hi" STANDARD (Some 2) None None None None None
                             (Some "short") 0 0)
                    ["rust"; "coq"]).
Proof.
  split; [reflexivity|].
  exact (updatePost_then_getPost store_liked 5 (Some "hi") (Some "short") _ eq_refl).
Defined.

Lemma in_post_findMany (s : Store) (where_ : Post.t -> bool)
  (row : Post.t * list string) :
  In row (post_findMany s where_)
  <-> In row (post_findMany s (fun _ => true)) /\ where_ (fst row) = true.
Proof.
  unfold post_findMany. rewrite !in_map_iff. split.
  - intros (p & <- & Hp). apply filter_In in Hp as [Hp Hw].
    split; [|exact Hw]. exists p. split; [reflexivity|].
    apply filter_In. now split.
  - intros [(p & <- & Hp) Hw]. cbn [fst] in Hw.
    apply filter_In in Hp as [Hp _].
    exists p. split; [reflexivity|]. apply filter_In. now split.
Qed.

Lemma count_by_type (l : list Post.t) :
  length (filter (fun p => PostType_eqb (Post.createType p) MEETUP) l)
  + length (filter (fun p => PostType_eqb (Post.createType p) PODCAST) l)
  + length (filter (fun p => PostType_eqb (Post.createType p) STANDARD) l)
  = length l.
Proof.
  induction l as [|p l IH]; [reflexivity|].
  cbn [filter]. destruct (Post.createType p); cbn [PostType_eqb length]; lia.
Qed.

(** X14.  The listing by type answers InternalServerError to a type string
    that is not one of MEETUP, PODCAST and STANDARD spelled exactly so.  For
    each of the three it answers OK with the rows of the full listing that
    have that type, and the three listings together have as many rows as
    the full one. *)
Theorem listPostsByType_partition (s : Store) :
  (forall type, PostType_of_string type = None ->
     listPostsByType s type
     = mkRead INTERNAL_SERVER_ERROR (RMessage "Internal server error"))
  /\
  exists all meetups podcasts standards,
    listPosts s = mkRead OK (RPosts all)
    /\ listPostsByType s "MEETUP" = mkRead OK (RPosts meetups)
    /\ listPostsByType s "PODCAST" = mkRead OK (RPosts podcasts)
    /\ listPostsByType s "STANDARD" = mkRead OK (RPosts standards)
    /\ (forall row, In row meetups
                    <-> In row all /\ Post.createType (fst row) = MEETUP)
    /\ (forall row, In row podcasts
                    <-> In row all /\ Post.createType (fst row) = PODCAST)
    /\ (forall row, In row standards
                    <-> In row all /\ Post.createType (fst row) = STANDARD)
    /\ length meetups + length podcasts + length standards = length all.
Proof.
  split.
  - intros type H. unfold listPostsByType, post_findMany_type. now rewrite H.
  - do 4 eexists. split; [reflexivity|]. do 3 (split; [reflexivity|]).
    split; [|split; [|split]].
    + intros row. rewrite in_post_findMany.
      destruct (Post.createType (fst row)); cbn; intuition discriminate.
    + intros row. rewrite in_post_findMany.
      destruct (Post.createType (fst row)); cbn; intuition discriminate.
    + intros row. rewrite in_post_findMany.
      destruct (Post.createType (fst row)); cbn; intuition discriminate.
    + unfold post_findMany. rewrite !length_map.
      rewrite (count_by_type (posts s)).
      f_equal. clear. induction (posts s) as [|p l IH]; [reflexivity|].
      cbn [filter]. now rewrite <- IH.
Qed.

Lemma listPostsByType_partition_witness :
  PostType_of_string "meetup" = None
  /\ listPostsByType store_liked "meetup"
     = mkRead INTERNAL_SERVER_ERROR (RMessage "Internal server error")
  /\ listPostsByType store_liked "PODCAST" = mkRead OK (RPosts [])
  /\ listPostsByType store_liked "STANDARD" = listPosts store_liked.
Proof.
  pose proof (listPostsByType_partition store_liked) as [Hbad _].
  split; [reflexivity|]. split; [now apply Hbad|].
  split; reflexivity.
Defined.

(** ** Groups, continued *)

Lemma group_create_inv (s s' : Store) (name : string) (bio : option string)
  (profileImage : string) (coverImage : option string) (creatorId : Id)
  (rows : list MemberInput) (g : Group.t) :
  group_create s name bio profileImage coverImage creatorId rows = inr (g, s') ->
  existsb (same_group_key name creatorId) (groups s) = false
  /\ user_exists s creatorId = true
  /\ g = Group.mk (next_uuid s) name profileImage coverImage bio (clock s) creatorId
  /\ groupUser_create_nested
       (mkStore (users s) (profiles s) (posts s) (tags s) (postTags s) (likes s)
                (comments s) (groups s ++ [g]) (groupUsers s) (S (next_uuid s))
                (clock s))
       (next_uuid s) rows = inr s'.
Proof.
  unfold group_create.
  destruct (existsb _ (groups s)); [discriminate|].
  destruct (user_exists s creatorId); cbn [negb]; [|discriminate].
  unfold bind. destruct (groupUser_create_nested _ _ rows) as [e | s2] eqn:E;
    [discriminate|].
  intros H. injection H as <- <-. repeat split. exact E.
Qed.

Lemma find_user_by_id (us : list User.t) (id : Id) :
  existsb (fun u => (User.id u =? id)%nat) us = true ->
  exists u, find (fun u => (User.id u =? id)%nat) us = Some u /\ User.id u = id.
Proof.
  intros H. destruct (find (fun u => (User.id u =? id)%nat) us) as [u|] eqn:E.
  - exists u. split; [reflexivity|]. apply find_some in E as [_ E].
    now apply Nat.eqb_eq.
  - apply find_none_existsb in E. congruence.
Qed.

(** X15.  After a group creation answered OK on a store whose identifiers
    are fresh, a fetch of the new group is answered OK with that group, its
    creator, and its membership rows, among which are the creator's row
    with the admin flag and one row for every supplied member, with the
    flag the request gave it or unset.  Memberships stored before are
    kept. *)
Theorem createGroup_then_getGroup {J : JsString} (s s' : Store) (b : GroupBody) (g : Group.t) :
  ids_fresh s ->
  createGroup s b = (mkResponse OK (JGroup g), s') ->
  exists creator rows,
    getGroup s' (Group.id g) = mkRead OK (RGroup g (Some creator) rows)
    /\ User.id creator = gb_creatorId b
    /\ In (GroupUser.mk (gb_creatorId b) (Group.id g) true) rows
    /\ (forall m, In m (gb_members b) ->
          In (GroupUser.mk (mi_userId m) (Group.id g)
                           match mi_isAdmin m with Some a => a | None => false end)
             rows)
    /\ (forall gu, In gu (groupUsers s) -> In gu (groupUsers s')).
Proof.
  intros (_ & _ & _ & _ & Hg) H.
  destruct (createGroup_OK_inv s s' b _ H eq_refl) as (g' & Hg' & Hc).
  injection Hg' as <-.
  apply group_create_inv in Hc as (_ & Hcreator & -> & Hrows).
  pose proof (groupUser_create_nested_frame _ _ _ _ Hrows) as Hframe.
  apply groupUser_create_nested_rows in Hrows as (Hgroups & Hold & Hnew).
  cbn [groups groupUsers Group.id] in *.
  destruct (find_user_by_id (users s) (gb_creatorId b) Hcreator) as (u & Hu & Hid).
  assert (Husers : users s' = users s) by (rewrite Hframe; reflexivity).
  exists u.
  exists (filter (fun gu => (GroupUser.groupId gu =? next_uuid s)%nat) (groupUsers s')).
  split; [|split; [exact Hid|]].
  - unfold getGroup, group_findUnique. rewrite Hgroups.
    rewrite find_app_fresh; cbn [Group.id Group.creatorId].
    + rewrite Husers, Hu. reflexivity.
    + apply not_true_iff_false. intros E.
      apply existsb_exists in E as (h & Hh & E). apply Nat.eqb_eq in E.
      apply Hg in Hh. lia.
    + apply Nat.eqb_refl.
  - split; [|split; [|exact Hold]].
    + apply filter_In. split; [exact (Hnew _ (or_introl eq_refl))|].
      cbn [GroupUser.groupId]. apply Nat.eqb_refl.
    + intros m Hm. apply filter_In. split; [exact (Hnew _ (or_intror Hm))|].
      cbn [GroupUser.groupId]. apply Nat.eqb_refl.
Qed.

Lemma createGroup_then_getGroup_witness :
  ids_fresh store_two_users
  /\ createGroup store_two_users
       (mkGroupBody "Rocq" "Proofs" None None 0 [mkMemberInput 1 None])
     = (mkResponse OK (JGroup (Group.mk 2 "rocq" "" None (Some "proofs") 0 0)),
        store_group)
  /\ getGroup store_group 2
     = mkRead OK
         (RGroup (Group.mk 2 "rocq" "" None (Some "proofs") 0 0)
                 (Some (User.mk 0 0 "a@b.com" (Some "$2b$10$secret") "ann" None))
                 [GroupUser.mk 0 2 true; GroupUser.mk 1 2 false]).
Proof.
  assert (Hfresh : ids_fresh store_two_users).
  { repeat split; intros x Hx; vm_compute in Hx;
      repeat (destruct Hx as [<- | Hx]; [vm_compute; lia|]); destruct Hx. }
  assert (Hrun : createGroup store_two_users
                   (mkGroupBody "Rocq" "Proofs" None None 0 [mkMemberInput 1 None])
                 = (mkResponse OK (JGroup (Group.mk 2 "rocq" "" None (Some "proofs") 0 0)),
                    store_group)) by reflexivity.
  split; [exact Hfresh|]. split; [exact Hrun|].
  destruct (createGroup_then_getGroup store_two_users store_group
              (mkGroupBody "Rocq" "Proofs" None None 0 [mkMemberInput 1 None])
              (Group.mk 2 "rocq" "" None (Some "proofs") 0 0) Hfresh Hrun)
    as (creator & rows & Hget & _).
  vm_compute in Hget. injection Hget as <- <-. reflexivity.
Defined.

Lemma groupUser_insert_repeated (before after : list MemberInput) (m : MemberInput)
  (gus : list GroupUser.t) (groupId : Id) :
  existsb (same_membership (mi_userId m) groupId) gus = true ->
  groupUser_insert gus groupId (before ++ m :: after) = None.
Proof.
  revert gus. induction before as [|x before IH]; intros gus Hm;
    cbn [app groupUser_insert].
  - now rewrite Hm.
  - destruct (existsb (same_membership (mi_userId x) groupId) gus); [reflexivity|].
    apply IH. rewrite existsb_app, Hm. reflexivity.
Qed.

(** X16.  A group creation that lists the creator among the members is
    answered Conflict "Group already exists" although no such group is
    stored, and stores nothing: the creator's own row is inserted first,
    and the member row then breaks the key of the memberships.  (Stated
    for a stored creator and stored members ahead of that entry.) *)
Theorem createGroup_creator_as_member {J : JsString} (s : Store) (b : GroupBody)
  (before after : list MemberInput) (m : MemberInput) :
  user_exists s (gb_creatorId b) = true ->
  gb_members b = before ++ m :: after ->
  mi_userId m = gb_creatorId b ->
  (forall x, In x before -> user_exists s (mi_userId x) = true) ->
  createGroup s b = (message CONFLICT "Group already exists", s).
Proof.
  intros Hcreator Hmembers Hm Hbefore. unfold createGroup, group_create.
  destruct (existsb _ (groups s)); [reflexivity|].
  rewrite Hcreator. cbn [negb]. rewrite Hmembers.
  unfold groupUser_create_nested. cbn [groupUser_insert mi_userId groupUsers].
  match goal with
  | |- context [existsb ?f (groupUsers s)] => destruct (existsb f (groupUsers s))
  end; [reflexivity|].
  rewrite groupUser_insert_repeated; [reflexivity|].
  rewrite existsb_snoc, Hm.
  unfold same_membership at 2. cbn [GroupUser.userId GroupUser.groupId].
  rewrite !Nat.eqb_refl. apply orb_true_r.
Qed.

Lemma createGroup_creator_as_member_witness :
  user_exists store_two_users 0 = true
  /\ existsb (same_group_key "solo" 0) (groups store_two_users) = false
  /\ createGroup store_two_users
       (mkGroupBody "Solo" "me" None None 0 [mkMemberInput 1 None; mkMemberInput 0 None])
     = (message CONFLICT "Group already exists", store_two_users).
Proof.
  split; [reflexivity|]. split; [reflexivity|].
  apply (createGroup_creator_as_member store_two_users
           (mkGroupBody "Solo" "me" None None 0
                        [mkMemberInput 1 None; mkMemberInput 0 None])
           [mkMemberInput 1 None] [] (mkMemberInput 0 None));
    try reflexivity.
  intros x [<- | []]. reflexivity.
Defined.

(** The repeated key is reported whoever the members ahead of it are: with
    an unknown user ahead of the creator's entry the answer is Conflict,
    while an unknown member alone breaks the foreign key and the answer is
    InternalServerError. *)
Example createGroup_unknown_member_ahead :
  user_exists store_two_users 9 = false
  /\ createGroup store_two_users
       (mkGroupBody "solo" "bio" None None 0
                    [mkMemberInput 9 None; mkMemberInput 0 None])
     = (message CONFLICT "Group already exists", store_two_users)
  /\ createGroup store_two_users
       (mkGroupBody "solo" "bio" None None 0 [mkMemberInput 9 None])
     = (message INTERNAL_SERVER_ERROR "Internal server error", store_two_users).
Proof. repeat split. Qed.

(** ** Memberships *)

(** X17.  Joining a group one already belongs to is answered Conflict.
    Otherwise, joining as a user that is not stored, or a group that is
    not stored, is answered InternalServerError (the foreign-key error is
    not told apart).  Neither changes the store. *)
Theorem joinGroup_refused (s : Store) (groupId userId : Id) :
  (existsb (same_membership userId groupId) (groupUsers s) = true ->
   joinGroup s groupId userId = (message CONFLICT "User already in group", s))
  /\
  (existsb (same_membership userId groupId) (groupUsers s) = false ->
   user_exists s userId = false \/ group_exists s groupId = false ->
   joinGroup s groupId userId
   = (message INTERNAL_SERVER_ERROR "Internal server error", s)).
Proof.
  unfold joinGroup, groupUser_create. split.
  - intros ->. reflexivity.
  - intros -> [-> | ->]; [reflexivity|].
    now rewrite orb_true_r.
Qed.

Lemma joinGroup_refused_witness :
  existsb (same_membership 1 2) (groupUsers store_liked) = true
  /\ joinGroup store_liked 2 1 = (message CONFLICT "User already in group", store_liked)
  /\ group_exists store_liked 8 = false
  /\ joinGroup store_liked 8 1
     = (message INTERNAL_SERVER_ERROR "Internal server error", store_liked).
Proof.
  pose proof (joinGroup_refused store_liked 2 1) as [Hdup _].
  pose proof (joinGroup_refused store_liked 8 1) as [_ Hmissing].
  split; [reflexivity|]. split; [exact (Hdup eq_refl)|].
  split; [reflexivity|]. apply Hmissing; [reflexivity | now right].
Defined.

Lemma joinGroup_OK_inv (s : Store) (groupId userId : Id) :
  status (fst (joinGroup s groupId userId)) = OK ->
  existsb (same_membership userId groupId) (groupUsers s) = false
  /\ joinGroup s groupId userId
     = (message OK "You joined group",
        set_groupUsers s (groupUsers s ++ [GroupUser.mk userId groupId false])).
Proof.
  unfold joinGroup, groupUser_create.
  destruct (existsb (same_membership userId groupId) (groupUsers s)); [discriminate|].
  destruct (negb (user_exists s userId) || negb (group_exists s groupId));
    [discriminate|].
  intros _. split; reflexivity.
Qed.

Lemma same_membership_refl (userId groupId : Id) (isAdmin : bool) :
  same_membership userId groupId (GroupUser.mk userId groupId isAdmin) = true.
Proof. unfold same_membership. cbn. now rewrite !Nat.eqb_refl. Qed.

(** X18.  After a join answered OK the new member has a row without the
    admin flag, a second join is answered Conflict, and leaving the group
    again restores the store exactly as it was before the join. *)
Theorem join_then_leave (s : Store) (groupId userId : Id) :
  status (fst (joinGroup s groupId userId)) = OK ->
  let s' := snd (joinGroup s groupId userId) in
  find (same_membership userId groupId) (groupUsers s')
  = Some (GroupUser.mk userId groupId false)
  /\ joinGroup s' groupId userId = (message CONFLICT "User already in group", s')
  /\ leaveGroup s' groupId userId = (message OK "You left the group", s).
Proof.
  intros Hok. destruct (joinGroup_OK_inv s groupId userId Hok) as [Hfree E].
  rewrite E. cbn [snd groupUsers set_groupUsers]. split; [|split].
  - apply find_app_fresh; [exact Hfree | apply same_membership_refl].
  - unfold joinGroup, groupUser_create. cbn [groupUsers set_groupUsers].
    now rewrite existsb_snoc, same_membership_refl, orb_true_r.
  - unfold leaveGroup, groupUser_delete. cbn [groupUsers set_groupUsers].
    rewrite existsb_snoc, same_membership_refl, orb_true_r. cbn [ret].
    rewrite filter_app, filter_none_matching by exact Hfree.
    cbn [filter]. rewrite same_membership_refl. cbn [negb].
    rewrite app_nil_r. now destruct s.
Qed.

Lemma join_then_leave_witness :
  status (fst (joinGroup store_post 2 1)) = CONFLICT
  /\ status (fst (leaveGroup store_post 2 1)) = OK
  /\ status (fst (joinGroup (snd (leaveGroup store_post 2 1)) 2 1)) = OK
  /\ leaveGroup (snd (joinGroup (snd (leaveGroup store_post 2 1)) 2 1)) 2 1
     = (message OK "You left the group", snd (leaveGroup store_post 2 1)).
Proof.
  split; [reflexivity|]. split; [reflexivity|]. split; [reflexivity|].
  apply (join_then_leave (snd (leaveGroup store_post 2 1)) 2 1 eq_refl).
Defined.

(** X19.  Leaving a group one does not belong to is answered NotFound and
    changes nothing.  Leaving a group one belongs to is answered OK, after
    which one does not belong to it, every other membership is as before,
    and a second leave is answered NotFound.  When the creator of the
    group asks, removing a member leaves the same store as that member
    leaving, and is answered OK or NotFound in the same cases. *)
Theorem leaveGroup_outcomes (s : Store) (groupId userId : Id) :
  (existsb (same_membership userId groupId) (groupUsers s) = false ->
   leaveGroup s groupId userId = (message NOT_FOUND "Not in the group", s))
  /\
  (existsb (same_membership userId groupId) (groupUsers s) = true ->
   let s' := snd (leaveGroup s groupId userId) in
   fst (leaveGroup s groupId userId) = message OK "You left the group"
   /\ existsb (same_membership userId groupId) (groupUsers s') = false
   /\ (forall gu, same_membership userId groupId gu = false ->
                  (In gu (groupUsers s') <-> In gu (groupUsers s)))
   /\ leaveGroup s' groupId userId = (message NOT_FOUND "Not in the group", s'))
  /\
  (forall g,
     group_findUnique s groupId = Some g ->
     snd (removeMember s groupId userId (Group.creatorId g))
     = snd (leaveGroup s groupId userId)
     /\ status (fst (removeMember s groupId userId (Group.creatorId g)))
        = status (fst (leaveGroup s groupId userId))).
Proof.
  split; [|split].
  - intros H. unfold leaveGroup, groupUser_delete. now rewrite H.
  - intros H. unfold leaveGroup, groupUser_delete. rewrite H.
    cbn [ret fst snd groupUsers set_groupUsers].
    split; [reflexivity|]. split; [apply existsb_filter_out|]. split.
    + intros gu Hgu. rewrite filter_In, Hgu. cbn [negb]. tauto.
    + now rewrite existsb_filter_out.
  - intros g Hg. unfold removeMember, leaveGroup, groupUser_delete.
    rewrite Hg. cbn [not_creator]. rewrite Nat.eqb_refl. cbn [negb].
    destruct (existsb (same_membership userId groupId) (groupUsers s));
      split; reflexivity.
Qed.

Lemma leaveGroup_outcomes_witness :
  existsb (same_membership 7 2) (groupUsers store_liked) = false
  /\ leaveGroup store_liked 2 7 = (message NOT_FOUND "Not in the group", store_liked)
  /\ existsb (same_membership 1 2) (groupUsers store_liked) = true
  /\ groupUsers (snd (leaveGroup store_liked 2 1)) = [GroupUser.mk 0 2 true]
  /\ removeMember store_liked 2 1 0
     = (message OK "User removed", snd (leaveGroup store_liked 2 1)).
Proof.
  pose proof (leaveGroup_outcomes store_liked 2 7) as (Hmissing & _ & _).
  split; [reflexivity|]. split; [exact (Hmissing eq_refl)|].
  split; [reflexivity|]. split; reflexivity.
Defined.

(** ** Groups: deletion and edits *)

Lemma in_group_spec (p : Post.t) (id : Id) :
  negb match Post.groupId p with
       | Some g' => (g' =? id)%nat
       | None => false
       end = true
  <-> Post.groupId p <> Some id.
Proof.
  destruct (Post.groupId p) as [g'|]; cbn.
  - rewrite negb_true_iff, Nat.eqb_neq. split; congruence.
  - split; [discriminate | reflexivity].
Qed.

(** X20.  When its creator deletes a stored group, the answer is OK with
    the group as it was; afterwards a fetch of the group is answered
    NotFound, none of its memberships and none of its posts is left, a
    like is left exactly when no post of the group carried its post id,
    and every user, tag and other group is as before. *)
Theorem deleteGroup_cascade (s : Store) (groupId : Id) (g : Group.t) :
  group_findUnique s groupId = Some g ->
  let s' := snd (deleteGroup s groupId (Group.creatorId g)) in
  fst (deleteGroup s groupId (Group.creatorId g)) = mkResponse OK (JGroup g)
  /\ getGroup s' groupId = mkRead NOT_FOUND (RMessage "Group not found")
  /\ (forall h, In h (groups s') <-> In h (groups s) /\ Group.id h <> groupId)
  /\ (forall gu, In gu (groupUsers s')
                 <-> In gu (groupUsers s) /\ GroupUser.groupId gu <> groupId)
  /\ (forall p, In p (posts s') <-> In p (posts s) /\ Post.groupId p <> Some groupId)
  /\ (forall l, In l (likes s')
                <-> In l (likes s)
                    /\ ~ (exists p, In p (posts s) /\ Post.id p = Like.postId l
                                    /\ Post.groupId p = Some groupId))
  /\ users s' = users s
  /\ tags s' = tags s.
Proof.
  intros Hg. unfold deleteGroup, group_delete. rewrite Hg, Nat.eqb_refl.
  cbn [ret fst snd groups groupUsers posts likes users tags].
  split; [reflexivity|]. split; [|split; [|split; [|split; [|split]]]].
  - unfold getGroup, group_findUnique. cbn [groups].
    replace (find _ (filter _ (groups s))) with (@None Group.t); [reflexivity|].
    symmetry. apply find_none_existsb. apply not_true_iff_false. intros E.
    apply existsb_exists in E as (h & Hh & E).
    apply filter_In in Hh as [_ Hh]. now rewrite E in Hh.
  - intros h. apply (in_filter_other Group.id).
  - intros gu. apply (in_filter_other GroupUser.groupId).
  - intros p. rewrite filter_In, in_group_spec. reflexivity.
  - intros l. rewrite filter_In, negb_true_iff.
    rewrite <- not_true_iff_false, existsb_exists.
    split; intros [Hl Hno]; (split; [exact Hl|]); intros (p & Hp & H); apply Hno;
      exists p; (split; [exact Hp|]).
    + destruct H as [Hid Hgrp]. rewrite Hgrp, Hid, !Nat.eqb_refl. reflexivity.
    + apply andb_true_iff in H as [Hid Hgrp]. apply Nat.eqb_eq in Hid.
      split; [exact Hid|]. destruct (Post.groupId p) as [g'|]; [|discriminate].
      apply Nat.eqb_eq in Hgrp. now subst.
  - split; reflexivity.
Qed.

Lemma deleteGroup_cascade_witness :
  group_findUnique store_liked 2 = Some (Group.mk 2 "rocq" "" None (Some "proofs") 0 0)
  /\ fst (deleteGroup store_liked 2 0)
     = mkResponse OK (JGroup (Group.mk 2 "rocq" "" None (Some "proofs") 0 0))
  /\ getGroup (snd (deleteGroup store_liked 2 0)) 2
     = mkRead NOT_FOUND (RMessage "Group not found")
  /\ posts (snd (deleteGroup store_liked 2 0)) = []
  /\ likes (snd (deleteGroup store_liked 2 0)) = []
  /\ groupUsers (snd (deleteGroup store_liked 2 0)) = []
  /\ users (snd (deleteGroup store_liked 2 0)) = users store_liked.
Proof.
  assert (Hg : group_findUnique store_liked 2
               = Some (Group.mk 2 "rocq" "" None (Some "proofs") 0 0)) by reflexivity.
  destruct (deleteGroup_cascade store_liked 2 _ Hg) as (Hok & Hget & _).
  split; [exact Hg|]. split; [exact Hok|]. split; [exact Hget|].
  repeat split.
Defined.

(** X21.  An edit by the creator that would give the group the name of
    another group of the same creator is answered InternalServerError (the
    unique-constraint error is not told apart, unlike in the creation) and
    changes nothing.  Any other edit by the creator is answered OK with
    the edited group: its id, creator and creation time are kept, a field
    absent from the body keeps its value, the name is written as given
    (not lower-cased), and no other table changes. *)
Theorem editGroup_by_creator (s : Store) (groupId : Id) (b : EditGroupBody)
  (g : Group.t) :
  group_findUnique s groupId = Some g ->
  Group.creatorId g = eb_userId b ->
  ((exists h, In h (groups s) /\ Group.id h <> groupId
              /\ Group.name h = assign (eb_name b) (Group.name g)
              /\ Group.creatorId h = Group.creatorId g) ->
   editGroup s groupId b
   = (Some (mkResponse INTERNAL_SERVER_ERROR (JError "Internal Server Error")), s))
  /\
  ((forall h, In h (groups s) -> Group.id h <> groupId ->
              Group.creatorId h = Group.creatorId g ->
              Group.name h <> assign (eb_name b) (Group.name g)) ->
   exists g',
     editGroup s groupId b
     = (Some (mkResponse OK (JGroup g')),
        set_groups s (map (fun h => if (Group.id h =? groupId)%nat then g' else h)
                          (groups s)))
     /\ Group.id g' = Group.id g
     /\ Group.creatorId g' = Group.creatorId g
     /\ Group.createdAt g' = Group.createdAt g
     /\ Group.name g' = assign (eb_name b) (Group.name g)
     /\ Group.bio g' = match eb_bio b with Some x => Some x | None => Group.bio g end
     /\ Group.profileImage g' = assign (eb_profileImage b) (Group.profileImage g)
     /\ Group.coverImage g'
        = match eb_coverImage b with Some x => Some x | None => Group.coverImage g end).
Proof.
  intros Hg Hc. unfold editGroup, group_update. rewrite Hg.
  cbn [not_creator]. apply Nat.eqb_eq in Hc. rewrite Hc. cbn [negb].
  cbn [Group.name Group.creatorId]. split.
  - intros (h & Hh & Hid & Hname & Hcr).
    replace (existsb _ (groups s)) with true; [reflexivity|].
    symmetry. apply existsb_exists. exists h. split; [exact Hh|].
    apply andb_true_iff. split.
    + now apply negb_true_iff, Nat.eqb_neq.
    + unfold same_group_key. rewrite Hname, Hcr.
      now rewrite String.eqb_refl, Nat.eqb_refl.
  - intros Hfree.
    replace (existsb _ (groups s)) with false.
    + cbn [ret truthy_object]. eexists. split; [reflexivity|].
      cbn [Group.id Group.creatorId Group.createdAt Group.name Group.bio
           Group.profileImage Group.coverImage].
      repeat split; [now destruct (eb_bio b) | now destruct (eb_coverImage b)].
    + symmetry. apply not_true_iff_false. intros E.
      apply existsb_exists in E as (h & Hh & E).
      apply andb_true_iff in E as [Hid E].
      apply negb_true_iff, Nat.eqb_neq in Hid.
      unfold same_group_key in E. apply andb_true_iff in E as [Hname Hcr].
      apply String.eqb_eq in Hname. apply Nat.eqb_eq in Hcr.
      exact (Hfree h Hh Hid Hcr Hname).
Qed.

Lemma editGroup_by_creator_witness :
  let s := snd (createGroup store_liked (mkGroupBody "Lean" "other" None None 0 [])) in
  group_findUnique s 6 = Some (Group.mk 6 "lean" "" None (Some "other") 0 0)
  /\ editGroup s 6 (mkEditGroupBody (Some "rocq") None None None 0)
     = (Some (mkResponse INTERNAL_SERVER_ERROR (JError "Internal Server Error")), s)
  /\ fst (editGroup s 6 (mkEditGroupBody (Some "Agda") None (Some "img") None 0))
     = Some (mkResponse OK (JGroup (Group.mk 6 "Agda" "img" None (Some "other") 0 0))).
Proof.
  intros s.
  assert (Hg : group_findUnique s 6 = Some (Group.mk 6 "lean" "" None (Some "other") 0 0))
    by reflexivity.
  split; [exact Hg|].
  pose proof (editGroup_by_creator s 6 (mkEditGroupBody (Some "rocq") None None None 0)
                _ Hg eq_refl) as [Hclash _].
  split; [|reflexivity].
  apply Hclash. exists (Group.mk 2 "rocq" "" None (Some "proofs") 0 0).
  split; [now left|]. split; [discriminate|]. split; reflexivity.
Defined.

(** ** Groups: who may do what *)

Lemma addAdmin_OK_inv (s : Store) (groupId memberId creatorId : Id) :
  status (fst (addAdmin s groupId memberId creatorId)) = OK ->
  exists g gus,
    group_findUnique s groupId = Some g
    /\ Group.creatorId g = creatorId
    /\ snd (addAdmin s groupId memberId creatorId) = set_groupUsers s gus.
Proof.
  unfold addAdmin, groupUser_update.
  destruct (group_findUnique s groupId) as [g|]; cbn [not_creator]; [|discriminate].
  destruct (Group.creatorId g =? creatorId)%nat eqn:E; cbn [negb]; [|discriminate].
  destruct (find _ (groupUsers s)); [|discriminate].
  cbn [ret truthy_object negb fst snd]. intros _.
  exists g. eexists. apply Nat.eqb_eq in E. repeat split. exact E.
Qed.

(** X23.  The admin flag opens none of the creator-gated routes: after
    the creator has made a member an admin, each of the five routes is
    still answered Forbidden to that member and leaves the store as it is. *)
Theorem admin_is_not_creator (s : Store) (groupId memberId creatorId otherId : Id)
  (b : EditGroupBody) :
  status (fst (addAdmin s groupId memberId creatorId)) = OK ->
  memberId <> creatorId ->
  eb_userId b = memberId ->
  let s' := snd (addAdmin s groupId memberId creatorId) in
  editGroup s' groupId b
  = (Some (message FORBIDDEN "You are not allowed to edit the group"), s')
  /\ deleteGroup s' groupId memberId = (message FORBIDDEN "Not Allowed", s')
  /\ addAdmin s' groupId otherId memberId
     = (message FORBIDDEN "You are not allowed to add admins", s')
  /\ removeAdmin s' groupId otherId memberId
     = (message FORBIDDEN "You are not allowed to remove admins", s')
  /\ removeMember s' groupId otherId memberId
     = (message FORBIDDEN "You are not allowed to remove members", s').
Proof.
  intros Hok Hne Hb.
  destruct (addAdmin_OK_inv s groupId memberId creatorId Hok)
    as (g & gus & Hg & Hc & Hs').
  cbn zeta. rewrite Hs'.
  assert (Hfind : group_findUnique (set_groupUsers s gus) groupId = Some g)
    by exact Hg.
  assert (Hneq : (Group.creatorId g =? memberId)%nat = false)
    by (apply Nat.eqb_neq; congruence).
  unfold editGroup, deleteGroup, addAdmin, removeAdmin, removeMember.
  rewrite Hfind, Hb. cbn [not_creator]. rewrite Hneq. cbn [negb].
  repeat split.
Qed.

Lemma admin_is_not_creator_witness :
  status (fst (addAdmin store_liked 2 1 0)) = OK
  /\ find (same_membership 1 2) (groupUsers (snd (addAdmin store_liked 2 1 0)))
     = Some (GroupUser.mk 1 2 true)
  /\ deleteGroup (snd (addAdmin store_liked 2 1 0)) 2 1
     = (message FORBIDDEN "Not Allowed", snd (addAdmin store_liked 2 1 0))
  /\ removeMember (snd (addAdmin store_liked 2 1 0)) 2 0 1
     = (message FORBIDDEN "You are not allowed to remove members",
        snd (addAdmin store_liked 2 1 0)).
Proof.
  assert (Hne : 1 <> 0) by discriminate.
  pose proof (admin_is_not_creator store_liked 2 1 0 0
                (mkEditGroupBody None None None None 1) eq_refl Hne eq_refl)
    as (_ & Hdel & _ & _ & Hrem).
  split; [reflexivity|]. split; [reflexivity|]. split; [exact Hdel | exact Hrem].
Defined.

(** ** Keys along histories *)

Lemma filter_all {A} (l : list A) : filter (fun _ => true) l = l.
Proof. induction l as [|a l IH]; [reflexivity|]. cbn. now rewrite IH. Qed.

Lemma NoDup_map_filter {A B} (key : A -> B) (f : A -> bool) (l : list A) :
  NoDup (map key l) -> NoDup (map key (filter f l)).
Proof.
  induction l as [|a l IH]; intros H; [exact H|].
  cbn [map filter] in *. inversion H as [|? ? Ha Hl]; subst.
  destruct (f a); [|now apply IH].
  cbn [map]. constructor; [|now apply IH].
  intros Hin. apply Ha. apply in_map_iff in Hin as (x & Hx & Hin).
  apply filter_In in Hin as [Hin _]. apply in_map_iff. now exists x.
Qed.

Lemma createPost_likes (s : Store) (b : PostBody) :
  likes (snd (createPost s b)) = likes s
  /\ groupUsers (snd (createPost s b)) = groupUsers s.
Proof.
  unfold createPost.
  assert (H : forall pending st,
             likes (fst (resume_callbacks st pending)) = likes st
             /\ groupUsers (fst (resume_callbacks st pending)) = groupUsers st).
  { induction pending as [|[tag [existing|]] rest IH]; intros st;
      cbn [resume_callbacks].
    - split; reflexivity.
    - specialize (IH st). now destruct (resume_callbacks st rest).
    - unfold tag_create. destruct (existsb _ (tags st)); cbn [throw ret].
      + specialize (IH st). now destruct (resume_callbacks st rest).
      + specialize (IH (set_tags st (tags st ++ [Tag.mk (next_uuid st) tag])
                                 (S (next_uuid st)))).
        now destruct (resume_callbacks _ rest). }
  specialize (H (issue_lookups s (pb_interestTechTags b)) s).
  destruct (resume_callbacks s _) as [s1 settled]. cbn [fst] in H.
  destruct (promise_all settled) as [e | tagIds]; [exact H|].
  unfold post_create.
  destruct (negb (user_exists s1 (pb_authorId b))); [exact H|].
  destruct (match pb_groupId b with Some g => _ | None => _ end); [exact H|].
  destruct (negb (forallb _ tagIds)); exact H.
Qed.

(** A request filters the likes, or appends one that was not stored. *)
Lemma store_after_likes {J : JsString} (B : Bcrypt) (s : Store) (r : Request) :
  (exists f, likes (store_after B s r) = filter f (likes s))
  \/ (exists l, likes (store_after B s r) = likes s ++ [l] /\ ~ In l (likes s)).
Proof.
  assert (Hsame : forall s', likes s' = likes s ->
                             exists f, likes s' = filter f (likes s)).
  { intros s' E. exists (fun _ => true). now rewrite filter_all. }
  destruct r; cbn [store_after].
  - left. apply Hsame.
    destruct (register_outcome B s username email password) as [[_ E] | [_ E]];
      now rewrite E.
  - left. apply Hsame.
    destruct (registerSocial_outcome s name email) as [[_ E] | [_ E]]; now rewrite E.
  - left. apply Hsame. apply createPost_likes.
  - left. apply Hsame. unfold updatePost, post_update. run_handler; reflexivity.
  - unfold likePost, post_update_likes_create.
    destruct (post_exists s postId); cbn [negb]; [|left; now apply Hsame].
    destruct (existsb (same_like likerId postId) (likes s)) eqn:E;
      [left; now apply Hsame|].
    destruct (user_exists s likerId); cbn [negb]; [|left; now apply Hsame].
    right. eexists. split; [reflexivity|]. intros Hin.
    apply not_true_iff_false in E. apply E. apply existsb_exists.
    eexists. split; [exact Hin|]. unfold same_like. cbn. now rewrite !Nat.eqb_refl.
  - left. unfold unlikePost, like_delete.
    destruct (existsb _ (likes s)); [|now apply Hsame]. now eexists.
  - left. unfold deletePost, post_delete.
    destruct (post_exists s id); [|now apply Hsame]. now eexists.
  - left. apply Hsame. apply (createGroup_core s b).
  - left. apply Hsame. apply (addAdmin_core s groupId memberId creatorId).
  - left. apply Hsame. apply (removeAdmin_core s groupId memberId creatorId).
  - left. apply Hsame. apply (editGroup_core s groupId b).
  - left. apply Hsame. apply (joinGroup_core s groupId userId).
  - left. apply Hsame. apply (leaveGroup_core s groupId userId).
  - left. apply Hsame. apply (removeMember_core s groupId memberId adminId).
  - left. unfold deleteGroup, group_delete.
    destruct (group_findUnique s groupId) as [g|]; [|now apply Hsame].
    destruct (Group.creatorId g =? creatorId)%nat; [|now apply Hsame]. now eexists.
Qed.

Lemma membership_absent_not_in (gus : list GroupUser.t) (userId groupId : Id) :
  existsb (same_membership userId groupId) gus = false ->
  ~ In (userId, groupId)
       (map (fun gu => (GroupUser.userId gu, GroupUser.groupId gu)) gus).
Proof.
  intros E Hin. apply not_true_iff_false in E. apply E.
  apply in_map_iff in Hin as (gu & Hk & Hin).
  apply existsb_exists. exists gu. split; [exact Hin|].
  injection Hk as <- <-. unfold same_membership. now rewrite !Nat.eqb_refl.
Qed.

Lemma groupUser_create_nested_keys (rows : list MemberInput) (s s' : Store)
  (groupId : Id) :
  groupUser_create_nested s groupId rows = inr s' ->
  member_keys_unique s -> member_keys_unique s'.
Proof.
  unfold groupUser_create_nested, member_keys_unique.
  destruct (groupUser_insert (groupUsers s) groupId rows) as [gus|] eqn:E;
    [|discriminate].
  destruct (forallb _ rows); [|discriminate].
  intros H. injection H as <-. cbn [groupUsers set_groupUsers].
  revert E. generalize (groupUsers s). clear.
  induction rows as [|r rows IH]; intros l H Hl; cbn [groupUser_insert] in H.
  - now injection H as <-.
  - destruct (existsb _ l) eqn:E; [discriminate|].
    apply IH in H; [exact H|].
    rewrite map_app. apply NoDup_snoc; [exact Hl|].
    now apply membership_absent_not_in.
Qed.

Lemma groupUser_update_keys (s : Store) (userId groupId : Id) (isAdmin : bool)
  (gu : GroupUser.t) (s' : Store) :
  groupUser_update s userId groupId isAdmin = inr (gu, s') ->
  map (fun r => (GroupUser.userId r, GroupUser.groupId r)) (groupUsers s')
  = map (fun r => (GroupUser.userId r, GroupUser.groupId r)) (groupUsers s).
Proof.
  unfold groupUser_update.
  destruct (find _ (groupUsers s)) as [found|] eqn:E; [|discriminate].
  intros H. injection H as <- <-. cbn [groupUsers set_groupUsers].
  apply find_some in E as [_ E]. unfold same_membership in E.
  apply andb_true_iff in E as [Eu Eg]. apply Nat.eqb_eq in Eu, Eg.
  rewrite map_map. apply map_ext. intros r.
  destruct (same_membership userId groupId r) eqn:Er; [|reflexivity].
  unfold same_membership in Er. apply andb_true_iff in Er as [Ru Rg].
  apply Nat.eqb_eq in Ru, Rg. cbn. congruence.
Qed.

Lemma store_after_member_keys {J : JsString} (B : Bcrypt) (s : Store) (r : Request) :
  member_keys_unique s -> member_keys_unique (store_after B s r).
Proof.
  intros Hs. destruct r; cbn [store_after].
  - destruct (register_outcome B s username email password) as [[_ E] | [_ E]];
      now rewrite E.
  - destruct (registerSocial_outcome s name email) as [[_ E] | [_ E]]; now rewrite E.
  - unfold member_keys_unique. now rewrite (proj2 (createPost_likes s b)).
  - unfold updatePost, post_update. run_handler; exact Hs.
  - unfold likePost, post_update_likes_create. run_handler; exact Hs.
  - unfold unlikePost, like_delete. run_handler; exact Hs.
  - unfold deletePost, post_delete. run_handler; exact Hs.
  - unfold createGroup, group_create.
    destruct (existsb _ (groups s)); [exact Hs|].
    destruct (negb (user_exists s (gb_creatorId b))); [exact Hs|].
    unfold bind.
    destruct (groupUser_create_nested _ _ _) as [[[| |]|] | s2] eqn:E; try exact Hs.
    cbn [ret snd]. exact (groupUser_create_nested_keys _ _ _ _ E Hs).
  - unfold addAdmin. destruct (not_creator _ _); [exact Hs|].
    destruct (groupUser_update s memberId groupId true) as [e | [gu s']] eqn:E;
      [exact Hs|].
    cbn [truthy_object negb snd]. unfold member_keys_unique.
    now rewrite (groupUser_update_keys _ _ _ _ _ _ E).
  - unfold removeAdmin. destruct (not_creator _ _); [exact Hs|].
    destruct (groupUser_update s memberId groupId false) as [e | [gu s']] eqn:E;
      [exact Hs|].
    cbn [truthy_object negb snd]. unfold member_keys_unique.
    now rewrite (groupUser_update_keys _ _ _ _ _ _ E).
  - unfold editGroup, group_update. run_handler; exact Hs.
  - unfold joinGroup, groupUser_create.
    destruct (existsb _ (groupUsers s)) eqn:E; [exact Hs|].
    destruct (negb (user_exists s userId) || negb (group_exists s groupId));
      [exact Hs|].
    cbn [ret snd]. unfold member_keys_unique in *. cbn [groupUsers set_groupUsers].
    rewrite map_app. apply NoDup_snoc; [exact Hs|].
    now apply membership_absent_not_in.
  - unfold leaveGroup, groupUser_delete.
    destruct (existsb _ (groupUsers s)); [|exact Hs].
    cbn [ret snd]. now apply NoDup_map_filter.
  - unfold removeMember, groupUser_delete. destruct (not_creator _ _); [exact Hs|].
    destruct (existsb _ (groupUsers s)); [|exact Hs].
    cbn [ret snd]. now apply NoDup_map_filter.
  - unfold deleteGroup, group_delete.
    destruct (group_findUnique s groupId) as [g|]; [|exact Hs].
    destruct (Group.creatorId g =? creatorId)%nat; [|exact Hs].
    cbn [ret snd]. now apply NoDup_map_filter.
Qed.

(** X24.  Every store a history of requests leads to satisfies the
    constraints of the schema on likes, tags and memberships: a like
    points at a stored post and a stored user, no two likes have the same
    (user, post), no two tags the same name, and no two memberships the
    same (user, group). *)
Theorem reachable_constraints {J : JsString} (B : Bcrypt) (s : Store) :
  reachable B s ->
  likes_referenced s = true
  /\ like_keys_unique s
  /\ tag_names_unique s
  /\ member_keys_unique s.
Proof.
  intros Hreach.
  destruct (reachable_invariants B s Hreach) as [Hrefs Htags].
  split; [exact Hrefs|]. split; [|split; [exact Htags|]].
  - clear Hrefs Htags. induction Hreach as [|s r _ IH]; [constructor|].
    unfold like_keys_unique in *.
    destruct (store_after_likes B s r) as [[f E] | (l & E & Hnew)]; rewrite E.
    + now apply NoDup_filter.
    + now apply NoDup_snoc.
  - clear Hrefs Htags. induction Hreach as [|s r _ IH]; [constructor|].
    now apply store_after_member_keys.
Qed.

Lemma reachable_constraints_witness :
  reachable prefix_bcrypt store_liked
  /\ likes_referenced store_liked = true
  /\ like_keys_unique store_liked
  /\ tag_names_unique store_liked
  /\ member_keys_unique store_liked.
Proof.
  split; [exact store_liked_reachable|].
  exact (reachable_constraints prefix_bcrypt store_liked store_liked_reachable).
Defined.

(** ** What a request cannot do *)

(** X25.  A request that is not answered OK or Created leaves the store
    exactly as it was, with one exception: a failed post creation may have
    created tags, and even then every other table is as before. *)
Theorem failed_request_writes_nothing {J : JsString} (B : Bcrypt) (s : Store) (r : Request) :
  succeeded (answer B s r) = false ->
  match r with
  | CreatePost _ =>
      users (store_after B s r) = users s
      /\ posts (store_after B s r) = posts s
      /\ postTags (store_after B s r) = postTags s
      /\ likes (store_after B s r) = likes s
      /\ groups (store_after B s r) = groups s
      /\ groupUsers (store_after B s r) = groupUsers s
  | _ => store_after B s r = s
  end.
Proof.
  destruct r; cbn [answer store_after succeeded option_map].
  - unfold register. now destruct (user_create s username _ _) as [[[| |]|] | [u s']].
  - unfold registerSocial. now destruct (user_create s name _ _) as [[[| |]|] | [u s']].
  - intros Hfail.
    pose proof (createPost_likes s b) as [Hl Hgu]. rewrite Hl, Hgu.
    revert Hfail. unfold createPost.
    pose proof (resume_callbacks_frame (issue_lookups s (pb_interestTechTags b)) s)
      as (Hu & Hp & Hpt & Hg).
    destruct (resume_callbacks s _) as [s1 settled]. cbn [fst] in *.
    destruct (promise_all settled) as [e | tagIds]; [now repeat split|].
    destruct (post_create s1 b tagIds) as [e | [p s2]]; [now repeat split|].
    discriminate.
  - unfold updatePost. now destruct (post_update s id _ _) as [[[| |]|] | [p s']].
  - unfold likePost.
    now destruct (post_update_likes_create s postId likerId) as [[[| |]|] | s'].
  - unfold unlikePost. now destruct (like_delete s likerId postId) as [[[| |]|] | s'].
  - unfold deletePost. now destruct (post_delete s id) as [[[| |]|] | s'].
  - unfold createGroup. now destruct (group_create _ _ _ _ _ _ _) as [[[| |]|] | [g s']].
  - unfold addAdmin. destruct (not_creator _ _); [reflexivity|].
    now destruct (groupUser_update s memberId groupId true) as [e | [gu s']].
  - unfold removeAdmin. destruct (not_creator _ _); [reflexivity|].
    now destruct (groupUser_update s memberId groupId false) as [e | [gu s']].
  - unfold editGroup. destruct (not_creator _ _); [reflexivity|].
    now destruct (group_update s groupId b) as [e | [g s']].
  - unfold joinGroup.
    now destruct (groupUser_create s userId groupId) as [[[| |]|] | [gu s']].
  - unfold leaveGroup.
    now destruct (groupUser_delete s userId groupId) as [[[| |]|] | s'].
  - unfold removeMember. destruct (not_creator _ _); [reflexivity|].
    now destruct (groupUser_delete s memberId groupId) as [[[| |]|] | s'].
  - unfold deleteGroup. destruct (group_findUnique s groupId) as [g|]; [|reflexivity].
    destruct (Group.creatorId g =? creatorId)%nat; [|reflexivity].
    now destruct (group_delete s groupId) as [e | [h s']].
Qed.

Lemma failed_request_writes_nothing_witness :
  succeeded (answer prefix_bcrypt store_liked (JoinGroup 2 1)) = false
  /\ store_after prefix_bcrypt store_liked (JoinGroup 2 1) = store_liked
  /\ succeeded (answer prefix_bcrypt store_liked
                  (CreatePost (mkPostBody 9 "ghost" None None None None None None None
                                          None ["zig"]))) = false
  /\ tags (store_after prefix_bcrypt store_liked
             (CreatePost (mkPostBody 9 "ghost" None None None None None None None
                                     None ["zig"])))
     = tags store_liked ++ [Tag.mk 6 "zig"]
  /\ posts (store_after prefix_bcrypt store_liked
              (CreatePost (mkPostBody 9 "ghost" None None None None None None None
                                      None ["zig"])))
     = posts store_liked.
Proof.
  split; [reflexivity|].
  split; [exact (failed_request_writes_nothing prefix_bcrypt store_liked
                   (JoinGroup 2 1) eq_refl)|].
  split; [reflexivity|]. split; [reflexivity|].
  apply (failed_request_writes_nothing prefix_bcrypt store_liked
           (CreatePost (mkPostBody 9 "ghost" None None None None None None None
                                   None ["zig"])) eq_refl).
Defined.

Lemma find_snoc_some {A} (f : A -> bool) (l : list A) (x y : A) :
  find f l = Some y -> find f (l ++ [x]) = Some y.
Proof.
  induction l as [|a l IH]; [discriminate|]. cbn [find app].
  destruct (f a); [trivial | exact IH].
Qed.

Lemma find_group_replaced (l : list Group.t) (id id' : Id) (g g' : Group.t) :
  find (fun h => (Group.id h =? id)%nat) l = Some g ->
  Group.id g' = id ->
  find (fun h => (Group.id h =? id')%nat)
       (map (fun h => if (Group.id h =? id)%nat then g' else h) l)
  = if (id =? id')%nat then Some g'
    else find (fun h => (Group.id h =? id')%nat) l.
Proof.
  intros Hfind Hid. induction l as [|h l IH]; [discriminate|].
  cbn [find map] in *. destruct (Group.id h =? id)%nat eqn:E.
  - apply Nat.eqb_eq in E. rewrite Hid, E.
    destruct (id =? id')%nat eqn:E'; [reflexivity|].
    injection Hfind as ->.
    clear IH. induction l as [|k l IH]; [reflexivity|].
    cbn [find map]. destruct (Group.id k =? id)%nat eqn:Ek.
    + apply Nat.eqb_eq in Ek. now rewrite Hid, Ek, E'.
    + now rewrite IH.
  - destruct (Group.id h =? id')%nat eqn:E'.
    + destruct (id =? id')%nat eqn:E''; [|reflexivity].
      apply Nat.eqb_eq in E'', E'. apply Nat.eqb_neq in E. congruence.
    + now apply IH.
Qed.

Lemma find_group_filtered (l : list Group.t) (id id' : Id) :
  find (fun h => (Group.id h =? id')%nat)
       (filter (fun h => negb (Group.id h =? id)%nat) l)
  = if (id =? id')%nat then None
    else find (fun h => (Group.id h =? id')%nat) l.
Proof.
  induction l as [|h l IH].
  - now destruct (id =? id')%nat.
  - cbn [find filter]. destruct (Group.id h =? id)%nat eqn:E; cbn [negb find].
    + rewrite IH. destruct (id =? id')%nat eqn:E'; [reflexivity|].
      apply Nat.eqb_eq in E. rewrite E, E'. reflexivity.
    + rewrite IH. destruct (Group.id h =? id')%nat eqn:E''; [|reflexivity].
      destruct (id =? id')%nat eqn:E'; [|reflexivity].
      apply Nat.eqb_eq in E', E''. apply Nat.eqb_neq in E. congruence.
Qed.

(** X26.  No request changes who created a group: a group that is found
    under an id before and after a request has the same creator and the
    same creation time, whatever the request.  In particular no edit,
    promotion or removal moves a group to another creator. *)
Theorem group_creator_fixed {J : JsString} (B : Bcrypt) (s : Store) (r : Request) (id : Id)
  (g g' : Group.t) :
  group_findUnique s id = Some g ->
  group_findUnique (store_after B s r) id = Some g' ->
  Group.creatorId g' = Group.creatorId g
  /\ Group.createdAt g' = Group.createdAt g
  /\ Group.id g' = Group.id g.
Proof.
  intros Hg.
  assert (Hsame : forall s', groups s' = groups s ->
                             group_findUnique s' id = Some g' ->
                             Group.creatorId g' = Group.creatorId g
                             /\ Group.createdAt g' = Group.createdAt g
                             /\ Group.id g' = Group.id g).
  { intros s' E. unfold group_findUnique in *. rewrite E, Hg.
    intros H. injection H as <-. repeat split. }
  destruct r; cbn [store_after].
  - apply Hsame.
    destruct (register_outcome B s username email password) as [[_ E] | [_ E]];
      now rewrite E.
  - apply Hsame.
    destruct (registerSocial_outcome s name email) as [[_ E] | [_ E]]; now rewrite E.
  - apply Hsame. unfold createPost.
    pose proof (resume_callbacks_frame (issue_lookups s (pb_interestTechTags b)) s)
      as (_ & _ & _ & Hgr).
    destruct (resume_callbacks s _) as [s1 settled]. cbn [fst] in Hgr.
    destruct (promise_all settled) as [e | tagIds]; [exact Hgr|].
    unfold post_create.
    destruct (negb (user_exists s1 (pb_authorId b))); [exact Hgr|].
    destruct (match pb_groupId b with Some x => _ | None => _ end); [exact Hgr|].
    destruct (negb (forallb _ tagIds)); exact Hgr.
  - apply Hsame. unfold updatePost, post_update. run_handler; reflexivity.
  - apply Hsame. unfold likePost, post_update_likes_create. run_handler; reflexivity.
  - apply Hsame. unfold unlikePost, like_delete. run_handler; reflexivity.
  - apply Hsame. unfold deletePost, post_delete. run_handler; reflexivity.
  - unfold createGroup.
    destruct (group_create _ _ _ _ _ _ _) as [[[| |]|] | [h s2]] eqn:Hc; cbn [snd];
      try (now apply Hsame).
    apply group_create_inv in Hc as (_ & _ & -> & Hrows).
    apply groupUser_create_nested_rows in Hrows as (Hgroups & _).
    unfold group_findUnique in *. rewrite Hgroups. cbn [groups].
    rewrite (find_snoc_some _ _ _ _ Hg). intros H. injection H as <-. repeat split.
  - apply Hsame. unfold addAdmin, groupUser_update. run_handler; reflexivity.
  - apply Hsame. unfold removeAdmin, groupUser_update. run_handler; reflexivity.
  - unfold editGroup, group_update.
    destruct (not_creator _ _); [now apply Hsame|].
    destruct (group_findUnique s groupId) as [g0|] eqn:Hg0; [|now apply Hsame].
    destruct (existsb _ (groups s)); [now apply Hsame|].
    cbn [ret truthy_object snd]. unfold group_findUnique in *. cbn [groups set_groups].
    assert (Hid0 : Group.id g0 = groupId).
    { apply find_some in Hg0 as [_ H0]. now apply Nat.eqb_eq. }
    erewrite find_group_replaced; [| exact Hg0 | exact Hid0].
    destruct (groupId =? id)%nat eqn:E.
    + apply Nat.eqb_eq in E. subst. rewrite Hg in Hg0. injection Hg0 as <-.
      intros H. injection H as <-. repeat split.
    + rewrite Hg. intros H. injection H as <-. repeat split.
  - apply Hsame. unfold joinGroup, groupUser_create. run_handler; reflexivity.
  - apply Hsame. unfold leaveGroup, groupUser_delete. run_handler; reflexivity.
  - apply Hsame. unfold removeMember, groupUser_delete. run_handler; reflexivity.
  - unfold deleteGroup, group_delete.
    destruct (group_findUnique s groupId) as [g0|]; [|now apply Hsame].
    destruct (Group.creatorId g0 =? creatorId)%nat; [|now apply Hsame].
    cbn [ret snd]. unfold group_findUnique in *. cbn [groups].
    rewrite find_group_filtered.
    destruct (groupId =? id)%nat; [discriminate|].
    rewrite Hg. intros H. injection H as <-. repeat split.
Qed.

Lemma group_creator_fixed_witness :
  group_findUnique store_liked 2 = Some (Group.mk 2 "rocq" "" None (Some "proofs") 0 0)
  /\ group_findUnique
       (store_after prefix_bcrypt store_liked
          (EditGroup 2 (mkEditGroupBody (Some "Lean") (Some "x") None None 0))) 2
     = Some (Group.mk 2 "Lean" "" None (Some "x") 0 0)
  /\ option_map Group.creatorId
       (group_findUnique
          (store_after prefix_bcrypt store_liked
             (EditGroup 2 (mkEditGroupBody (Some "Lean") (Some "x") None None 0))) 2)
     = Some 0.
Proof.
  assert (Hg : group_findUnique store_liked 2
               = Some (Group.mk 2 "rocq" "" None (Some "proofs") 0 0)) by reflexivity.
  assert (Hg' : group_findUnique
                  (store_after prefix_bcrypt store_liked
                     (EditGroup 2 (mkEditGroupBody (Some "Lean") (Some "x") None None 0))) 2
                = Some (Group.mk 2 "Lean" "" None (Some "x") 0 0)) by reflexivity.
  split; [exact Hg|]. split; [exact Hg'|].
  destruct (group_creator_fixed prefix_bcrypt store_liked _ 2 _ _ Hg Hg') as [Hc _].
  rewrite Hg'. cbn [option_map]. now rewrite Hc.
Defined.

(** ** Witnesses for earlier statements *)

Lemma createPost_distinct_new_names_witness :
  NoDup (filter (no_row store_group) ["rust"; "coq"])
  /\ user_exists store_group 0 = true
  /\ group_exists store_group 2 = true
  /\ status (fst (createPost store_group
                    (mkPostBody 0 "hello" None (Some 2) None None None None None None
                                ["rust"; "coq"]))) = OK
  /\ exists ids,
       Forall2 (fun n id => In (Tag.mk id n) (tags store_post)) ["rust"; "coq"] ids
       /\ (forall id, In id ids -> In (5, id) (postTags store_post)).
Proof.
  assert (Hnd : NoDup (filter (no_row store_group) ["rust"; "coq"])).
  { vm_compute. repeat constructor; cbn; intuition discriminate. }
  split; [exact Hnd|]. split; [reflexivity|]. split; [reflexivity|].
  split; [reflexivity|].
  destruct (createPost_distinct_new_names store_group
              (mkPostBody 0 "hello" None (Some 2) None None None None None None
                          ["rust"; "coq"]) Hnd eq_refl eq_refl)
    as (p & s' & ids & Hrun & _ & Hnames & Hlinks & _).
  change (createPost store_group _)
    with (mkResponse OK
            (JPostTags (Post.mk 5 0 "hello" STANDARD (Some 2) None None None None None
                                None 0 0) ["rust"; "coq"]), store_post) in Hrun.
  injection Hrun as Hp _ Hs'. subst p s'.
  exists ids. split; [exact Hnames | exact Hlinks].
Defined.

Lemma creator_gate_no_group_witness :
  group_findUnique store_liked 8 = None
  /\ fst (addAdmin store_liked 8 1 0)
     = message FORBIDDEN "You are not allowed to add admins"
  /\ fst (deleteGroup store_liked 8 0) = message NOT_FOUND "Group does not exist".
Proof.
  pose proof (creator_gate_no_group store_liked 8 0 1
                (mkEditGroupBody None None None None 0) eq_refl eq_refl)
    as (_ & Hadd & _ & _ & Hdel).
  split; [reflexivity|]. split; [exact Hadd | exact Hdel].
Defined.

(** ** Registration across the two routes *)

(** X29.  The two registration routes share the uniqueness of the email:
    after either one was answered Created, the other is answered Conflict
    for every spelling of that email and changes nothing.  An account
    created by the social route can thus not be given a password through
    the local one. *)
Theorem registration_routes_share_emails {J : JsString} (B : Bcrypt) (s : Store)
  (username name email email' password : string) :
  toLowerCase email' = toLowerCase email ->
  (status (fst (register B s username email password)) = CREATED ->
   let s' := snd (register B s username email password) in
   registerSocial s' name email' = (message CONFLICT "Error: User already exists", s'))
  /\
  (status (fst (registerSocial s name email)) = CREATED ->
   let s' := snd (registerSocial s name email) in
   register B s' username email' password
   = (message CONFLICT "Error user already exists", s')).
Proof.
  intros Hfold. split; intros Hst.
  - destruct (register_outcome B s username email password) as [[_ E] | [_ E]];
      rewrite E in *; [discriminate Hst|].
    cbn [snd]. unfold registerSocial, user_create. rewrite Hfold.
    cbn [users set_users]. rewrite existsb_snoc. cbn [User.email].
    now rewrite String.eqb_refl, orb_true_r.
  - destruct (registerSocial_outcome s name email) as [[_ E] | [_ E]];
      rewrite E in *; [discriminate Hst|].
    cbn [snd]. unfold register, user_create. rewrite Hfold.
    cbn [users set_users]. rewrite existsb_snoc. cbn [User.email].
    now rewrite String.eqb_refl, orb_true_r.
Qed.

Lemma registration_routes_share_emails_witness :
  toLowerCase "CY@hub.io" = toLowerCase "Cy@Hub.io"
  /\ status (fst (registerSocial store_liked "Cy" "Cy@Hub.io")) = CREATED
  /\ register prefix_bcrypt (snd (registerSocial store_liked "Cy" "Cy@Hub.io"))
              "cy" "CY@hub.io" "pw"
     = (message CONFLICT "Error user already exists",
        snd (registerSocial store_liked "Cy" "Cy@Hub.io")).
Proof.
  assert (Hfold : toLowerCase "CY@hub.io" = toLowerCase "Cy@Hub.io") by reflexivity.
  split; [exact Hfold|]. split; [reflexivity|].
  destruct (registration_routes_share_emails prefix_bcrypt store_liked
              "cy" "Cy" "Cy@Hub.io" "CY@hub.io" "pw" Hfold) as [_ Hlocal].
  exact (Hlocal eq_refl).
Defined.
